(** * Routing and resilient invocation: a shallow embedding

    The development follows the Python sources
      - [backend/agents/base.py]         (capability scoring),
      - [backend/agents/registry.py]     (responder registry),
      - [backend/agents/fallback_llm.py] (primary/fallback invoker, manager),
      - [backend/agents/orchestrator.py] (router).

    Conventions.
      - A Python [str] is a [string]; [str.lower] and [str.strip] are the
        ASCII restrictions of the Python methods.
      - A Python [float] is an IEEE 754 binary64 value, given by the
        Standard Library's [spec_float] with precision 53 and [emax] 1024.
      - A Python [int] is a [Z]; its conversion to a float raises
        [OverflowError] when it rounds to an infinity.
      - The retry delay of the configuration is a float, as its default
        [1.0] is. A sleep is recorded with the time it is asked for.
      - A model backend is an oracle: the answer to the [n]-th remote call of
        an invoker is any reply or any exception of a class below
        [Exception].
      - The configuration is well formed: every section the core reads is a
        dictionary and every number it reads is a number. *)

From Stdlib Require Import Bool Arith ZArith Lia List String Ascii.
From Stdlib Require Import Floats.SpecFloat.
Import ListNotations.

Local Open Scope string_scope.

(** ** Python strings *)

Module PyStr.

(** [c.lower()] for one ASCII character. *)
Definition lower_ascii (c : ascii) : ascii :=
  let n := nat_of_ascii c in
  if (65 <=? n)%nat && (n <=? 90)%nat then ascii_of_nat (n + 32) else c.

(** [s.lower()] *)
Fixpoint lower (s : string) : string :=
  match s with
  | EmptyString => EmptyString
  | String c t => String (lower_ascii c) (lower t)
  end.

(** [needle in hay]: substring test. *)
Fixpoint contains (needle hay : string) : bool :=
  prefix needle hay ||
  match hay with
  | EmptyString => false
  | String _ t => contains needle t
  end.

(** Characters removed by [str.strip()]: TAB, LF, VT, FF, CR, FS, GS, RS, US
    and the space. *)
Definition is_space (c : ascii) : bool :=
  let n := nat_of_ascii c in
  ((9 <=? n)%nat && (n <=? 13)%nat) || ((28 <=? n)%nat && (n <=? 32)%nat).

Fixpoint lstrip (s : string) : string :=
  match s with
  | EmptyString => EmptyString
  | String c t => if is_space c then lstrip t else s
  end.

Fixpoint rstrip (s : string) : string :=
  match s with
  | EmptyString => EmptyString
  | String c t =>
      match rstrip t with
      | EmptyString => if is_space c then EmptyString else String c EmptyString
      | t' => String c t'
      end
  end.

(** [s.strip()] *)
Definition strip (s : string) : string := rstrip (lstrip s).

(** [any(keyword in msg for keyword in keywords)] *)
Definition any_in (keywords : list string) (msg : string) : bool :=
  existsb (fun keyword => contains keyword msg) keywords.

End PyStr.

(** ** Python floats (binary64) *)

Module PyFloat.

Definition prec : Z := 53.
Definition emax : Z := 1024.

Definition float := spec_float.

Definition fadd : float -> float -> float := SFadd prec emax.
Definition fmul : float -> float -> float := SFmul prec emax.
Definition fdiv : float -> float -> float := SFdiv prec emax.
Definition flt : float -> float -> bool := SFltb.
Definition fle : float -> float -> bool := SFleb.

(** [float(n)] for a Python [int] (round to nearest even). Python refuses
    the integers that round to an infinity; they are far above any count
    of keywords. *)
Definition of_int (n : Z) : float := binary_normalize prec emax n 0 false.

(** The literals of the source. *)
Definition f0_0 : float := S754_zero false.
Definition f1_0 : float := S754_finite false 4503599627370496 (-52).
Definition f2_0 : float := S754_finite false 4503599627370496 (-51).
Definition f4_0 : float := S754_finite false 4503599627370496 (-50).
Definition f0_3 : float := S754_finite false 5404319552844595 (-54).
Definition f0_4 : float := S754_finite false 7205759403792794 (-54).
Definition f0_5 : float := S754_finite false 4503599627370496 (-53).

(** [min(a, b)]: the first argument unless the second is smaller. *)
Definition py_min (a b : float) : float := if flt b a then b else a.

(** Truth value of a float: false for both zeros only. *)
Definition truthy (x : float) : bool :=
  match x with
  | S754_zero _ => false
  | _ => true
  end.

(** [math.isfinite(x)] *)
Definition is_finite (x : float) : bool :=
  match x with
  | S754_zero _ | S754_finite _ _ _ => true
  | S754_infinity _ | S754_nan => false
  end.

(** Sign bit clear and not a NaN. *)
Definition nonneg (x : float) : Prop :=
  match x with
  | S754_zero s => s = false
  | S754_infinity s => s = false
  | S754_nan => False
  | S754_finite s _ _ => s = false
  end.

End PyFloat.

(** ** Insertion-ordered dictionaries with string keys *)

Module Dict.
Section Dict.
Context {V : Type}.

Definition dict := list (string * V).

Definition empty : dict := [].

(** [d[k] = v]: an existing key keeps its position. *)
Fixpoint set (k : string) (v : V) (d : dict) : dict :=
  match d with
  | [] => [(k, v)]
  | (k', v') :: t =>
      if String.eqb k k' then (k, v) :: t else (k', v') :: set k v t
  end.

(** [d.get(k)] *)
Fixpoint get (k : string) (d : dict) : option V :=
  match d with
  | [] => None
  | (k', v') :: t => if String.eqb k k' then Some v' else get k t
  end.

Definition keys (d : dict) : list string := map fst d.
Definition values (d : dict) : list V := map snd d.
Definition items (d : dict) : list (string * V) := d.
Definition len (d : dict) : nat := List.length d.

End Dict.
Arguments dict V : clear implicits.
End Dict.

(** ** Exceptions and effects *)

Module PyEff.

(** An exception object: its class and [str(e)]. Only classes below
    [Exception] are modelled. *)
Record exn := mk_exn { exn_class : string; exn_msg : string }.

Inductive outcome (A : Type) :=
| Return (a : A)
| Raise (e : exn).
Arguments Return {A} a.
Arguments Raise {A} e.

(** Truth value of a reference that may be [None]. *)
Definition is_some {A} (o : option A) : bool :=
  match o with
  | Some _ => true
  | None => false
  end.

Section Monad.
Context {St : Type}.

(** A computation on a mutable state that returns or raises; the state
    changes made before an exception are kept. *)
Definition M (A : Type) : Type := St -> outcome A * St.

Definition ret {A} (a : A) : M A := fun st => (Return a, st).

Definition raise {A} (e : exn) : M A := fun st => (Raise e, st).

Definition bind {A B} (m : M A) (k : A -> M B) : M B :=
  fun st =>
    match m st with
    | (Return a, st') => k a st'
    | (Raise e, st') => (Raise e, st')
    end.

(** [try: m  except Exception as e: h e] *)
Definition try_except {A} (m : M A) (h : exn -> M A) : M A :=
  fun st =>
    match m st with
    | (Return a, st') => (Return a, st')
    | (Raise e, st') => h e st'
    end.

Definition get : M St := fun st => (Return st, st).

(** The result of a computation that does not touch the state. *)
Definition lift {A} (o : outcome A) : M A := fun st => (o, st).

Definition modify (f : St -> St) : M unit := fun st => (Return tt, f st).

End Monad.
Arguments M St A : clear implicits.

Declare Scope py_scope.
Delimit Scope py_scope with py.
Notation "x <- m ;; k" := (bind m (fun x => k))
  (at level 61, m at next level, right associativity) : py_scope.
Notation "m ;; k" := (bind m (fun _ => k))
  (at level 61, right associativity) : py_scope.
Notation "'try' m 'except' e => h" := (try_except m (fun e => h))
  (at level 61, m at next level, e name, right associativity) : py_scope.

End PyEff.

Import PyStr PyFloat PyEff.

Local Open Scope py_scope.

(** ** [config/config_loader.py]: the configuration the core reads *)

Module config_loader.

Record ModelConfig := {
  model_name : string;
  temperature : float;
  max_tokens : Z
}.

Record AgentConfig := {
  model : ModelConfig;
  routing_confidence_threshold : option float
}.

(** The dictionary returned by [get_fallback_config()], restricted to the
    keys the core reads; [None] is an absent key. The retry delay is a
    float, as the default [1.0] of the source is. *)
Record FallbackSettings := {
  enabled : option bool;
  max_retries : option Z;
  retry_delay : option float;
  fallback_notification : option bool
}.

Record SystemConfig := {
  max_conversation_history : Z
}.

(** The global [config_loader] object, as a well-formed configuration. *)
Record ConfigLoader := {
  get_agent_config : string -> string -> AgentConfig;
  get_fallback_agent_config : string -> string -> AgentConfig;
  get_fallback_config : FallbackSettings;
  get_system_config : SystemConfig
}.

(** [d.get(key, default)] *)
Definition get_or {A} (o : option A) (default : A) : A :=
  match o with
  | Some a => a
  | None => default
  end.

Definition is_fallback_enabled (c : ConfigLoader) : bool :=
  get_or (enabled (get_fallback_config c)) true.

End config_loader.

(** ** [agents/fallback_llm.py] *)

Module fallback_llm.
Import config_loader.

(** The remote client built by [_create_llm]. *)
Record ChatOpenAI := { client_model : string }.

(** The text of every generation of an [LLMResult]. *)
Record LLMResult := { generations : list (list string) }.

(** The two clients of an invoker. *)
Inductive llm_role := Primary | Fallback.

Inductive event :=
| Call (role : llm_role)
| Sleep (seconds : float).

(** The environment of one invoker: what the [n]-th remote call answers
    when sent to either client, the number of calls made, and what the
    invoker did so far. *)
Record World := {
  backend : llm_role -> nat -> outcome LLMResult;
  calls : nat;
  trace : list event
}.

Record FallbackLLM := {
  agent_name : string;
  agent_type : string;
  primary_config : AgentConfig;
  fallback_config : AgentConfig;
  fallback_settings : FallbackSettings;
  primary_llm : ChatOpenAI;
  fallback_llm : option ChatOpenAI;
  using_fallback : bool;
  fallback_reason : option string
}.

Definition _create_llm (agent_config : AgentConfig) : ChatOpenAI :=
  {| client_model := model_name (model agent_config) |}.

(** [FallbackLLM.__init__] *)
Definition init (c : ConfigLoader) (name type : string) : FallbackLLM :=
  {| agent_name := name;
     agent_type := type;
     primary_config := get_agent_config c name type;
     fallback_config := get_fallback_agent_config c name type;
     fallback_settings := get_fallback_config c;
     primary_llm := _create_llm (get_agent_config c name type);
     fallback_llm :=
       if is_fallback_enabled c
       then Some (_create_llm (get_fallback_agent_config c name type))
       else None;
     using_fallback := false;
     fallback_reason := None |}.

(** [self.using_fallback = b; self.fallback_reason = r] *)
Definition set_fallback (b : bool) (r : option string) (self : FallbackLLM)
  : FallbackLLM :=
  {| agent_name := agent_name self;
     agent_type := agent_type self;
     primary_config := primary_config self;
     fallback_config := fallback_config self;
     fallback_settings := fallback_settings self;
     primary_llm := primary_llm self;
     fallback_llm := fallback_llm self;
     using_fallback := b;
     fallback_reason := r |}.

(** Invoker computations run on the invoker and its environment. *)
Definition Inv := M (FallbackLLM * World).

Definition record_event (e : event) (w : World) : World :=
  {| backend := backend w; calls := calls w; trace := (trace w ++ [e])%list |}.

Definition record_call (role : llm_role) (w : World) : World :=
  {| backend := backend w; calls := S (calls w);
     trace := (trace w ++ [Call role])%list |}.

(** One remote call [client.agenerate(messages_list)]. *)
Definition remote (role : llm_role) : Inv LLMResult :=
  fun st => (backend (snd st) role (calls (snd st)),
             (fst st, record_call role (snd st))).

(** [await self.primary_llm.agenerate(...)] *)
Definition call_primary : Inv LLMResult := remote Primary.

Definition none_has_no_agenerate : exn :=
  mk_exn "AttributeError" "'NoneType' object has no attribute 'agenerate'".

(** [await self.fallback_llm.agenerate(...)]; the attribute may be [None]. *)
Definition call_fallback : Inv LLMResult :=
  st <- get ;;
  match fallback_llm (fst st) with
  | Some _ => remote Fallback
  | None => raise none_has_no_agenerate
  end.

(** [await asyncio.sleep(seconds)]: the sleep is recorded with the time
    asked for. asyncio completes the sleep of every finite time, at once
    when the time is not positive. *)
Definition sleep (seconds : float) : Inv unit :=
  modify (fun st => (fst st, record_event (Sleep seconds) (snd st))).

Definition credit_keywords : list string :=
  [ "insufficient"; "quota"; "credit"; "payment"; "billing";
    "limit"; "exceeded"; "402"; "payment required"; "balance" ].

Definition rate_limit_keywords : list string :=
  [ "rate limit"; "too many requests"; "429"; "throttle" ].

Definition is_credit_error (e : exn) : bool :=
  any_in credit_keywords (lower (exn_msg e)).

Definition is_rate_limit (e : exn) : bool :=
  any_in rate_limit_keywords (lower (exn_msg e)).

Definition credit_exhausted : string := "credit_exhausted".
Definition max_retries_exceeded : string := "max_retries_exceeded".

Definition int_too_large : exn :=
  mk_exn "OverflowError" "int too large to convert to float".

(** [x * n] for a float [x] and an [int] [n]: Python converts [n] to a
    float first, and raises [OverflowError] when [n] rounds to an
    infinity. *)
Definition fmul_int (x : float) (n : Z) : outcome float :=
  match of_int n with
  | S754_infinity _ => Raise int_too_large
  | y => Return (fmul x y)
  end.

(** [retry_delay * (2 ** attempt)] *)
Definition exponential_backoff (retry_delay : float) (attempt : nat)
  : outcome float :=
  fmul_int retry_delay (2 ^ Z.of_nat attempt).

(** The [except Exception as e] clause of the retry loop; [None] lets the
    loop go on with the next attempt. An exception raised inside the clause
    leaves the loop and the invocation. *)
Definition on_error (max_retries : Z) (retry_delay : float) (attempt : nat)
  (e : exn) : Inv (option LLMResult) :=
  if is_credit_error e || (Z.of_nat attempt >=? max_retries)%Z then
    st <- get ;;
    if negb (using_fallback (fst st)) && is_some (fallback_llm (fst st)) then
      modify (fun st =>
        (set_fallback true
           (Some (if is_credit_error e then credit_exhausted
                  else max_retries_exceeded)) (fst st), snd st)) ;;
      try (response <- call_fallback ;; ret (Some response))
      except fallback_error => raise fallback_error
    else
      raise e
  else if is_rate_limit e && (Z.of_nat attempt <? max_retries)%Z then
    wait_time <- lift (exponential_backoff retry_delay attempt) ;;
    sleep wait_time ;;
    ret None
  else if (Z.of_nat attempt <? max_retries)%Z then
    sleep retry_delay ;;
    ret None
  else
    ret None.

(** The call of the [try] block: the fallback client when
    [self.using_fallback], the primary client otherwise. *)
Definition call_active : Inv LLMResult :=
  st <- get ;;
  if using_fallback (fst st) then call_fallback else call_primary.

(** The body of [for attempt in range(max_retries + 1)]. *)
Definition attempt_body (max_retries : Z) (retry_delay : float)
  (attempt : nat) : Inv (option LLMResult) :=
  try (response <- call_active ;; ret (Some response))
  except e => on_error max_retries retry_delay attempt e.

Definition all_attempts_failed (self : FallbackLLM) : exn :=
  mk_exn "Exception" ("All attempts failed for " ++ agent_name self).

(** The loop with [n] iterations left, the next one numbered [attempt]. *)
Fixpoint retry_loop (max_retries : Z) (retry_delay : float)
  (n attempt : nat) : Inv LLMResult :=
  match n with
  | O => st <- get ;; raise (all_attempts_failed (fst st))
  | S n' =>
      r <- attempt_body max_retries retry_delay attempt ;;
      match r with
      | Some response => ret response
      | None => retry_loop max_retries retry_delay n' (S attempt)
      end
  end.

(** [FallbackLLM.agenerate] *)
Definition agenerate (c : ConfigLoader) : Inv LLMResult :=
  if negb (is_fallback_enabled c) then call_primary
  else
    st <- get ;;
    let max_retries := get_or (max_retries (fallback_settings (fst st))) 2%Z in
    let retry_delay := get_or (retry_delay (fallback_settings (fst st))) f1_0 in
    retry_loop max_retries retry_delay (Z.to_nat (max_retries + 1)) 0.

(** The dictionary built by [get_status]. *)
Record Status := {
  status_agent_name : string;
  status_agent_type : string;
  status_using_fallback : bool;
  status_fallback_reason : option string;
  status_primary_model : string;
  status_fallback_model : option string;
  status_fallback_enabled : bool
}.

Definition get_status (c : ConfigLoader) (self : FallbackLLM) : Status :=
  {| status_agent_name := agent_name self;
     status_agent_type := agent_type self;
     status_using_fallback := using_fallback self;
     status_fallback_reason := fallback_reason self;
     status_primary_model := model_name (model (primary_config self));
     status_fallback_model :=
       if is_some (fallback_llm self)
       then Some (model_name (model (fallback_config self))) else None;
     status_fallback_enabled := is_fallback_enabled c |}.

Definition reset_fallback (self : FallbackLLM) : FallbackLLM :=
  if using_fallback self then set_fallback false None self else self.

Definition force_fallback (reason : string) (self : FallbackLLM) : FallbackLLM :=
  if is_some (fallback_llm self) && negb (using_fallback self)
  then set_fallback true (Some reason) self else self.

Definition get_current_model (self : FallbackLLM) : string :=
  if using_fallback self then model_name (model (fallback_config self))
  else model_name (model (primary_config self)).

(** The invariant of the data model: in the fallback state a reason is
    recorded and a secondary client exists. *)
Definition fallback_invariant (self : FallbackLLM) : Prop :=
  using_fallback self = true ->
  fallback_reason self <> None /\ fallback_llm self <> None.

Definition should_notify_fallback (self : FallbackLLM) : bool :=
  using_fallback self &&
  get_or (fallback_notification (fallback_settings self)) true.

(** *** [FallbackManager]

    The manager holds references: invokers live in a store of objects and
    the manager maps a name to the address of an invoker. *)

Definition store := nat -> FallbackLLM.

Definition update (h : store) (a : nat) (v : FallbackLLM) : store :=
  fun a' => if Nat.eqb a' a then v else h a'.

Record FallbackManager := { agents : Dict.dict nat }.

Definition new_manager : FallbackManager := {| agents := Dict.empty |}.

Definition register_agent (name : string) (a : nat) (self : FallbackManager)
  : FallbackManager :=
  {| agents := Dict.set name a (agents self) |}.

Record SystemStatus := {
  total_agents : nat;
  agents_using_fallback : nat;
  agents_status : Dict.dict Status
}.

(** One turn of the loop of [get_system_status]. *)
Definition add_status (c : ConfigLoader) (h : store) (status : SystemStatus)
  (item : string * nat) : SystemStatus :=
  let agent_status := get_status c (h (snd item)) in
  {| total_agents := total_agents status;
     agents_using_fallback :=
       if status_using_fallback agent_status
       then agents_using_fallback status + 1
       else agents_using_fallback status;
     agents_status :=
       Dict.set (fst item) agent_status (agents_status status) |}.

Definition get_system_status (c : ConfigLoader) (h : store)
  (self : FallbackManager) : SystemStatus :=
  fold_left (add_status c h) (Dict.items (agents self))
    {| total_agents := Dict.len (agents self);
       agents_using_fallback := 0;
       agents_status := Dict.empty |}.

Definition reset_all_fallbacks (h : store) (self : FallbackManager) : store :=
  fold_left (fun h a => update h a (reset_fallback (h a)))
            (Dict.values (agents self)) h.

Definition force_all_fallbacks (reason : string) (h : store)
  (self : FallbackManager) : store :=
  fold_left (fun h a => update h a (force_fallback reason (h a)))
            (Dict.values (agents self)) h.

End fallback_llm.

(** ** [agents/base.py] *)

Module base.

Inductive LLMTier := UTILITY | CHAT | PREMIUM | SPECIALIZED.

Record AgentCapability := {
  cap_name : string;
  cap_description : string;
  keywords : list string;
  confidence_threshold : float
}.

Record AgentConfig := {
  name : string;
  description : string;
  llm_tier : LLMTier;
  system_prompt : string;
  capabilities : list AgentCapability;
  max_tokens : Z;
  temperature : float
}.

Inductive BaseMessage :=
| SystemMessage (content : string)
| HumanMessage (content : string)
| AIMessage (content : string).

Record BaseAgent := {
  config : AgentConfig;
  agent_name : string;
  agent_type : string;
  llm : fallback_llm.FallbackLLM;
  conversation_history : list BaseMessage
}.

(** [sum(1 for keyword in capability.keywords
          if keyword.lower() in message_lower)] *)
Definition keyword_matches (capability : AgentCapability)
  (message_lower : string) : nat :=
  List.length
    (filter (fun keyword => contains (lower keyword) message_lower)
            (keywords capability)).

(** One turn of the loop over the capabilities. *)
Definition add_capability (message_lower : string) (total_score : float)
  (capability : AgentCapability) : float :=
  let matches := keyword_matches capability message_lower in
  if (0 <? matches)%nat then
    let capability_score :=
      py_min (fmul (of_int (Z.of_nat matches)) f0_3) f1_0 in
    fadd total_score capability_score
  else total_score.

(** [BaseAgent.can_handle] *)
Definition can_handle (self : BaseAgent) (message : string) : float :=
  let message_lower := lower message in
  let total_score :=
    fold_left (add_capability message_lower)
              (capabilities (config self)) f0_0 in
  py_min total_score f1_0.

(** [l[start:]] for a Python integer [start]. *)
Definition slice_from {A} (start : Z) (l : list A) : list A :=
  if (start <? 0)%Z
  then skipn (Z.to_nat (Z.max 0 (Z.of_nat (List.length l) + start))) l
  else skipn (Z.to_nat start) l.

Definition set_history (h : list BaseMessage) (self : BaseAgent) : BaseAgent :=
  {| config := config self;
     agent_name := agent_name self;
     agent_type := agent_type self;
     llm := llm self;
     conversation_history := h |}.

Definition set_llm (l : fallback_llm.FallbackLLM) (self : BaseAgent)
  : BaseAgent :=
  {| config := config self;
     agent_name := agent_name self;
     agent_type := agent_type self;
     llm := l;
     conversation_history := conversation_history self |}.

(** [BaseAgent.add_to_history] *)
Definition add_to_history (c : config_loader.ConfigLoader)
  (human_msg ai_msg : string) (self : BaseAgent) : BaseAgent :=
  let h := (conversation_history self
              ++ [HumanMessage human_msg; AIMessage ai_msg])%list in
  let max_history :=
    config_loader.max_conversation_history
      (config_loader.get_system_config c) in
  if (max_history <? Z.of_nat (List.length h))%Z
  then set_history (slice_from (- max_history) h) self
  else set_history h self.

Definition get_capabilities (self : BaseAgent) : list AgentCapability :=
  capabilities (config self).

End base.

(** ** [agents/registry.py] *)

Module registry.
Import base.

Record AgentRegistry := {
  agents : Dict.dict BaseAgent;
  fallback_agent : option BaseAgent
}.

Definition new_registry : AgentRegistry :=
  {| agents := Dict.empty; fallback_agent := None |}.

Definition register_agent (agent : BaseAgent) (is_fallback : bool)
  (self : AgentRegistry) : AgentRegistry :=
  {| agents := Dict.set (name (config agent)) agent (agents self);
     fallback_agent := if is_fallback then Some agent else fallback_agent self |}.

(** One turn of the loop of [find_best_agent] on the pair
    [(best_agent, best_score)]. *)
Definition better (message : string) (best : option BaseAgent * float)
  (agent : BaseAgent) : option BaseAgent * float :=
  let score := can_handle agent message in
  if flt (snd best) score then (Some agent, score) else best.

(** [AgentRegistry.find_best_agent] *)
Definition find_best_agent (self : AgentRegistry) (message : string)
  : option BaseAgent * float :=
  let best := fold_left (better message) (Dict.values (agents self))
                        (None, f0_0) in
  if flt (snd best) f0_3 && is_some (fallback_agent self)
  then (fallback_agent self, f0_5)
  else (match fst best with
        | Some a => Some a
        | None => fallback_agent self
        end, snd best).

Definition get_agent_by_name (self : AgentRegistry) (n : string)
  : option BaseAgent :=
  Dict.get n (agents self).

Definition get_capabilities_summary (self : AgentRegistry)
  : Dict.dict (list string) :=
  fold_left
    (fun summary agent =>
       Dict.set (name (config agent))
                (List.concat (map keywords (get_capabilities agent))) summary)
    (Dict.values (agents self)) Dict.empty.

End registry.

(** ** [agents/orchestrator.py] *)

Module orchestrator.
Import base registry.

(** The router runs on itself (a [BaseAgent]) and the environment of its
    own invoker. *)
Definition Router := M (BaseAgent * fallback_llm.World).

(** [await self.llm.agenerate([messages])] *)
Definition llm_agenerate (c : config_loader.ConfigLoader)
  : Router fallback_llm.LLMResult :=
  fun st =>
    match fallback_llm.agenerate c (llm (fst st), snd st) with
    | (r, (l', w')) => (r, (set_llm l' (fst st), w'))
    end.

Definition index_error : exn := mk_exn "IndexError" "list index out of range".

(** [response.generations[0][0].text] *)
Definition first_text (response : fallback_llm.LLMResult) : Router string :=
  match fallback_llm.generations response with
  | (text :: _) :: _ => ret text
  | _ => raise index_error
  end.

Definition apology : string :=
  "I apologize, but I'm having trouble processing your request right now. Please try again.".

(** [OrchestratorAgent._handle_directly]. The conversation sent to the
    backend is built without effects and the backend answers as it likes,
    so the message list is left out. *)
Definition _handle_directly (c : config_loader.ConfigLoader)
  (message : string) : Router string :=
  try (response <- llm_agenerate c ;;
       text <- first_text response ;;
       let ai_response := strip text in
       modify (fun st => (add_to_history c message ai_response (fst st),
                          snd st)) ;;
       ret ai_response)
  except e => ret apology.

(** [agent_config.routing_confidence_threshold or 0.4] *)
Definition routing_threshold (c : config_loader.ConfigLoader) : float :=
  match config_loader.routing_confidence_threshold
          (config_loader.get_agent_config c "main" "main") with
  | Some t => if truthy t then t else f0_4
  | None => f0_4
  end.

Definition newline : string := String (ascii_of_nat 10) EmptyString.

Definition routed (agent : BaseAgent) (response : string) : string :=
  "[Routed to " ++ name (config agent) ++ "]" ++ newline ++ newline
    ++ response.

(** The result of [best_agent.process(message, context)], a method of
    another responder, comes from the environment. *)
Definition lift_outcome {A} (o : outcome A) : Router A := fun st => (o, st).

(** [OrchestratorAgent.process] *)
Definition process (c : config_loader.ConfigLoader) (reg : AgentRegistry)
  (delegate : BaseAgent -> string -> outcome string) (message : string)
  : Router string :=
  let found := find_best_agent reg message in
  let confidence := snd found in
  match fst found with
  | Some best_agent =>
      if negb (String.eqb (name (config best_agent)) "orchestrator")
         && flt (routing_threshold c) confidence
      then
        try (response <- lift_outcome (delegate best_agent message) ;;
             let routed_response := routed best_agent response in
             modify (fun st => (add_to_history c message routed_response
                                  (fst st), snd st)) ;;
             ret routed_response)
        except e => _handle_directly c message
      else _handle_directly c message
  | None => _handle_directly c message
  end.

End orchestrator.

(** ** A sample system, used to run the model *)

Module sample.
Import config_loader fallback_llm base registry.

Definition model_config (n : string) : config_loader.AgentConfig :=
  {| model := {| model_name := n;
                 config_loader.temperature := f0_5;
                 config_loader.max_tokens := 1000 |};
     routing_confidence_threshold := None |}.

(** The default fallback settings of [get_fallback_config]. *)
Definition settings : FallbackSettings :=
  {| enabled := Some true;
     max_retries := Some 2%Z;
     retry_delay := Some f1_0;
     fallback_notification := Some true |}.

Definition cfg : ConfigLoader :=
  {| get_agent_config := fun _ _ => model_config "openai/gpt-4";
     get_fallback_agent_config :=
       fun _ _ => model_config "meta-llama/llama-3.2-3b-instruct:free";
     get_fallback_config := settings;
     get_system_config := {| max_conversation_history := 20 |} |}.

(** The same configuration with the fallback subsystem switched off. *)
Definition cfg_disabled : ConfigLoader :=
  {| get_agent_config := get_agent_config cfg;
     get_fallback_agent_config := get_fallback_agent_config cfg;
     get_fallback_config :=
       {| enabled := Some false;
          max_retries := Some 2%Z;
          retry_delay := Some f1_0;
          fallback_notification := Some true |};
     get_system_config := get_system_config cfg |}.

(** The same configuration with 1025 retries and no delay. *)
Definition cfg_patient : ConfigLoader :=
  {| get_agent_config := get_agent_config cfg;
     get_fallback_agent_config := get_fallback_agent_config cfg;
     get_fallback_config :=
       {| enabled := Some true;
          max_retries := Some 1025%Z;
          retry_delay := Some f0_0;
          fallback_notification := Some true |};
     get_system_config := get_system_config cfg |}.

Definition responder (n type : string) (kws : list string) : BaseAgent :=
  {| config := {| name := n;
                  description := "";
                  llm_tier := UTILITY;
                  system_prompt := "";
                  capabilities :=
                    [ {| cap_name := n; cap_description := "";
                         keywords := kws; confidence_threshold := f0_5 |} ];
                  base.max_tokens := 1000;
                  base.temperature := f0_5 |};
     base.agent_name := n;
     base.agent_type := type;
     llm := init cfg n type;
     conversation_history := [] |}.

Definition coding : BaseAgent :=
  responder "coding" "personas" ["bug"; "function"; "debug"].

Definition general : BaseAgent :=
  responder "general" "personas" ["hello"; "help"; "general"].

Definition router : BaseAgent :=
  responder "orchestrator" "main"
    ["help"; "question"; "need"; "want"; "how"; "what"; "why"].

(** [coding] registered, then [general] registered as the default. *)
Definition reg : AgentRegistry :=
  register_agent general true (register_agent coding false new_registry).

Definition reply (text : string) : outcome LLMResult :=
  Return {| generations := [[text]] |}.

Definition failure (msg : string) : outcome LLMResult :=
  Raise (mk_exn "Exception" msg).

(** An environment where each client always answers the same. *)
Definition world (primary fallback : outcome LLMResult) : World :=
  {| backend := fun role _ =>
       match role with Primary => primary | Fallback => fallback end;
     calls := 0;
     trace := [] |}.

(** The invoker of the router and two ways it can fail. *)
Definition invoker : FallbackLLM := init cfg "main" "main".

(** An invoker built under the patient configuration. *)
Definition patient : FallbackLLM := init cfg_patient "main" "main".

Definition credit_error : exn := mk_exn "Exception" "Insufficient credits".

Definition rate_limit_error : exn :=
  mk_exn "Exception" "Rate limit reached for requests".

Definition too_many_error : exn :=
  mk_exn "Exception" "Error code: 429 - Too Many Requests".

Definition timeout_error : exn := mk_exn "Exception" "Connection timed out".

(** Two invokers in a store, registered under their names. *)
Definition heap : store :=
  fun a => if Nat.eqb a 0 then init cfg "coding" "personas"
           else init cfg "general" "personas".

Definition manager : FallbackManager :=
  fallback_llm.register_agent "general" 1
    (fallback_llm.register_agent "coding" 0 new_manager).

(** The store after [force_fallback("manual_override")] on the second
    invoker. *)
Definition forced_heap : store :=
  update heap 1%nat (force_fallback "manual_override" (heap 1%nat)).

(** The invoker of the router, forced to the fallback state. *)
Definition forced : FallbackLLM := force_fallback "manual_override" invoker.

(** An environment that answers the successive calls from a script,
    whatever the client, and then always fails. *)
Definition scripted (script : list (outcome LLMResult)) : World :=
  {| backend := fun _ n => nth n script (Raise timeout_error);
     calls := 0;
     trace := [] |}.

(** A responder whose [process] always raises. *)
Definition failing_delegate : BaseAgent -> string -> outcome string :=
  fun _ _ => Raise timeout_error.

End sample.

(** ** Reading the trace of an invoker *)

Module observe.
Import fallback_llm.

Definition is_sleep (ev : event) : bool :=
  match ev with
  | Sleep _ => true
  | Call _ => false
  end.

(** The number of sleeps an environment has recorded. *)
Definition sleeps (w : World) : nat := List.length (filter is_sleep (trace w)).

(** The client the call of a turn goes to. *)
Definition active_role (self : FallbackLLM) : llm_role :=
  if using_fallback self then Fallback else Primary.

(** A retry policy whose sleeps all have a finite time: no attempt with
    one left reaches the power of two that does not convert to a float,
    and neither the delay nor any of its multiples is infinite or a NaN. *)
Definition finite_sleeps (max_retries : Z) (retry_delay : float) : Prop :=
  (max_retries <= 1024)%Z /\
  is_finite retry_delay = true /\
  forall attempt, (Z.of_nat attempt < max_retries)%Z ->
    is_finite (fmul retry_delay (of_int (2 ^ Z.of_nat attempt))) = true.

End observe.

(** ** More Python strings *)

Module PyStr2.

(** [s.startswith(p)] *)
Definition startswith (p s : string) : bool := prefix p s.

(** [s.split(sep)[0]] for a separator of one character: what comes before
    the first separator, or all of [s]. *)
Fixpoint before (sep : ascii) (s : string) : string :=
  match s with
  | EmptyString => EmptyString
  | String c t => if Ascii.eqb c sep then EmptyString
                  else String c (before sep t)
  end.

(** [s.replace(old, new)] for a non-empty [old], with [skip] characters of
    a match still to pass over: the matches are taken from left to right
    and do not overlap. *)
Fixpoint replace_from (old new : string) (skip : nat) (s : string) : string :=
  match s with
  | EmptyString => EmptyString
  | String c t =>
      match skip with
      | S k => replace_from old new k t
      | O =>
          if prefix old s
          then new ++ replace_from old new (String.length old - 1) t
          else String c (replace_from old new 0 t)
      end
  end.

Definition replace (old new s : string) : string := replace_from old new 0 s.

End PyStr2.

(** ** [main.py]: the attribution of a reply *)

Module main.
Import PyStr2.

Definition routed_marker : string := "[Routed to ".

(** The value of [agent_used] in [chat]. *)
Definition agent_used (reply : string) : string :=
  if startswith routed_marker reply
  then replace routed_marker "" (before "]"%char reply)
  else "orchestrator".

End main.

(** ** [assistants/coding_assistant.py], [assistants/general_assistant.py] *)

Module assistants.
Import base orchestrator.

Definition coding_apology : string :=
  "I apologize, but I encountered an error while processing your coding request: ".

Definition general_apology : string :=
  "I apologize, but I encountered an error while processing your request: ".

(** The [process] method the two assistants share, up to the text put
    before [str(e)]. The conversation sent to the backend is left out, as
    for the router. *)
Definition assistant_process (apology_prefix : string)
  (c : config_loader.ConfigLoader) (message : string) : Router string :=
  try (response <- llm_agenerate c ;;
       text <- first_text response ;;
       let ai_response := strip text in
       modify (fun st => (add_to_history c message ai_response (fst st),
                          snd st)) ;;
       ret ai_response)
  except e => ret (apology_prefix ++ exn_msg e).

(** [CodingAssistant.process] *)
Definition coding_process := assistant_process coding_apology.

(** [GeneralAssistant.process] *)
Definition general_process := assistant_process general_apology.

End assistants.

(** ** [agents/top_level_orchestrator.py] *)

Module top_level_orchestrator.
Import base orchestrator.

(** The top-level orchestrator: a responder and its personas, each persona
    given by what its [process] answers to a message. *)
Definition personas_dict := Dict.dict (string -> outcome string).

(** [key in d] *)
Definition has_key {V} (k : string) (d : Dict.dict V) : bool :=
  is_some (Dict.get k d).

(** [register_persona] *)
Definition register_persona (persona_name : string)
  (persona_instance : string -> outcome string) (personas : personas_dict)
  : personas_dict :=
  Dict.set persona_name persona_instance personas.

(** [_select_persona]; [available] is [config_loader.list_personas()],
    read inside the [try] block. *)
Definition _select_persona (c : config_loader.ConfigLoader)
  (available : list string) (message : string) : Router string :=
  try (response <- llm_agenerate c ;;
       text <- first_text response ;;
       let selected_persona := lower (strip text) in
       if existsb (String.eqb selected_persona) available
       then ret selected_persona
       else ret "main")
  except e => ret "main".

(** [TopLevelOrchestrator._handle_directly] *)
Definition _handle_directly (c : config_loader.ConfigLoader)
  (message : string) : Router string :=
  try (response <- llm_agenerate c ;;
       text <- first_text response ;;
       let ai_response := strip text in
       modify (fun st => (add_to_history c message ai_response (fst st),
                          snd st)) ;;
       ret ai_response)
  except e => ret apology.

Definition routed (persona response : string) : string :=
  "[Routed to " ++ persona ++ " persona]" ++ newline ++ newline ++ response.

(** [TopLevelOrchestrator.process] *)
Definition process (c : config_loader.ConfigLoader) (available : list string)
  (personas : personas_dict) (message : string) : Router string :=
  best_persona <- _select_persona c available message ;;
  if negb (String.eqb best_persona "") && has_key best_persona personas then
    try (response <-
           match Dict.get best_persona personas with
           | Some persona => lift_outcome (persona message)
           | None => raise (mk_exn "KeyError" best_persona)
           end ;;
         let routed_response := routed best_persona response in
         modify (fun st => (add_to_history c message routed_response (fst st),
                            snd st)) ;;
         ret routed_response)
    except e => _handle_directly c message
  else _handle_directly c message.

End top_level_orchestrator.

(** ** More samples *)

Module sample2.
Import fallback_llm base.

(** The top-level orchestrator as a responder. *)
Definition top_level : BaseAgent :=
  sample.responder "top_level_orchestrator" "personas"
    ["help"; "question"; "need"; "want"; "how"; "what"; "why"].

Definition available : list string :=
  ["main"; "developer"; "researcher"; "creative"; "business"].

Definition personas : top_level_orchestrator.personas_dict :=
  top_level_orchestrator.register_persona "developer"
    (fun _ => Return "Use a loop.")
    (top_level_orchestrator.register_persona "main"
       (fun _ => Return "Hello.") Dict.empty).

(** A history of four messages. *)
Definition talkative : BaseAgent :=
  set_history [ HumanMessage "a"; AIMessage "b";
                HumanMessage "c"; AIMessage "d" ] sample.coding.

Definition cfg_history (bound : Z) : config_loader.ConfigLoader :=
  {| config_loader.get_agent_config :=
       config_loader.get_agent_config sample.cfg;
     config_loader.get_fallback_agent_config :=
       config_loader.get_fallback_agent_config sample.cfg;
     config_loader.get_fallback_config :=
       config_loader.get_fallback_config sample.cfg;
     config_loader.get_system_config :=
       {| config_loader.max_conversation_history := bound |} |}.

(** An invoker with the given retry budget, and one without a secondary
    client. *)
Definition with_retries (n : Z) (self : FallbackLLM) : FallbackLLM :=
  {| fallback_llm.agent_name := fallback_llm.agent_name self;
     fallback_llm.agent_type := fallback_llm.agent_type self;
     primary_config := primary_config self;
     fallback_config := fallback_config self;
     fallback_settings :=
       {| config_loader.enabled := Some true;
          config_loader.max_retries := Some n;
          config_loader.retry_delay := Some f1_0;
          config_loader.fallback_notification := Some true |};
     primary_llm := primary_llm self;
     fallback_llm := fallback_llm self;
     using_fallback := using_fallback self;
     fallback_reason := fallback_reason self |}.

Definition lonely : FallbackLLM := init sample.cfg_disabled "main" "main".

End sample2.

(** ** [config/config_loader.py] on the loaded YAML document

    The document is a tree of Python values; the keys of its mappings are
    strings. A method called on a value that has not got it raises
    [AttributeError], as in Python. *)

Module yaml_loader.

#[local] Unset Elimination Schemes.

Inductive yaml :=
| YNone
| YBool (b : bool)
| YInt (n : Z)
| YFloat (x : float)
| YStr (s : string)
| YList (l : list yaml)
| YDict (d : list (string * yaml)).

#[local] Set Elimination Schemes.

Definition type_name (v : yaml) : string :=
  match v with
  | YNone => "NoneType"
  | YBool _ => "bool"
  | YInt _ => "int"
  | YFloat _ => "float"
  | YStr _ => "str"
  | YList _ => "list"
  | YDict _ => "dict"
  end.

Definition no_get (v : yaml) : exn :=
  mk_exn "AttributeError"
    ("'" ++ type_name v ++ "' object has no attribute 'get'").

Definition unhashable (v : yaml) : exn :=
  mk_exn "TypeError" ("unhashable type: '" ++ type_name v ++ "'").

(** [{}] *)
Definition empty : yaml := YDict [].

(** [v.get(key, default)] for a string key. *)
Definition get (v : yaml) (key : string) (default : yaml) : outcome yaml :=
  match v with
  | YDict d => Return match Dict.get key d with
                      | Some x => x
                      | None => default
                      end
  | _ => Raise (no_get v)
  end.

(** [v.get(key, default)] for a key read from the document: a string is
    looked up, a list or a mapping cannot be a key, and another value is
    not a key of the mapping. *)
Definition get_by (v key default : yaml) : outcome yaml :=
  match v with
  | YDict d =>
      match key with
      | YStr s => get v s default
      | YList _ | YDict _ => Raise (unhashable key)
      | _ => Return default
      end
  | _ => Raise (no_get v)
  end.

(** [isinstance(v, dict) and 'model' in v], with [v['model']]. *)
Definition model_of (v : yaml) : option yaml :=
  match v with
  | YDict d => Dict.get "model" d
  | _ => None
  end.

(** Truth value. *)
Definition truthy (v : yaml) : bool :=
  match v with
  | YNone => false
  | YBool b => b
  | YInt n => negb (n =? 0)%Z
  | YFloat x => PyFloat.truthy x
  | YStr s => negb (String.eqb s "")
  | YList l => match l with [] => false | _ => true end
  | YDict d => match d with [] => false | _ => true end
  end.

Definition and_then {A B} (o : outcome A) (k : A -> outcome B) : outcome B :=
  match o with
  | Return a => k a
  | Raise e => Raise e
  end.

Notation "x <~ o ;; k" := (and_then o (fun x => k))
  (at level 61, o at next level, right associativity).

Definition default_model : yaml := YStr "openai/gpt-4".
Definition default_fallback_model : yaml :=
  YStr "meta-llama/llama-3.2-3b-instruct:free".

Definition f0_7 : float := S754_finite false 6305039478318694 (-53).

(** [self._config.get('models', {}).get(section, {})] *)
Definition models_section (cfg : yaml) (section : string) : outcome yaml :=
  models <~ get cfg "models" empty ;;
  get models section empty.

(** [get_model_for_agent] *)
Definition get_model_for_agent (cfg : yaml) (agent_name agent_type : string)
  : outcome yaml :=
  first <~ (if String.eqb agent_name "main" || String.eqb agent_type "main"
            then main_config <~ models_section cfg "main" ;;
                 Return (model_of main_config)
            else Return None) ;;
  match first with
  | Some model => Return model
  | None =>
  second <~ (if String.eqb agent_type "personas"
             then personas <~ models_section cfg "personas" ;;
                  agent_config <~ get personas agent_name empty ;;
                  Return (model_of agent_config)
             else Return None) ;;
  match second with
  | Some model => Return model
  | None =>
  third <~ (if String.eqb agent_type "universal"
            then universal <~ models_section cfg "universal" ;;
                 agent_config <~ get universal agent_name empty ;;
                 Return (model_of agent_config)
            else Return None) ;;
  match third with
  | Some model => Return model
  | None =>
  main_config <~ models_section cfg "main" ;;
  match model_of main_config with
  | Some model => Return model
  | None => Return default_model
  end
  end end end.

(** The default of [get_fallback_config]. *)
Definition default_fallback_config : yaml :=
  YDict [ ("enabled", YBool true);
          ("max_retries", YInt 2);
          ("retry_delay", YFloat f1_0);
          ("fallback_notification", YBool true) ].

(** [get_fallback_config] *)
Definition get_fallback_config (cfg : yaml) : outcome yaml :=
  agents <~ get cfg "agents" empty ;;
  get agents "fallback" default_fallback_config.

(** [is_fallback_enabled] *)
Definition is_fallback_enabled (cfg : yaml) : outcome yaml :=
  fallback_config <~ get_fallback_config cfg ;;
  get fallback_config "enabled" (YBool true).

(** The name of the fallback of an agent in the mapping, with the default
    [absent] of the lookups: [None] in [get_fallback_model_for_agent] and
    "main_fallback" in [get_fallback_agent_config]. *)
Definition mapped_fallback (mapping : yaml) (agent_name agent_type : string)
  (absent : yaml) : outcome yaml :=
  if String.eqb agent_type "main" || String.eqb agent_name "main" then
    get mapping "main" absent
  else if String.eqb agent_type "personas" then
    type_mapping <~ get mapping "personas" empty ;;
    get type_mapping agent_name absent
  else if String.eqb agent_type "universal" then
    type_mapping <~ get mapping "universal" empty ;;
    get type_mapping agent_name absent
  else Return YNone.

(** [get_fallback_model_for_agent] *)
Definition get_fallback_model_for_agent (cfg : yaml)
  (agent_name agent_type : string) : outcome yaml :=
  fallback_config <~ get_fallback_config cfg ;;
  mapping <~ get fallback_config "mapping" empty ;;
  found <~ mapped_fallback mapping agent_name agent_type YNone ;;
  let fallback_name := if truthy found then found else YStr "main_fallback" in
  fallback_models <~ models_section cfg "fallbacks" ;;
  entry <~ get_by fallback_models fallback_name empty ;;
  match model_of entry with
  | Some model => Return model
  | None => Return default_fallback_model
  end.

(** The [ModelConfig] built by the two [get_*_agent_config] methods. *)
Record ModelConfig := {
  model_name : yaml;
  temperature : yaml;
  max_tokens : yaml
}.

(** [get_fallback_agent_config], its [model] field. *)
Definition get_fallback_agent_config (cfg : yaml)
  (agent_name agent_type : string) : outcome ModelConfig :=
  fallback_config <~ get_fallback_config cfg ;;
  mapping <~ get fallback_config "mapping" empty ;;
  fallback_name <~
    mapped_fallback mapping agent_name agent_type (YStr "main_fallback") ;;
  fallback_models <~ models_section cfg "fallbacks" ;;
  fallback_model_config <~ get_by fallback_models fallback_name empty ;;
  model <~ get fallback_model_config "model" default_fallback_model ;;
  temp <~ get fallback_model_config "temperature" (YFloat f0_7) ;;
  tokens <~ get fallback_model_config "max_tokens" (YInt 1000) ;;
  Return {| model_name := model; temperature := temp; max_tokens := tokens |}.

End yaml_loader.

(** A sample document. *)

Module sample3.
Import yaml_loader.

Definition persona_models : list (string * yaml) :=
  [ ("developer", YDict [("model", YStr "openai/o3")]);
    ("main", YDict [("model", YStr "openai/o1")]) ].

Definition model_sections : list (string * yaml) :=
  [ ("main", YDict [("model", YStr "openai/gpt-4o")]);
    ("personas", YDict persona_models);
    ("fallbacks",
     YDict [("main_fallback", YDict [("model", YStr "free/general")]);
            ("dev_fallback", YDict [("model", YStr "free/coder")])]) ].

Definition fallback_section : list (string * yaml) :=
  [ ("max_retries", YInt 5);
    ("mapping",
     YDict [("main", YStr "main_fallback");
            ("personas", YDict [("developer", YStr "dev_fallback")])]) ].

Definition sections : list (string * yaml) :=
  [ ("models", YDict model_sections);
    ("agents", YDict [("fallback", YDict fallback_section)]) ].

Definition document : yaml := YDict sections.

End sample3.

(** * Properties *)

Import config_loader fallback_llm base registry orchestrator.

(** ** Strings *)

Lemma prefix_app (n post : string) : prefix n (n ++ post) = true.
Proof.
  induction n as [|c n IH]; simpl.
  - destruct post; reflexivity.
  - destruct (ascii_dec c c) as [_|ne]; [exact IH | now elim ne].
Qed.

Lemma prefix_split (n h : string) :
  prefix n h = true -> exists post, h = n ++ post.
Proof.
  revert h. induction n as [|c n IH]; intros h H.
  - exists h. reflexivity.
  - destruct h as [|d h]; simpl in H; [discriminate|].
    destruct (ascii_dec c d) as [->|]; [|discriminate].
    destruct (IH h H) as [post ->]. exists post. reflexivity.
Qed.

Lemma contains_split (n h : string) :
  contains n h = true -> exists pre post, h = pre ++ n ++ post.
Proof.
  induction h as [|d h IH]; intros H.
  - destruct n; [exists "", ""; reflexivity | discriminate].
  - change (prefix n (String d h) || contains n h = true) in H.
    apply orb_true_iff in H. destruct H as [H|H].
    + destruct (prefix_split _ _ H) as [post E]. exists "", post. exact E.
    + destruct (IH H) as (pre & post & ->).
      exists (String d pre), post. reflexivity.
Qed.

Lemma contains_join (pre n post : string) :
  contains n (pre ++ n ++ post) = true.
Proof.
  induction pre as [|d pre IH].
  - change ("" ++ n ++ post) with (n ++ post).
    destruct (n ++ post) eqn:E; unfold contains; fold contains;
      rewrite <- E, prefix_app; reflexivity.
  - change (prefix n (String d (pre ++ n ++ post))
            || contains n (pre ++ n ++ post) = true).
    rewrite IH. apply orb_true_r.
Qed.

Lemma append_assoc (a b c : string) : (a ++ b) ++ c = a ++ b ++ c.
Proof. induction a as [|x a IH]; simpl; [|rewrite IH]; reflexivity. Qed.

(** A string that contains [a ++ b] contains [b]. *)
Lemma contains_suffix (a b h : string) :
  contains (a ++ b) h = true -> contains b h = true.
Proof.
  intros H. destruct (contains_split _ _ H) as (pre & post & ->).
  rewrite append_assoc, <- (append_assoc pre a). apply contains_join.
Qed.

Lemma lower_app (a b : string) : lower (a ++ b) = lower a ++ lower b.
Proof. induction a as [|c a IH]; simpl; [|rewrite IH]; reflexivity. Qed.

(** Lower-casing keeps substrings: a keyword written in lower case that
    occurs in a message occurs in the lower-cased message. *)
Lemma contains_lower (n h : string) :
  contains n h = true -> contains (lower n) (lower h) = true.
Proof.
  intros H. destruct (contains_split _ _ H) as (pre & post & ->).
  rewrite !lower_app. apply contains_join.
Qed.

(** ** Floats *)

Lemma shr_1_nonneg (mrs : shr_record) :
  (0 <= shr_m mrs)%Z -> (0 <= shr_m (shr_1 mrs))%Z.
Proof.
  destruct mrs as [m r s]. destruct m as [|[p|p|]|p]; simpl; lia.
Qed.

Lemma iter_shr_1_nonneg (p : positive) (mrs : shr_record) :
  (0 <= shr_m mrs)%Z -> (0 <= shr_m (iter_pos shr_1 p mrs))%Z.
Proof.
  revert mrs. induction p as [p IH|p IH|]; intros mrs H; simpl.
  - apply IH, IH, shr_1_nonneg, H.
  - apply IH, IH, H.
  - apply shr_1_nonneg, H.
Qed.

Lemma shr_fexp_nonneg (m e : Z) (l : location) :
  (0 <= m)%Z -> (0 <= shr_m (fst (shr_fexp prec emax m e l)))%Z.
Proof.
  intros H. unfold shr_fexp, shr.
  assert (H0 : (0 <= shr_m (shr_record_of_loc m l))%Z)
    by (destruct l as [|[]]; exact H).
  destruct (fexp prec emax (Zdigits2 m + e) - e)%Z; simpl; trivial.
  apply iter_shr_1_nonneg, H0.
Qed.

Lemma round_nearest_even_nonneg (m : Z) (l : location) :
  (0 <= m)%Z -> (0 <= round_nearest_even m l)%Z.
Proof.
  intros H. destruct l as [|[]]; simpl; try lia.
  destruct (Z.even m); lia.
Qed.

Lemma binary_round_aux_nonneg (mx ex : Z) (lx : location) :
  (0 <= mx)%Z -> nonneg (binary_round_aux prec emax false mx ex lx).
Proof.
  intros H. unfold binary_round_aux.
  pose proof (shr_fexp_nonneg mx ex lx H) as H1.
  destruct (shr_fexp prec emax mx ex lx) as [mrs' e']. simpl in H1.
  pose proof (shr_fexp_nonneg _ e' loc_Exact
                (round_nearest_even_nonneg _ (loc_of_shr_record mrs') H1)) as H2.
  destruct (shr_fexp prec emax _ e' loc_Exact) as [mrs'' e'']. simpl in H2.
  destruct (shr_m mrs'') as [|m|m]; simpl; trivial.
  - destruct (e'' <=? _)%Z; reflexivity.
  - lia.
Qed.

Lemma binary_round_nonneg (m : positive) (e : Z) :
  nonneg (binary_round prec emax false m e).
Proof.
  unfold binary_round. destruct (shl_align _ _ _) as [mz ez].
  apply binary_round_aux_nonneg. lia.
Qed.

Lemma of_int_nonneg (n : Z) : (0 <= n)%Z -> nonneg (of_int n).
Proof.
  intros H. unfold of_int, binary_normalize. destruct n as [|p|p].
  - reflexivity.
  - apply binary_round_nonneg.
  - lia.
Qed.

Lemma fadd_nonneg (x y : float) : nonneg x -> nonneg y -> nonneg (fadd x y).
Proof.
  destruct x as [sx|sx| |sx mx ex], y as [sy|sy| |sy my ey]; simpl;
    intros Hx Hy; subst; try contradiction; try reflexivity.
  unfold binary_normalize. simpl.
  apply binary_round_nonneg.
Qed.

(** The product of a non-negative float by a positive finite one. *)
Lemma fmul_nonneg_finite (x : float) (m : positive) (e : Z) :
  nonneg x -> nonneg (fmul x (S754_finite false m e)).
Proof.
  destruct x as [sx|sx| |sx mx ex]; simpl; intros Hx; subst;
    try contradiction; try reflexivity.
  apply binary_round_aux_nonneg. lia.
Qed.

Lemma compare_cont_opp (p q : positive) :
  Pos.compare_cont Eq q p = CompOpp (Pos.compare_cont Eq p q).
Proof. apply (Pos.compare_antisym p q). Qed.

(** On non-negative floats, [not (b < a)] gives [a <= b]. *)
Lemma not_flt_fle (a b : float) :
  nonneg a -> nonneg b -> flt b a = false -> fle a b = true.
Proof.
  unfold flt, fle, SFltb, SFleb.
  destruct a as [sa|sa| |sa ma ea], b as [sb|sb| |sb mb eb]; simpl;
    intros Ha Hb; subst; try contradiction; try reflexivity;
    try discriminate.
  rewrite (Z.compare_antisym ea eb), (compare_cont_opp ma mb).
  destruct (ea ?= eb)%Z; simpl; try discriminate; try reflexivity.
  destruct (Pos.compare_cont Eq ma mb); simpl; try discriminate; reflexivity.
Qed.

Lemma py_min_nonneg (a b : float) :
  nonneg a -> nonneg b -> nonneg (py_min a b).
Proof. intros Ha Hb. unfold py_min. destruct (flt b a); assumption. Qed.

Lemma fle_zero_nonneg (x : float) : nonneg x -> fle f0_0 x = true.
Proof.
  destruct x as [s|s| |s m e]; simpl; intros H; subst;
    try contradiction; reflexivity.
Qed.

(** [min(x, 1.0)] is at most [1.0]. *)
Lemma py_min_one_le (x : float) : nonneg x -> fle (py_min x f1_0) f1_0 = true.
Proof.
  intros H. unfold py_min. destruct (flt f1_0 x) eqn:E.
  - reflexivity.
  - apply not_flt_fle; [exact H | reflexivity | exact E].
Qed.

(** ** Capability scores *)

Lemma capability_score_nonneg (k : nat) :
  nonneg (py_min (fmul (of_int (Z.of_nat k)) f0_3) f1_0).
Proof.
  apply py_min_nonneg; [|reflexivity].
  apply fmul_nonneg_finite, of_int_nonneg. lia.
Qed.

Lemma add_capability_nonneg (ml : string) (total : float)
  (cap : AgentCapability) :
  nonneg total -> nonneg (add_capability ml total cap).
Proof.
  intros H. unfold add_capability.
  destruct (0 <? keyword_matches cap ml)%nat; [|exact H].
  apply fadd_nonneg; [exact H | apply capability_score_nonneg].
Qed.

Lemma total_score_nonneg (ml : string) (caps : list AgentCapability)
  (total : float) :
  nonneg total -> nonneg (fold_left (add_capability ml) caps total).
Proof.
  revert total. induction caps as [|cap caps IH]; intros total H; simpl.
  - exact H.
  - apply IH, add_capability_nonneg, H.
Qed.

Lemma keyword_matches_none (cap : AgentCapability) (ml : string) :
  (forall keyword, In keyword (keywords cap) ->
     contains (lower keyword) ml = false) ->
  keyword_matches cap ml = 0%nat.
Proof.
  unfold keyword_matches. induction (keywords cap) as [|kw kws IH];
    intros H; simpl.
  - reflexivity.
  - rewrite (H kw (or_introl eq_refl)). apply IH.
    intros k Hk. apply H. right. exact Hk.
Qed.

Lemma total_score_no_hit (ml : string) (caps : list AgentCapability)
  (total : float) :
  (forall cap keyword, In cap caps -> In keyword (keywords cap) ->
     contains (lower keyword) ml = false) ->
  fold_left (add_capability ml) caps total = total.
Proof.
  revert total. induction caps as [|cap caps IH]; intros total H; simpl.
  - reflexivity.
  - unfold add_capability at 2. rewrite keyword_matches_none.
    + simpl. apply IH. intros c k Hc. apply H. right. exact Hc.
    + intros k Hk. apply (H cap k (or_introl eq_refl) Hk).
Qed.

(** C3. For every message and every list of capabilities the score of
    [can_handle] lies between 0.0 and 1.0; and when no keyword of any
    capability occurs, case-insensitively, as a substring of the message,
    the score is exactly 0.0. [can_handle] is a total function: it raises
    nothing. *)
Theorem can_handle_in_unit_interval (self : BaseAgent) (message : string) :
  (fle f0_0 (can_handle self message) = true /\
   fle (can_handle self message) f1_0 = true) /\
  ((forall capability keyword,
      In capability (capabilities (config self)) ->
      In keyword (keywords capability) ->
      contains (lower keyword) (lower message) = false) ->
   can_handle self message = f0_0).
Proof.
  unfold can_handle. split.
  - pose proof (total_score_nonneg (lower message)
                  (capabilities (config self)) f0_0 eq_refl) as H.
    split.
    + apply fle_zero_nonneg, py_min_nonneg; [exact H | reflexivity].
    + apply py_min_one_le, H.
  - intros H. rewrite total_score_no_hit by exact H. reflexivity.
Qed.

(** ** The registry *)

(** The best score of the loop is the initial one or the score of a
    registered responder. *)
Lemma fold_better_below (message : string) (bound : float)
  (l : list BaseAgent) (best : option BaseAgent * float) :
  flt (snd best) bound = true ->
  (forall a, In a l -> flt (can_handle a message) bound = true) ->
  flt (snd (fold_left (better message) l best)) bound = true.
Proof.
  revert best. induction l as [|a l IH]; intros best Hb Hl; simpl.
  - exact Hb.
  - apply IH.
    + unfold better. destruct (flt (snd best) (can_handle a message)).
      * simpl. apply Hl. left. reflexivity.
      * exact Hb.
    + intros a' Ha'. apply Hl. right. exact Ha'.
Qed.

(** C2. When every registered responder scores below 0.3 on a message
    (so that the maximum score is below 0.3) and a default responder is
    set, [find_best_agent] returns exactly the default responder with the
    confidence 0.5, whatever the score of the default responder is. *)
Theorem find_best_agent_default_override (self : AgentRegistry)
  (message : string) (default : BaseAgent) :
  fallback_agent self = Some default ->
  (forall a, In a (Dict.values (agents self)) ->
     flt (can_handle a message) f0_3 = true) ->
  find_best_agent self message = (Some default, f0_5).
Proof.
  intros Hd Hlow. unfold find_best_agent.
  rewrite (fold_better_below message f0_3 _ (None, f0_0) eq_refl Hlow).
  rewrite Hd. reflexivity.
Qed.

Lemma find_best_agent_default_override_witness :
  can_handle sample.general "fix my code" = f0_0 /\
  find_best_agent sample.reg "fix my code" = (Some sample.general, f0_5).
Proof.
  split; [reflexivity|].
  apply (find_best_agent_default_override sample.reg "fix my code"
           sample.general).
  - reflexivity.
  - intros a Ha. simpl in Ha.
    destruct Ha as [<-|[<-|[]]]; reflexivity.
Defined.

Lemma can_handle_in_unit_interval_witness :
  can_handle sample.coding "Hi there" = f0_0.
Proof.
  apply (proj2 (can_handle_in_unit_interval sample.coding "Hi there")).
  intros capability keyword Hc Hk. simpl in Hc.
  destruct Hc as [<-|[]]. simpl in Hk.
  destruct Hk as [<-|[<-|[<-|[]]]]; reflexivity.
Defined.

Example can_handle_two_hits :
  can_handle sample.coding "fix this null pointer BUG in my function"
  = fadd f0_3 f0_3.
Proof. vm_compute. reflexivity. Qed.

(** ** The invoker: one turn of the retry loop *)

Lemma call_active_eq (self : FallbackLLM) (w : World) :
  call_active (self, w) =
  if using_fallback self then
    match fallback_llm self with
    | Some _ => (backend w Fallback (calls w), (self, record_call Fallback w))
    | None => (Raise none_has_no_agenerate, (self, w))
    end
  else (backend w Primary (calls w), (self, record_call Primary w)).
Proof.
  cbv [call_active bind get call_fallback call_primary remote raise fst snd].
  destruct (using_fallback self); [|reflexivity].
  destruct (fallback_llm self); reflexivity.
Qed.

Lemma call_active_self (self : FallbackLLM) (w : World) :
  fst (snd (call_active (self, w))) = self.
Proof.
  rewrite call_active_eq.
  destruct (using_fallback self); [|reflexivity].
  destruct (fallback_llm self); reflexivity.
Qed.

Lemma call_active_backend (self : FallbackLLM) (w : World) :
  backend (snd (snd (call_active (self, w)))) = backend w.
Proof.
  rewrite call_active_eq.
  destruct (using_fallback self); [|reflexivity].
  destruct (fallback_llm self); reflexivity.
Qed.

(** The loop, one turn unfolded. *)
Lemma retry_loop_step (mr : Z) (d : float) (n attempt : nat)
  (st : FallbackLLM * World) :
  retry_loop mr d (S n) attempt st =
  match call_active st with
  | (Return response, st1) => (Return response, st1)
  | (Raise e, st1) =>
      match on_error mr d attempt e st1 with
      | (Return (Some response), st2) => (Return response, st2)
      | (Return None, st2) => retry_loop mr d n (S attempt) st2
      | (Raise e', st2) => (Raise e', st2)
      end
  end.
Proof.
  simpl. unfold attempt_body, try_except, bind, ret.
  destruct (call_active st) as [[response|e] st1]; [reflexivity|].
  destruct (on_error mr d attempt e st1) as [[[response|]|e'] st2];
    reflexivity.
Qed.

(** The switch to the secondary client and its single call. *)
Lemma on_error_switch (mr : Z) (d : float) (attempt : nat) (e : exn)
  (self : FallbackLLM) (w : World) :
  is_credit_error e || (Z.of_nat attempt >=? mr)%Z = true ->
  using_fallback self = false -> fallback_llm self <> None ->
  on_error mr d attempt e (self, w) =
  let self' :=
    set_fallback true
      (Some (if is_credit_error e then credit_exhausted
             else max_retries_exceeded)) self in
  match backend w Fallback (calls w) with
  | Return response => (Return (Some response), (self', record_call Fallback w))
  | Raise fallback_error => (Raise fallback_error, (self', record_call Fallback w))
  end.
Proof.
  intros Hc Hu Hf.
  destruct (fallback_llm self) as [client|] eqn:Ef; [|now elim Hf].
  unfold on_error. rewrite Hc.
  cbv [bind get modify try_except call_fallback remote ret raise fst snd].
  cbn [using_fallback fallback_llm set_fallback]. rewrite Hu, Ef.
  cbn. rewrite Ef. destruct (backend w Fallback (calls w)); reflexivity.
Qed.

Lemma on_error_reraise (mr : Z) (d : float) (attempt : nat) (e : exn)
  (self : FallbackLLM) (w : World) :
  is_credit_error e || (Z.of_nat attempt >=? mr)%Z = true ->
  using_fallback self = true \/ fallback_llm self = None ->
  on_error mr d attempt e (self, w) = (Raise e, (self, w)).
Proof.
  intros Hc H. unfold on_error. rewrite Hc.
  cbv [bind get raise fst snd].
  destruct H as [-> | ->]; [reflexivity|].
  rewrite andb_false_r. reflexivity.
Qed.

Lemma on_error_backoff (mr : Z) (d : float) (attempt : nat) (e : exn)
  (self : FallbackLLM) (w : World) :
  is_credit_error e = false -> (Z.of_nat attempt < mr)%Z ->
  is_rate_limit e = true ->
  on_error mr d attempt e (self, w) =
  match exponential_backoff d attempt with
  | Return wait_time =>
      (Return None, (self, record_event (Sleep wait_time) w))
  | Raise overflow => (Raise overflow, (self, w))
  end.
Proof.
  intros Hc Hlt Hr. unfold on_error. rewrite Hc, Hr.
  replace (Z.of_nat attempt >=? mr)%Z with false
    by (symmetry; rewrite Z.geb_leb; apply Z.leb_gt; exact Hlt).
  replace (Z.of_nat attempt <? mr)%Z with true
    by (symmetry; apply Z.ltb_lt; exact Hlt).
  cbv [orb andb bind lift].
  destruct (exponential_backoff d attempt); reflexivity.
Qed.

Lemma on_error_flat (mr : Z) (d : float) (attempt : nat) (e : exn)
  (self : FallbackLLM) (w : World) :
  is_credit_error e = false -> (Z.of_nat attempt < mr)%Z ->
  is_rate_limit e = false ->
  on_error mr d attempt e (self, w) =
  (Return None, (self, record_event (Sleep d) w)).
Proof.
  intros Hc Hlt Hr. unfold on_error. rewrite Hc, Hr.
  replace (Z.of_nat attempt >=? mr)%Z with false
    by (symmetry; rewrite Z.geb_leb; apply Z.leb_gt; exact Hlt).
  replace (Z.of_nat attempt <? mr)%Z with true
    by (symmetry; apply Z.ltb_lt; exact Hlt).
  reflexivity.
Qed.

(** What a failed attempt leaves of the invoker and of its environment. *)
Lemma failed_attempt (self : FallbackLLM) (w : World) (e : exn) :
  fst (call_active (self, w)) = Raise e ->
  call_active (self, w) = (Raise e, (self, snd (snd (call_active (self, w))))).
Proof.
  intros H. pose proof (call_active_self self w) as Hs.
  destruct (call_active (self, w)) as [o [self1 w1]]. simpl in *.
  subst. reflexivity.
Qed.

(** When the attempt is a call to the primary client. *)
Lemma primary_attempt (self : FallbackLLM) (w : World) :
  using_fallback self = false ->
  call_active (self, w) =
  (backend w Primary (calls w), (self, record_call Primary w)).
Proof. intros H. rewrite call_active_eq, H. reflexivity. Qed.

Lemma outcome_pair {A S} (o : outcome A) (s : S) :
  match o with
  | Return a => (Return a, s)
  | Raise e => (Raise e, s)
  end = (o, s).
Proof. destruct o; reflexivity. Qed.

Lemma loop_switch (mr : Z) (d : float) (n attempt : nat) (self : FallbackLLM)
  (w : World) (e : exn) :
  fst (call_active (self, w)) = Raise e ->
  is_credit_error e || (Z.of_nat attempt >=? mr)%Z = true ->
  using_fallback self = false -> fallback_llm self <> None ->
  retry_loop mr d (S n) attempt (self, w) =
  (backend w Fallback (S (calls w)),
   (set_fallback true
      (Some (if is_credit_error e then credit_exhausted
             else max_retries_exceeded)) self,
    record_call Fallback (record_call Primary w))).
Proof.
  intros He Hc Hu Hf. rewrite retry_loop_step.
  rewrite (primary_attempt self w Hu) in *. simpl in He. rewrite He.
  rewrite (on_error_switch mr d attempt e self _ Hc Hu Hf). cbv zeta.
  cbn [backend calls record_call].
  destruct (backend w Fallback (S (calls w))); reflexivity.
Qed.

Lemma loop_reraise (mr : Z) (d : float) (n attempt : nat) (self : FallbackLLM)
  (w : World) (e : exn) :
  fst (call_active (self, w)) = Raise e ->
  is_credit_error e || (Z.of_nat attempt >=? mr)%Z = true ->
  using_fallback self = true \/ fallback_llm self = None ->
  retry_loop mr d (S n) attempt (self, w) =
  (Raise e, (self, snd (snd (call_active (self, w))))).
Proof.
  intros He Hc H. rewrite retry_loop_step.
  rewrite (failed_attempt self w e He) at 1.
  rewrite (on_error_reraise mr d attempt e self _ Hc H). reflexivity.
Qed.

Lemma loop_backoff (mr : Z) (d : float) (n attempt : nat) (self : FallbackLLM)
  (w : World) (e : exn) (wait_time : float) :
  fst (call_active (self, w)) = Raise e ->
  is_credit_error e = false -> (Z.of_nat attempt < mr)%Z ->
  is_rate_limit e = true ->
  exponential_backoff d attempt = Return wait_time ->
  retry_loop mr d (S n) attempt (self, w) =
  retry_loop mr d n (S attempt)
    (self, record_event (Sleep wait_time)
                        (snd (snd (call_active (self, w))))).
Proof.
  intros He Hc Hlt Hr Hw. rewrite retry_loop_step.
  rewrite (failed_attempt self w e He) at 1.
  rewrite (on_error_backoff mr d attempt e self _ Hc Hlt Hr), Hw.
  reflexivity.
Qed.

(** The power of two that does not convert to a float ends the
    invocation: the exception leaves the [except] clause. *)
Lemma loop_overflow (mr : Z) (d : float) (n attempt : nat) (self : FallbackLLM)
  (w : World) (e overflow : exn) :
  fst (call_active (self, w)) = Raise e ->
  is_credit_error e = false -> (Z.of_nat attempt < mr)%Z ->
  is_rate_limit e = true ->
  exponential_backoff d attempt = Raise overflow ->
  retry_loop mr d (S n) attempt (self, w) =
  (Raise overflow, (self, snd (snd (call_active (self, w))))).
Proof.
  intros He Hc Hlt Hr Hw. rewrite retry_loop_step.
  rewrite (failed_attempt self w e He) at 1.
  rewrite (on_error_backoff mr d attempt e self _ Hc Hlt Hr), Hw.
  reflexivity.
Qed.

Lemma loop_flat (mr : Z) (d : float) (n attempt : nat) (self : FallbackLLM)
  (w : World) (e : exn) :
  fst (call_active (self, w)) = Raise e ->
  is_credit_error e = false -> (Z.of_nat attempt < mr)%Z ->
  is_rate_limit e = false ->
  retry_loop mr d (S n) attempt (self, w) =
  retry_loop mr d n (S attempt)
    (self, record_event (Sleep d) (snd (snd (call_active (self, w))))).
Proof.
  intros He Hc Hlt Hr. rewrite retry_loop_step.
  rewrite (failed_attempt self w e He) at 1.
  rewrite (on_error_flat mr d attempt e self _ Hc Hlt Hr). reflexivity.
Qed.

(** The call of a turn: a remote call to the active client, or no call at
    all when the fallback state has no client. *)
Lemma call_active_cases (self : FallbackLLM) (w : World) :
  (using_fallback self = true /\ fallback_llm self = None /\
   call_active (self, w) = (Raise none_has_no_agenerate, (self, w)))
  \/
  (exists role,
     role = (if using_fallback self then Fallback else Primary) /\
     (using_fallback self = true -> fallback_llm self <> None) /\
     call_active (self, w)
     = (backend w role (calls w), (self, record_call role w))).
Proof.
  rewrite call_active_eq. destruct (using_fallback self).
  - destruct (fallback_llm self) as [client|].
    + right. exists Fallback. repeat split. discriminate.
    + left. repeat split.
  - right. exists Primary. repeat split. discriminate.
Qed.

Import observe.

Lemma record_call_sleeps (role : llm_role) (w : World) :
  sleeps (record_call role w) = sleeps w.
Proof.
  unfold sleeps, record_call; simpl. rewrite filter_app, length_app.
  simpl. lia.
Qed.

Lemma record_sleep_sleeps (seconds : float) (w : World) :
  sleeps (record_event (Sleep seconds) w) = S (sleeps w).
Proof.
  unfold sleeps, record_event; simpl. rewrite filter_app, length_app.
  simpl. lia.
Qed.

(** What the call of a turn leaves of the environment. *)
Lemma call_active_world (self : FallbackLLM) (w : World) :
  snd (snd (call_active (self, w))) = w \/
  exists role, snd (snd (call_active (self, w))) = record_call role w.
Proof.
  destruct (call_active_cases self w) as [(_ & _ & E)|(role & _ & _ & E)];
    rewrite E; [left | right; exists role]; reflexivity.
Qed.

Lemma credit_or_last (mr : Z) (attempt : nat) (e : exn) :
  is_credit_error e = true \/ Z.of_nat attempt = mr ->
  is_credit_error e || (Z.of_nat attempt >=? mr)%Z = true.
Proof.
  intros [H|H]; [rewrite H; reflexivity|].
  rewrite Z.geb_leb. replace (mr <=? Z.of_nat attempt)%Z with true.
  - apply orb_true_r.
  - symmetry. apply Z.leb_le. lia.
Qed.

(** Every power of two below [2 ** 1024] converts to a float. *)
Lemma pow2_converts (attempt : nat) :
  (attempt < 1024)%nat -> is_finite (of_int (2 ^ Z.of_nat attempt)) = true.
Proof.
  intros H.
  assert (Hall : forallb (fun k => is_finite (of_int (2 ^ Z.of_nat k)))
                         (seq 0 1024) = true) by (vm_compute; reflexivity).
  rewrite forallb_forall in Hall. apply Hall, in_seq. lia.
Qed.

Lemma exponential_backoff_below (d : float) (attempt : nat) :
  (attempt < 1024)%nat ->
  exponential_backoff d attempt
  = Return (fmul d (of_int (2 ^ Z.of_nat attempt))).
Proof.
  intros H. pose proof (pow2_converts attempt H) as Hf.
  unfold exponential_backoff, fmul_int.
  destruct (of_int (2 ^ Z.of_nat attempt)); try reflexivity.
  discriminate Hf.
Qed.

(** A sleep adds one event to the trace and nothing else. *)
Lemma record_sleep_eq (seconds : float) (w : World) :
  record_event (Sleep seconds) w
  = {| backend := backend w; calls := calls w;
       trace := (trace w ++ [Sleep seconds])%list |}.
Proof. reflexivity. Qed.

(** A turn that fails with a credit error, or that is the last one, ends
    the invocation: what it gives does not depend on the turns left, and
    it does not sleep. *)
Lemma loop_ends (mr : Z) (d : float) (n attempt : nat) (self : FallbackLLM)
  (w : World) (e : exn) :
  fst (call_active (self, w)) = Raise e ->
  is_credit_error e || (Z.of_nat attempt >=? mr)%Z = true ->
  retry_loop mr d (S n) attempt (self, w)
  = retry_loop mr d 1 attempt (self, w) /\
  sleeps (snd (snd (retry_loop mr d (S n) attempt (self, w)))) = sleeps w.
Proof.
  intros He Hc.
  assert (Hw1 : sleeps (snd (snd (call_active (self, w)))) = sleeps w).
  { destruct (call_active_world self w) as [E|[role E]]; rewrite E;
      [reflexivity | apply record_call_sleeps]. }
  destruct (using_fallback self) eqn:Hu.
  - rewrite !(loop_reraise mr d _ attempt self w e He Hc (or_introl Hu)).
    split; [reflexivity | exact Hw1].
  - destruct (fallback_llm self) as [client|] eqn:Hf.
    + assert (Hf' : fallback_llm self <> None) by (rewrite Hf; discriminate).
      rewrite !(loop_switch mr d _ attempt self w e He Hc Hu Hf').
      split; [reflexivity|]. cbn [snd]. rewrite !record_call_sleeps.
      reflexivity.
    + rewrite !(loop_reraise mr d _ attempt self w e He Hc (or_intror Hf)).
      split; [reflexivity | exact Hw1].
Qed.

(** C1. With the fallback subsystem enabled, take any turn of the retry
    loop whose call fails with an error [e], where [e] is a credit error or
    the turn is number [max_retries]. If a secondary client exists and is
    not active, the invoker goes to the fallback state: [using_fallback]
    is true and [fallback_reason] is "credit_exhausted" for a credit error
    and "max_retries_exceeded" otherwise, nothing else of the invoker
    changing. It calls the secondary client once, at once: the trace grows
    by the failed call to the primary client and one call to the secondary
    client, without a sleep, and the invocation ends with the answer of
    that call, its reply or its error. If there is no secondary client or
    it is active already, the invocation ends by raising [e]: the invoker
    is as it was, and the trace has grown by the failed call only. *)
Theorem fallback_on_credit_or_exhaustion (mr : Z) (d : float) (n attempt : nat)
  (self : FallbackLLM) (w : World) (e : exn) :
  fst (call_active (self, w)) = Raise e ->
  is_credit_error e = true \/ Z.of_nat attempt = mr ->
  let result := retry_loop mr d (S n) attempt (self, w) in
  (using_fallback self = false /\ fallback_llm self <> None ->
   result =
   (backend w Fallback (S (calls w)),
    (set_fallback true
       (Some (if is_credit_error e then credit_exhausted
              else max_retries_exceeded)) self,
     record_call Fallback (record_call Primary w))) /\
   fst result = backend w Fallback (S (calls w)) /\
   using_fallback (fst (snd result)) = true /\
   fallback_reason (fst (snd result))
   = Some (if is_credit_error e then "credit_exhausted"
           else "max_retries_exceeded") /\
   fallback_llm (fst (snd result)) = fallback_llm self /\
   calls (snd (snd result)) = S (S (calls w)) /\
   trace (snd (snd result))
   = (trace w ++ [Call Primary; Call Fallback])%list)
  /\
  (using_fallback self = true \/ fallback_llm self = None ->
   result = (Raise e, (self, snd (snd (call_active (self, w))))) /\
   fst result = Raise e /\
   using_fallback (fst (snd result)) = using_fallback self /\
   fallback_reason (fst (snd result)) = fallback_reason self /\
   sleeps (snd (snd result)) = sleeps w /\
   ((using_fallback self = true -> fallback_llm self <> None) ->
    calls (snd (snd result)) = S (calls w) /\
    trace (snd (snd result))
    = (trace w ++ [Call (active_role self)])%list)).
Proof.
  intros He Hc result. apply credit_or_last in Hc. subst result. split.
  - intros [Hu Hf].
    rewrite (loop_switch mr d n attempt self w e He Hc Hu Hf).
    cbn [fst snd using_fallback fallback_reason fallback_llm set_fallback
         calls trace record_call].
    rewrite <- app_assoc.
    destruct (is_credit_error e); repeat split.
  - intros H.
    rewrite (loop_reraise mr d n attempt self w e He Hc H). cbn [fst snd].
    split; [reflexivity|]. split; [reflexivity|]. split; [reflexivity|].
    split; [reflexivity|]. split.
    + destruct (call_active_world self w) as [E|[role E]]; rewrite E;
        [reflexivity | apply record_call_sleeps].
    + intros Hinv.
      destruct (call_active_cases self w)
        as [(Hu & Hf & _)|(role & Hrole & _ & E)]; [elim (Hinv Hu Hf)|].
      rewrite E. subst role. split; reflexivity.
Qed.

(** C6, amended. Take a turn of the retry loop that fails with turns
    remaining ([attempt < max_retries]). The credit test is made first: if
    the error has no credit keyword and has a rate-limit keyword, and
    [attempt] is below 1024, the invoker sleeps the float
    [retry_delay * 2 ** attempt] and goes on with the next turn; if it has
    no keyword of either list, it sleeps [retry_delay]. The sleep is the
    one event added after the failed call, and the statement is made for
    the finite times, whose sleep asyncio completes. For the turns 0, 1 and
    2 the factor is 1.0, 2.0 and 4.0. An error with a credit keyword does
    not sleep: the turn ends the invocation, whatever turns remain. *)
Theorem backoff_before_next_attempt (mr : Z) (d : float) (n attempt : nat)
  (self : FallbackLLM) (w : World) (e : exn) :
  fst (call_active (self, w)) = Raise e ->
  (Z.of_nat attempt < mr)%Z ->
  let w1 := snd (snd (call_active (self, w))) in
  (is_credit_error e = false -> is_rate_limit e = true ->
   (attempt < 1024)%nat ->
   is_finite (fmul d (of_int (2 ^ Z.of_nat attempt))) = true ->
   retry_loop mr d (S n) attempt (self, w) =
   retry_loop mr d n (S attempt)
     (self,
      {| backend := backend w1; calls := calls w1;
         trace :=
           (trace w1
            ++ [Sleep (fmul d (of_int (2 ^ Z.of_nat attempt)))])%list |}))
  /\
  (is_credit_error e = false -> is_rate_limit e = false ->
   is_finite d = true ->
   retry_loop mr d (S n) attempt (self, w) =
   retry_loop mr d n (S attempt)
     (self,
      {| backend := backend w1; calls := calls w1;
         trace := (trace w1 ++ [Sleep d])%list |}))
  /\
  (is_credit_error e = true ->
   retry_loop mr d (S n) attempt (self, w)
   = retry_loop mr d 1 attempt (self, w) /\
   sleeps (snd (snd (retry_loop mr d (S n) attempt (self, w)))) = sleeps w)
  /\
  (of_int (2 ^ Z.of_nat 0) = f1_0 /\ of_int (2 ^ Z.of_nat 1) = f2_0 /\
   of_int (2 ^ Z.of_nat 2) = f4_0).
Proof.
  intros He Hlt w1. split; [|split; [|split]].
  - intros Hc Hr Hk _.
    rewrite (loop_backoff mr d n attempt self w e _ He Hc Hlt Hr
               (exponential_backoff_below d attempt Hk)).
    reflexivity.
  - intros Hc Hr _.
    rewrite (loop_flat mr d n attempt self w e He Hc Hlt Hr). reflexivity.
  - intros Hc. apply (loop_ends mr d n attempt self w e He).
    rewrite Hc. reflexivity.
  - vm_compute. repeat split.
Qed.

(** C7. When the fallback subsystem is disabled in the configuration,
    [agenerate] is one call to the primary client: the result is the answer
    of that call, a reply or the error as it is, there is no other call and
    no sleep, and the invoker is left as it was. *)
Theorem disabled_fallback_is_one_primary_call (c : ConfigLoader)
  (self : FallbackLLM) (w : World) :
  is_fallback_enabled c = false ->
  agenerate c (self, w) =
  (backend w Primary (calls w), (self, record_call Primary w))
  /\ trace (snd (snd (agenerate c (self, w)))) = (trace w ++ [Call Primary])%list
  /\ fst (snd (agenerate c (self, w))) = self.
Proof. intros H. unfold agenerate. rewrite H. repeat split. Qed.

(** ** The invoker: whole invocations *)

(** The only change the retry loop makes to the invoker is the switch to
    the fallback state, from the primary state and with a secondary
    client. *)
Lemma retry_loop_self (mr : Z) (d : float) (n attempt : nat)
  (self : FallbackLLM) (w : World) :
  fst (snd (retry_loop mr d n attempt (self, w))) = self \/
  (using_fallback self = false /\ fallback_llm self <> None /\
   exists reason,
     fst (snd (retry_loop mr d n attempt (self, w)))
     = set_fallback true (Some reason) self).
Proof.
  revert attempt w. induction n as [|n IH]; intros attempt w.
  - left. reflexivity.
  - rewrite retry_loop_step.
    pose proof (call_active_self self w) as Hs.
    destruct (call_active (self, w)) as [[response|e] [self1 w1]];
      simpl in Hs; subst self1; [left; reflexivity|].
    destruct (is_credit_error e || (Z.of_nat attempt >=? mr)%Z) eqn:Hc.
    + destruct (using_fallback self) eqn:Hu.
      * rewrite (on_error_reraise mr d attempt e self w1 Hc (or_introl Hu)).
        left. reflexivity.
      * destruct (fallback_llm self) as [client|] eqn:Hf.
        -- assert (Hf' : fallback_llm self <> None) by (rewrite Hf; discriminate).
           rewrite (on_error_switch mr d attempt e self w1 Hc Hu Hf').
           right. split; [reflexivity|]. split; [discriminate|].
           eexists. cbv zeta.
           destruct (backend w1 Fallback (calls w1)); reflexivity.
        -- rewrite (on_error_reraise mr d attempt e self w1 Hc (or_intror Hf)).
           left. reflexivity.
    + apply orb_false_iff in Hc. destruct Hc as [Hc Hge].
      assert (Hlt : (Z.of_nat attempt < mr)%Z)
        by (rewrite Z.geb_leb in Hge; apply Z.leb_gt; exact Hge).
      destruct (is_rate_limit e) eqn:Hr.
      * rewrite (on_error_backoff mr d attempt e self w1 Hc Hlt Hr).
        destruct (exponential_backoff d attempt);
          [apply IH | left; reflexivity].
      * rewrite (on_error_flat mr d attempt e self w1 Hc Hlt Hr). apply IH.
Qed.

Lemma agenerate_self (c : ConfigLoader) (self : FallbackLLM) (w : World) :
  fst (snd (agenerate c (self, w))) = self \/
  (using_fallback self = false /\ fallback_llm self <> None /\
   exists reason,
     fst (snd (agenerate c (self, w)))
     = set_fallback true (Some reason) self).
Proof.
  unfold agenerate. destruct (negb (is_fallback_enabled c)).
  - left. reflexivity.
  - cbv [bind get fst]. apply retry_loop_self.
Qed.

(** In the fallback state an invocation leaves the invoker as it is. *)
Lemma agenerate_in_fallback (c : ConfigLoader) (self : FallbackLLM)
  (w : World) :
  using_fallback self = true -> fst (snd (agenerate c (self, w))) = self.
Proof.
  intros H. destruct (agenerate_self c self w) as [E|[Hu _]]; [exact E|].
  rewrite H in Hu. discriminate.
Qed.

(** C4. An invocation never goes from the fallback state back to the
    primary state: whatever its result, and so after a successful call
    too, [using_fallback] stays true (the invoker is not changed at all).
    [force_fallback] does not leave the fallback state either. The
    operation that goes back is [reset_fallback]: it leaves
    [using_fallback] false, it clears [fallback_reason] when it leaves the
    fallback state, it changes nothing in the primary state, and doing it
    twice is doing it once. *)
Theorem only_reset_returns_to_primary :
  (forall c self w,
     using_fallback self = true ->
     fst (snd (agenerate c (self, w))) = self /\
     using_fallback (fst (snd (agenerate c (self, w)))) = true) /\
  (forall c self w response,
     using_fallback self = true ->
     fst (agenerate c (self, w)) = Return response ->
     using_fallback (fst (snd (agenerate c (self, w)))) = true) /\
  (forall reason self,
     using_fallback self = true ->
     using_fallback (force_fallback reason self) = true) /\
  (forall self, using_fallback (reset_fallback self) = false) /\
  (forall self,
     using_fallback self = true ->
     fallback_reason (reset_fallback self) = None) /\
  (forall self, using_fallback self = false -> reset_fallback self = self) /\
  (forall self, reset_fallback (reset_fallback self) = reset_fallback self).
Proof.
  split; [|split; [|split; [|split; [|split; [|split]]]]].
  - intros c self w H. rewrite (agenerate_in_fallback c self w H).
    split; [reflexivity | exact H].
  - intros c self w response H _.
    rewrite (agenerate_in_fallback c self w H). exact H.
  - intros reason self H. unfold force_fallback.
    rewrite H, andb_false_r. exact H.
  - intros self. unfold reset_fallback.
    destruct (using_fallback self) eqn:E; [reflexivity | exact E].
  - intros self H. unfold reset_fallback. rewrite H. reflexivity.
  - intros self H. unfold reset_fallback. rewrite H. reflexivity.
  - intros self. unfold reset_fallback.
    destruct (using_fallback self) eqn:E; [reflexivity|].
    rewrite E. reflexivity.
Qed.

Lemma set_fallback_invariant (reason : string) (self : FallbackLLM) :
  fallback_llm self <> None ->
  fallback_invariant (set_fallback true (Some reason) self).
Proof. intros Hf _. split; [discriminate | exact Hf]. Qed.

(** C5. The invariant "in the fallback state a reason is recorded and a
    secondary client exists" holds after construction and is kept by
    [agenerate] (whatever the configuration, the environment and the
    result), by [reset_fallback] and by [force_fallback]. *)
Theorem fallback_invariant_preserved :
  (forall c name type, fallback_invariant (init c name type)) /\
  (forall c self w,
     fallback_invariant self ->
     fallback_invariant (fst (snd (agenerate c (self, w))))) /\
  (forall self,
     fallback_invariant self -> fallback_invariant (reset_fallback self)) /\
  (forall reason self,
     fallback_invariant self ->
     fallback_invariant (force_fallback reason self)).
Proof.
  split; [|split; [|split]].
  - intros c name type H. discriminate H.
  - intros c self w H.
    destruct (agenerate_self c self w) as [E|(_ & Hf & reason & E)];
      rewrite E.
    + exact H.
    + apply set_fallback_invariant, Hf.
  - intros self H. unfold reset_fallback.
    destruct (using_fallback self) eqn:E; [|exact H].
    intros H'. discriminate H'.
  - intros reason self H. unfold force_fallback.
    destruct (fallback_llm self) as [client|] eqn:Hf; [|exact H].
    destruct (using_fallback self) eqn:E; [exact H|].
    apply set_fallback_invariant. rewrite Hf. discriminate.
Qed.

(** ** The router *)

Lemma handle_directly_replies (c : ConfigLoader) (message : string)
  (st : BaseAgent * World) :
  exists text st', _handle_directly c message st = (Return text, st').
Proof.
  unfold _handle_directly, try_except.
  match goal with |- context [match ?m st with _ => _ end] =>
    destruct (m st) as [[text|e] st'] end.
  - exists text, st'. reflexivity.
  - exists apology, st'. reflexivity.
Qed.

Lemma handle_directly_apology (c : ConfigLoader) (message : string)
  (st st' : BaseAgent * World) (e : exn) :
  llm_agenerate c st = (Raise e, st') ->
  _handle_directly c message st = (Return apology, st').
Proof.
  intros H. unfold _handle_directly, try_except, bind. rewrite H.
  reflexivity.
Qed.

Lemma process_delegate_failure (c : ConfigLoader) (reg : AgentRegistry)
  (delegate : BaseAgent -> string -> outcome string) (message : string)
  (st : BaseAgent * World) (best : BaseAgent) (e : exn) :
  fst (find_best_agent reg message) = Some best ->
  delegate best message = Raise e ->
  process c reg delegate message st = _handle_directly c message st.
Proof.
  intros Hb He. unfold process. rewrite Hb.
  destruct (negb (String.eqb (name (config best)) "orchestrator")
            && flt (routing_threshold c) (snd (find_best_agent reg message)));
    [|reflexivity].
  unfold try_except, bind, lift_outcome. rewrite He. reflexivity.
Qed.

(** C8. [process] never raises: its result is always a reply text. When
    the responder chosen by the registry raises an error, whatever it is,
    the router handles the message itself; and when the invocation of the
    router's own model raises an error, whatever it is, direct handling
    returns the fixed apology. *)
Theorem process_always_replies (c : ConfigLoader) (reg : AgentRegistry)
  (delegate : BaseAgent -> string -> outcome string) (message : string)
  (st : BaseAgent * World) :
  (exists text st', process c reg delegate message st = (Return text, st'))
  /\
  (forall best e,
     fst (find_best_agent reg message) = Some best ->
     delegate best message = Raise e ->
     process c reg delegate message st = _handle_directly c message st)
  /\
  (forall e st',
     llm_agenerate c st = (Raise e, st') ->
     _handle_directly c message st = (Return apology, st')).
Proof.
  split; [|split].
  - unfold process.
    destruct (fst (find_best_agent reg message)) as [best|];
      [|apply handle_directly_replies].
    destruct (negb (String.eqb (name (config best)) "orchestrator")
              && flt (routing_threshold c)
                     (snd (find_best_agent reg message)));
      [|apply handle_directly_replies].
    unfold try_except, bind, lift_outcome, modify, ret.
    destruct (delegate best message) as [response|e].
    + eexists. eexists. reflexivity.
    + apply handle_directly_replies.
  - intros best e. apply process_delegate_failure.
  - intros e st'. apply handle_directly_apology.
Qed.

(** ** The manager *)

Lemma dict_get_set_same {V} (k : string) (v : V) (d : Dict.dict V) :
  Dict.get k (Dict.set k v d) = Some v.
Proof.
  induction d as [|[k' v'] d IH]; simpl.
  - rewrite String.eqb_refl. reflexivity.
  - destruct (String.eqb k k') eqn:E; simpl; rewrite ?String.eqb_refl, ?E;
      [reflexivity | exact IH].
Qed.

Lemma dict_get_set_other {V} (k k' : string) (v : V) (d : Dict.dict V) :
  k <> k' -> Dict.get k' (Dict.set k v d) = Dict.get k' d.
Proof.
  intros Hne. induction d as [|[k0 v0] d IH]; simpl.
  - destruct (String.eqb_spec k' k); [congruence | reflexivity].
  - destruct (String.eqb_spec k k0) as [->|Hk]; simpl.
    + destruct (String.eqb_spec k' k0); [congruence | reflexivity].
    + destruct (String.eqb_spec k' k0); [reflexivity | exact IH].
Qed.

Lemma dict_get_absent {V} (k : string) (d : Dict.dict V) :
  ~ In k (Dict.keys d) -> Dict.get k d = None.
Proof.
  induction d as [|[k' v'] d IH]; simpl; intros H; [reflexivity|].
  destruct (String.eqb_spec k k') as [->|Hk].
  - elim H. left. reflexivity.
  - apply IH. intros Hin. apply H. right. exact Hin.
Qed.

(** The keys of a dictionary built by assignments are distinct. *)
Lemma dict_set_keys {V} (k : string) (v : V) (d : Dict.dict V) :
  Dict.keys (Dict.set k v d) =
  if in_dec string_dec k (Dict.keys d) then Dict.keys d
  else (Dict.keys d ++ [k])%list.
Proof.
  induction d as [|[k' v'] d IH]; simpl; [reflexivity|].
  destruct (String.eqb_spec k k') as [E|Hk]; simpl.
  - subst k'. destruct (string_dec k k); [reflexivity | congruence].
  - rewrite IH. destruct (string_dec k' k) as [E|Hne]; [congruence|].
    destruct (in_dec string_dec k (Dict.keys d)); reflexivity.
Qed.

Lemma dict_set_nodup {V} (k : string) (v : V) (d : Dict.dict V) :
  NoDup (Dict.keys d) -> NoDup (Dict.keys (Dict.set k v d)).
Proof.
  intros H. rewrite dict_set_keys.
  destruct (in_dec string_dec k (Dict.keys d)) as [Hin|Hout]; [exact H|].
  apply NoDup_app; [exact H | repeat constructor; intros [] |].
  intros x Hx [E|[]]. apply Hout. rewrite E. exact Hx.
Qed.

Lemma registered_nodup (registrations : list (string * nat)) :
  NoDup (Dict.keys (fallback_llm.agents
    (fold_left (fun m r => fallback_llm.register_agent (fst r) (snd r) m)
               registrations new_manager))).
Proof.
  assert (G : forall m, NoDup (Dict.keys (fallback_llm.agents m)) ->
     NoDup (Dict.keys (fallback_llm.agents
       (fold_left (fun m r => fallback_llm.register_agent (fst r) (snd r) m)
                  registrations m)))).
  { induction registrations as [|r rs IH]; intros m H; simpl; [exact H|].
    apply IH. simpl. apply dict_set_nodup, H. }
  apply G. constructor.
Qed.

Lemma fold_add_status_counts (c : ConfigLoader) (h : store)
  (items : list (string * nat)) (status : SystemStatus) :
  total_agents (fold_left (add_status c h) items status)
  = total_agents status /\
  agents_using_fallback (fold_left (add_status c h) items status)
  = (agents_using_fallback status
     + List.length (filter (fun a => using_fallback (h a))
                           (map snd items)))%nat.
Proof.
  revert status. induction items as [|[k a] items IH]; intros status; simpl.
  - split; [reflexivity | lia].
  - destruct (IH (add_status c h status (k, a))) as [Ht Hu].
    rewrite Ht, Hu. split; [reflexivity|].
    unfold add_status; simpl. destruct (using_fallback (h a)); simpl; lia.
Qed.

Lemma fold_add_status_get (c : ConfigLoader) (h : store)
  (items : list (string * nat)) (status : SystemStatus) (k : string) :
  NoDup (map fst items) ->
  Dict.get k (agents_status (fold_left (add_status c h) items status))
  = match Dict.get k items with
    | Some a => Some (get_status c (h a))
    | None => Dict.get k (agents_status status)
    end.
Proof.
  revert status. induction items as [|[k' a] items IH]; intros status Hnd;
    simpl.
  - reflexivity.
  - inversion Hnd as [|x l Hout Hnd']; subst.
    rewrite (IH _ Hnd'). simpl.
    destruct (String.eqb_spec k k') as [->|Hk].
    + rewrite (dict_get_absent k' items Hout). apply dict_get_set_same.
    + destruct (Dict.get k items); [reflexivity|].
      apply dict_get_set_other. congruence.
Qed.

(** C9. For a manager whose dictionary has one entry per name (as every
    Python dictionary has), [get_system_status] reports as [total_agents]
    the number of registered invokers, as [agents_using_fallback] the
    number of registered invokers whose [using_fallback] is true at the
    time of the call, and as [agents_status] a dictionary that maps the
    name of every registered invoker to its status, and no other name. *)
Theorem system_status_counts (c : ConfigLoader) (h : store)
  (self : FallbackManager) :
  NoDup (Dict.keys (fallback_llm.agents self)) ->
  total_agents (get_system_status c h self)
  = List.length (Dict.keys (fallback_llm.agents self)) /\
  agents_using_fallback (get_system_status c h self)
  = List.length (filter (fun a => using_fallback (h a))
                        (Dict.values (fallback_llm.agents self))) /\
  (forall name,
     Dict.get name (agents_status (get_system_status c h self))
     = option_map (fun a => get_status c (h a))
                  (Dict.get name (fallback_llm.agents self))).
Proof.
  intros Hnd. unfold get_system_status.
  destruct (fold_add_status_counts c h (Dict.items (fallback_llm.agents self))
              {| total_agents := Dict.len (fallback_llm.agents self);
                 agents_using_fallback := 0;
                 agents_status := Dict.empty |}) as [Ht Hu].
  split; [|split].
  - rewrite Ht. simpl. unfold Dict.len, Dict.keys.
    rewrite length_map. reflexivity.
  - rewrite Hu. reflexivity.
  - intros name. rewrite (fold_add_status_get c h _ _ name Hnd).
    unfold Dict.items. simpl.
    destruct (Dict.get name (fallback_llm.agents self)); reflexivity.
Qed.

Lemma system_status_counts_witness :
  total_agents (get_system_status sample.cfg sample.forced_heap sample.manager)
  = 2%nat /\
  agents_using_fallback
    (get_system_status sample.cfg sample.forced_heap sample.manager) = 1%nat /\
  Dict.get "coding"
    (agents_status
       (get_system_status sample.cfg sample.forced_heap sample.manager))
  = Some (get_status sample.cfg (sample.forced_heap 0%nat)) /\
  Dict.get "general"
    (agents_status
       (get_system_status sample.cfg sample.forced_heap sample.manager))
  = Some (get_status sample.cfg (sample.forced_heap 1%nat)).
Proof.
  assert (Hnd : NoDup (Dict.keys (fallback_llm.agents sample.manager))).
  { repeat constructor; simpl; intuition discriminate. }
  destruct (system_status_counts sample.cfg sample.forced_heap sample.manager
              Hnd) as (Ht & Hu & Hs).
  split; [exact Ht|]. split; [exact Hu|].
  split; [exact (Hs "coding") | exact (Hs "general")].
Defined.

(** ** Error messages with "rate limit" *)

Lemma rate_limit_text_is_credit (e : exn) :
  contains "rate limit" (lower (exn_msg e)) = true -> is_credit_error e = true.
Proof.
  intros H. unfold is_credit_error, any_in, credit_keywords.
  apply existsb_exists. exists "limit". split.
  - simpl. tauto.
  - apply (contains_suffix "rate " "limit"). exact H.
Qed.

(** The same when "rate limit" occurs in the message as it is written. *)
Lemma rate_limit_literal_is_credit (e : exn) :
  contains "rate limit" (exn_msg e) = true -> is_credit_error e = true.
Proof.
  intros H. apply rate_limit_text_is_credit.
  apply (contains_lower "rate limit"), H.
Qed.

(** Without a credit keyword, a rate-limit error has one of the other
    three rate-limit keywords. *)
Lemma backoff_keywords (e : exn) :
  is_credit_error e = false -> is_rate_limit e = true ->
  contains "rate limit" (lower (exn_msg e)) = false /\
  any_in ["too many requests"; "429"; "throttle"] (lower (exn_msg e)) = true.
Proof.
  intros Hc Hr.
  destruct (contains "rate limit" (lower (exn_msg e))) eqn:E.
  - rewrite (rate_limit_text_is_credit e E) in Hc. discriminate.
  - split; [reflexivity|].
    unfold is_rate_limit, any_in, rate_limit_keywords in Hr.
    simpl in Hr. rewrite E in Hr. exact Hr.
Qed.

(** C10, as stated, fails in the fallback state: an invoker forced to the
    fallback state whose secondary client raises an error with "rate
    limit" in its message raises that error again; it makes no transition
    and its reason is not "credit_exhausted". *)
Lemma rate_limit_error_in_fallback_state :
  fst (call_active
         (sample.forced,
          sample.world (sample.reply "hello") (Raise sample.rate_limit_error)))
  = Raise sample.rate_limit_error /\
  contains "rate limit" (lower (exn_msg sample.rate_limit_error)) = true /\
  agenerate sample.cfg
    (sample.forced,
     sample.world (sample.reply "hello") (Raise sample.rate_limit_error))
  = (Raise sample.rate_limit_error,
     (sample.forced,
      record_call Fallback
        (sample.world (sample.reply "hello")
                      (Raise sample.rate_limit_error)))) /\
  using_fallback sample.forced = true /\
  fallback_reason
    (fst (snd (agenerate sample.cfg
                 (sample.forced,
                  sample.world (sample.reply "hello")
                               (Raise sample.rate_limit_error)))))
  = Some "manual_override" /\
  fallback_reason
    (fst (snd (agenerate sample.cfg
                 (sample.forced,
                  sample.world (sample.reply "hello")
                               (Raise sample.rate_limit_error)))))
  <> Some credit_exhausted.
Proof.
  split; [reflexivity|]. split; [reflexivity|].
  split; [reflexivity|]. split; [reflexivity|].
  split; [reflexivity | discriminate].
Qed.

(** C10, amended. An error whose message contains "rate limit" (in any
    case) is a credit error, because "limit" is a credit keyword, and the
    credit test is made first: the turn of the retry loop that fails with
    it ends the invocation, without sleeping and without another turn. If a
    secondary client exists and is not active, the invoker goes to the
    fallback state ([using_fallback] true, [fallback_reason]
    "credit_exhausted") and calls the secondary client at once, the trace
    growing by the failed call and that one call; otherwise the error is
    raised again and the state and the reason stay as they were. The
    exponential backoff is taken only for errors without any credit keyword
    whose message contains "too many requests", "429" or "throttle". *)
Theorem rate_limit_text_never_backs_off (mr : Z) (d : float) (n attempt : nat)
  (self : FallbackLLM) (w : World) (e : exn) :
  fst (call_active (self, w)) = Raise e ->
  contains "rate limit" (lower (exn_msg e)) = true ->
  let result := retry_loop mr d (S n) attempt (self, w) in
  is_credit_error e = true /\
  result = retry_loop mr d 1 attempt (self, w) /\
  sleeps (snd (snd result)) = sleeps w /\
  (using_fallback self = false /\ fallback_llm self <> None ->
   result =
   (backend w Fallback (S (calls w)),
    (set_fallback true (Some credit_exhausted) self,
     record_call Fallback (record_call Primary w))) /\
   fst result = backend w Fallback (S (calls w)) /\
   using_fallback (fst (snd result)) = true /\
   fallback_reason (fst (snd result)) = Some "credit_exhausted" /\
   calls (snd (snd result)) = S (S (calls w)) /\
   trace (snd (snd result))
   = (trace w ++ [Call Primary; Call Fallback])%list) /\
  (using_fallback self = true \/ fallback_llm self = None ->
   result = (Raise e, (self, snd (snd (call_active (self, w))))) /\
   fst result = Raise e /\
   using_fallback (fst (snd result)) = using_fallback self /\
   fallback_reason (fst (snd result)) = fallback_reason self) /\
  (forall e',
     is_credit_error e' = false -> is_rate_limit e' = true ->
     contains "rate limit" (lower (exn_msg e')) = false /\
     any_in ["too many requests"; "429"; "throttle"] (lower (exn_msg e'))
     = true).
Proof.
  intros He Hrl result. pose proof (rate_limit_text_is_credit e Hrl) as Hc.
  assert (Hb : is_credit_error e || (Z.of_nat attempt >=? mr)%Z = true)
    by (rewrite Hc; reflexivity).
  destruct (loop_ends mr d n attempt self w e He Hb) as [Hend Hsleeps].
  subst result.
  split; [exact Hc|]. split; [exact Hend|]. split; [exact Hsleeps|].
  split; [|split].
  - intros [Hu Hf].
    rewrite (loop_switch mr d n attempt self w e He Hb Hu Hf), Hc.
    cbn [fst snd using_fallback fallback_reason set_fallback calls trace
         record_call].
    rewrite <- app_assoc. repeat split.
  - intros H. rewrite (loop_reraise mr d n attempt self w e He Hb H).
    repeat split.
  - intros e'. apply backoff_keywords.
Qed.

Lemma rate_limit_text_never_backs_off_witness :
  is_credit_error sample.rate_limit_error = true /\
  fst (retry_loop 2 f1_0 3 0
         (sample.invoker,
          sample.world (Raise sample.rate_limit_error) (sample.reply "hello")))
  = sample.reply "hello" /\
  fallback_reason
    (fst (snd (retry_loop 2 f1_0 3 0
                 (sample.invoker,
                  sample.world (Raise sample.rate_limit_error)
                               (sample.reply "hello")))))
  = Some "credit_exhausted".
Proof.
  pose proof (rate_limit_text_never_backs_off 2 f1_0 2 0 sample.invoker
                (sample.world (Raise sample.rate_limit_error)
                              (sample.reply "hello"))
                sample.rate_limit_error eq_refl eq_refl)
    as (Hc & _ & _ & Hs & _).
  split; [exact Hc|].
  destruct Hs as (_ & Hr & _ & Hreason & _);
    [split; [reflexivity | discriminate]|].
  split; [exact Hr | exact Hreason].
Defined.

(** Messages that do reach the exponential backoff. *)
Example backoff_reached :
  forall msg, In msg ["Error code: 429"; "Too Many Requests"; "throttled"] ->
  is_credit_error (mk_exn "Exception" msg) = false /\
  is_rate_limit (mk_exn "Exception" msg) = true.
Proof.
  intros msg [<-|[<-|[<-|[]]]]; split; reflexivity.
Qed.

(** ** Runs of the sample system *)

Lemma fallback_on_credit_or_exhaustion_witness :
  fst (retry_loop 2 f1_0 3 0
         (sample.invoker,
          sample.world (Raise sample.credit_error) (sample.reply "hello")))
  = sample.reply "hello" /\
  using_fallback
    (fst (snd (retry_loop 2 f1_0 3 0
                 (sample.invoker,
                  sample.world (Raise sample.credit_error)
                               (sample.reply "hello"))))) = true /\
  fallback_reason
    (fst (snd (retry_loop 2 f1_0 3 0
                 (sample.invoker,
                  sample.world (Raise sample.credit_error)
                               (sample.reply "hello")))))
  = Some "credit_exhausted" /\
  trace
    (snd (snd (retry_loop 2 f1_0 3 0
                 (sample.invoker,
                  sample.world (Raise sample.credit_error)
                               (sample.reply "hello")))))
  = [Call Primary; Call Fallback].
Proof.
  destruct (proj1 (fallback_on_credit_or_exhaustion 2 f1_0 2 0 sample.invoker
                     (sample.world (Raise sample.credit_error)
                                   (sample.reply "hello"))
                     sample.credit_error eq_refl (or_introl eq_refl)))
    as (_ & Hr & Hu & Hreason & _ & _ & Ht);
    [split; [reflexivity | discriminate]|].
  split; [exact Hr|]. split; [exact Hu|]. split; [exact Hreason | exact Ht].
Defined.

(** C6, as stated, fails on the text "rate limit": an error with that
    text is classified as a rate-limit error, and with attempts remaining
    the invoker does not sleep before a next attempt: it switches to the
    secondary client at once. It fails at the attempt 1024 too, with
    attempts remaining and a "429" error: [2 ** 1024] does not convert to
    a float, even for the delay 0.0, and the invocation ends with
    [OverflowError] without a sleep; an invocation with 1025 retries whose
    calls all fail so makes 1025 calls and 1024 sleeps and ends there, in
    the primary state. *)
Lemma rate_limit_error_without_sleep :
  (is_rate_limit sample.rate_limit_error = true /\
   (Z.of_nat 0 < 2)%Z /\
   agenerate sample.cfg
     (sample.invoker,
      sample.world (Raise sample.rate_limit_error) (sample.reply "hello"))
   = (sample.reply "hello",
      (set_fallback true (Some "credit_exhausted") sample.invoker,
       {| backend := backend (sample.world (Raise sample.rate_limit_error)
                                           (sample.reply "hello"));
          calls := 2;
          trace := [Call Primary; Call Fallback] |})))
  /\
  (is_rate_limit sample.too_many_error = true /\
   is_credit_error sample.too_many_error = false /\
   (Z.of_nat 1024 < 1025)%Z /\
   retry_loop 1025 f0_0 2 1024
     (sample.patient,
      sample.world (Raise sample.too_many_error) (sample.reply "hello"))
   = (Raise (mk_exn "OverflowError" "int too large to convert to float"),
      (sample.patient,
       {| backend := backend (sample.world (Raise sample.too_many_error)
                                           (sample.reply "hello"));
          calls := 1;
          trace := [Call Primary] |})) /\
   fst (agenerate sample.cfg_patient
          (sample.patient,
           sample.world (Raise sample.too_many_error) (sample.reply "hello")))
   = Raise (mk_exn "OverflowError" "int too large to convert to float") /\
   calls (snd (snd (agenerate sample.cfg_patient
                      (sample.patient,
                       sample.world (Raise sample.too_many_error)
                                    (sample.reply "hello")))))
   = 1025%nat /\
   sleeps (snd (snd (agenerate sample.cfg_patient
                       (sample.patient,
                        sample.world (Raise sample.too_many_error)
                                     (sample.reply "hello")))))
   = 1024%nat /\
   using_fallback
     (fst (snd (agenerate sample.cfg_patient
                  (sample.patient,
                   sample.world (Raise sample.too_many_error)
                                (sample.reply "hello"))))) = false).
Proof.
  split.
  - split; [reflexivity|]. split; [reflexivity|]. reflexivity.
  - split; [reflexivity|]. split; [reflexivity|]. split; [reflexivity|].
    vm_compute. repeat split.
Qed.

Lemma backoff_before_next_attempt_witness :
  retry_loop 2 f1_0 2 1
    (sample.invoker,
     sample.world (Raise sample.too_many_error) (sample.reply "hello"))
  = retry_loop 2 f1_0 1 2
      (sample.invoker,
       {| backend := backend (sample.world (Raise sample.too_many_error)
                                           (sample.reply "hello"));
          calls := 1;
          trace := [Call Primary; Sleep f2_0] |}).
Proof.
  apply (proj1 (backoff_before_next_attempt 2 f1_0 1 1 sample.invoker
                  (sample.world (Raise sample.too_many_error)
                                (sample.reply "hello"))
                  sample.too_many_error eq_refl eq_refl));
    [reflexivity | reflexivity | lia | reflexivity].
Defined.

Lemma disabled_fallback_is_one_primary_call_witness :
  agenerate sample.cfg_disabled
    (init sample.cfg_disabled "main" "main",
     sample.world (Raise sample.credit_error) (sample.reply "hello"))
  = (Raise sample.credit_error,
     (init sample.cfg_disabled "main" "main",
      record_call Primary
        (sample.world (Raise sample.credit_error) (sample.reply "hello")))).
Proof.
  apply (proj1 (disabled_fallback_is_one_primary_call sample.cfg_disabled
                  (init sample.cfg_disabled "main" "main")
                  (sample.world (Raise sample.credit_error)
                                (sample.reply "hello")) eq_refl)).
Defined.

Lemma only_reset_returns_to_primary_witness :
  using_fallback
    (fst (snd (agenerate sample.cfg
                 (sample.forced,
                  sample.world (Raise sample.credit_error)
                               (sample.reply "hello"))))) = true /\
  fallback_reason (reset_fallback sample.forced) = None /\
  reset_fallback sample.invoker = sample.invoker.
Proof.
  destruct only_reset_returns_to_primary
    as (Hgen & _ & _ & _ & Hclear & Hnoop & _).
  split; [|split].
  - apply (Hgen sample.cfg sample.forced). reflexivity.
  - apply Hclear. reflexivity.
  - apply Hnoop. reflexivity.
Defined.

Lemma fallback_invariant_preserved_witness :
  fallback_invariant
    (fst (snd (agenerate sample.cfg
                 (sample.invoker,
                  sample.world (Raise sample.credit_error)
                               (Raise sample.timeout_error))))) /\
  fallback_invariant (force_fallback "manual_override" sample.invoker).
Proof.
  destruct fallback_invariant_preserved as (Hinit & Hgen & _ & Hforce).
  split.
  - apply Hgen. apply Hinit.
  - apply Hforce. apply Hinit.
Defined.

Lemma process_always_replies_witness :
  fst (process sample.cfg sample.reg sample.failing_delegate
         "please debug this function"
         (sample.router,
          sample.world (Raise sample.credit_error)
                       (Raise sample.timeout_error)))
  = Return apology.
Proof.
  destruct (process_always_replies sample.cfg sample.reg
              sample.failing_delegate "please debug this function"
              (sample.router,
               sample.world (Raise sample.credit_error)
                            (Raise sample.timeout_error)))
    as (_ & Hdelegate & Hdirect).
  rewrite (Hdelegate sample.coding sample.timeout_error eq_refl eq_refl).
  rewrite (Hdirect sample.timeout_error
             (snd (llm_agenerate sample.cfg
                     (sample.router,
                      sample.world (Raise sample.credit_error)
                                   (Raise sample.timeout_error))))
             eq_refl).
  reflexivity.
Defined.

(** Two rate-limit failures without a credit keyword, then a reply: the
    invoker sleeps 1 and 2 seconds between the three calls to the primary
    client and stays in the primary state. *)
Example backoff_run :
  agenerate sample.cfg
    (sample.invoker,
     sample.scripted [ Raise sample.too_many_error;
                       Raise sample.too_many_error;
                       sample.reply "hello" ])
  = (sample.reply "hello",
     (sample.invoker,
      {| backend := backend (sample.scripted
                               [ Raise sample.too_many_error;
                                 Raise sample.too_many_error;
                                 sample.reply "hello" ]);
         calls := 3;
         trace := [ Call Primary; Sleep f1_0; Call Primary; Sleep f2_0;
                    Call Primary ] |})).
Proof. reflexivity. Qed.

(** Three other failures: the retries are used up, the invoker switches
    with the reason "max_retries_exceeded" and the secondary client
    replies. *)
Example exhaustion_run :
  agenerate sample.cfg
    (sample.invoker,
     sample.world (Raise sample.timeout_error) (sample.reply "hello"))
  = (sample.reply "hello",
     (set_fallback true (Some max_retries_exceeded) sample.invoker,
      {| backend := backend (sample.world (Raise sample.timeout_error)
                                          (sample.reply "hello"));
         calls := 4;
         trace := [ Call Primary; Sleep f1_0; Call Primary; Sleep f1_0;
                    Call Primary; Call Fallback ] |})).
Proof. reflexivity. Qed.

(** A message with two coding keywords is delegated; the reply carries the
    routing marker. *)
Example delegation_run :
  fst (process sample.cfg sample.reg (fun _ _ => Return "Use a guard.")
         "fix this null pointer bug in my function"
         (sample.router,
          sample.world (sample.reply "unused") (sample.reply "unused")))
  = Return (routed sample.coding "Use a guard.").
Proof. reflexivity. Qed.

(** A message without any keyword and without a default responder is
    handled by the router itself. *)
Example direct_run :
  fst (process sample.cfg
         (registry.register_agent sample.coding false new_registry)
         sample.failing_delegate "hi"
         (sample.router,
          sample.world (sample.reply "  Hello!  ") (sample.reply "unused")))
  = Return "Hello!".
Proof. reflexivity. Qed.

Example lower_demo : lower "Rate LIMIT 429!" = "rate limit 429!".
Proof. reflexivity. Qed.

Example contains_demo :
  contains "limit" "rate limit reached" = true /\ contains "" "" = true /\
  contains "ab" "a b" = false.
Proof. repeat split. Qed.

Example strip_demo : strip (String "009" " hi  there ") = "hi  there".
Proof. reflexivity. Qed.

(** The first power of two that does not convert to a float is
    [2 ** 1024], whatever the delay; below it the product can still go
    to an infinity. *)
Example backoff_overflow :
  exponential_backoff f1_0 1023
  = Return (S754_finite false 4503599627370496 971) /\
  exponential_backoff f1_0 1024 = Raise int_too_large /\
  exponential_backoff f0_0 1024 = Raise int_too_large /\
  exponential_backoff f2_0 1023 = Return (S754_infinity false).
Proof. vm_compute. repeat split. Qed.

(** The literals are the binary64 values nearest to the decimals. *)
Example literals_demo :
  fdiv (of_int 3) (of_int 10) = f0_3 /\ fdiv (of_int 4) (of_int 10) = f0_4 /\
  fdiv (of_int 1) (of_int 2) = f0_5 /\ of_int 1 = f1_0 /\ of_int 0 = f0_0.
Proof. vm_compute. repeat split. Qed.

(** Three hits in one capability and one hit in each of three
    capabilities give the same score, 0.8999999999999999. *)
Example three_hits_demo :
  fmul (of_int 3) f0_3 = S754_finite false 8106479329266892 (-53) /\
  fadd (fadd f0_3 f0_3) f0_3 = S754_finite false 8106479329266892 (-53).
Proof. vm_compute. split; reflexivity. Qed.

(** * Further properties of the code *)

(** ** The order on non-negative floats *)

Lemma flt_finite (m1 m2 : positive) (e1 e2 : Z) :
  flt (S754_finite false m1 e1) (S754_finite false m2 e2) = true <->
  (e1 < e2)%Z \/ (e1 = e2 /\ (m1 < m2)%positive).
Proof.
  unfold flt, SFltb, SFcompare.
  change (Pos.compare_cont Eq m1 m2) with (Pos.compare m1 m2).
  destruct (Z.compare_spec e1 e2) as [E|L|G].
  - destruct (Pos.compare_spec m1 m2) as [E'|L'|G']; split; intros H;
      try discriminate; try reflexivity; try lia.
  - split; intros _; [lia | reflexivity].
  - split; intros H; [discriminate | lia].
Qed.

Lemma flt_finite_false (m1 m2 : positive) (e1 e2 : Z) :
  flt (S754_finite false m1 e1) (S754_finite false m2 e2) = false <->
  (e2 < e1)%Z \/ (e1 = e2 /\ (m2 <= m1)%positive).
Proof.
  pose proof (flt_finite m1 m2 e1 e2) as H.
  destruct (flt (S754_finite false m1 e1) (S754_finite false m2 e2)).
  - split; [discriminate|]. intros H'. exfalso.
    destruct (proj1 H eq_refl); lia.
  - split; [|reflexivity]. intros _.
    destruct (Z.lt_trichotomy e1 e2) as [L|[E|G]].
    + assert (false = true) by (apply H; lia). discriminate.
    + destruct (Pos.lt_total m1 m2) as [L'|[E'|G']]; lia.
    + lia.
Qed.

(** [a <= b < c] gives [a < c]. *)
Lemma fle_flt_trans (a b c : float) :
  nonneg a -> nonneg b -> nonneg c ->
  flt b a = false -> flt b c = true -> flt a c = true.
Proof.
  destruct a as [sa|sa| |sa ma ea], b as [sb|sb| |sb mb eb],
    c as [sc|sc| |sc mc ec]; simpl; intros Ha Hb Hc; subst;
    try contradiction; try discriminate; try reflexivity;
    intros H1 H2; try discriminate.
  apply flt_finite_false in H1. apply flt_finite in H2. apply flt_finite.
  lia.
Qed.

(** [a < b <= c] gives [a < c]. *)
Lemma flt_fle_trans (a b c : float) :
  nonneg a -> nonneg b -> nonneg c ->
  flt a b = true -> flt c b = false -> flt a c = true.
Proof.
  destruct a as [sa|sa| |sa ma ea], b as [sb|sb| |sb mb eb],
    c as [sc|sc| |sc mc ec]; simpl; intros Ha Hb Hc; subst;
    try contradiction; try discriminate; try reflexivity;
    intros H1 H2; try discriminate.
  apply flt_finite in H1. apply flt_finite_false in H2. apply flt_finite.
  lia.
Qed.

(** [a <= b <= c] gives [a <= c]. *)
Lemma fle_fle_trans (a b c : float) :
  nonneg a -> nonneg b -> nonneg c ->
  flt b a = false -> flt c b = false -> flt c a = false.
Proof.
  destruct a as [sa|sa| |sa ma ea], b as [sb|sb| |sb mb eb],
    c as [sc|sc| |sc mc ec]; simpl; intros Ha Hb Hc; subst;
    try contradiction; try discriminate; try reflexivity;
    intros H1 H2; try discriminate.
  apply flt_finite_false in H1. apply flt_finite_false in H2.
  apply flt_finite_false. lia.
Qed.

Lemma flt_asym (a b : float) :
  nonneg a -> nonneg b -> flt a b = true -> flt b a = false.
Proof.
  destruct a as [sa|sa| |sa ma ea], b as [sb|sb| |sb mb eb];
    simpl; intros Ha Hb; subst;
    try contradiction; try discriminate; try reflexivity.
  intros H. apply flt_finite in H. apply flt_finite_false. lia.
Qed.

Lemma can_handle_nonneg (self : BaseAgent) (message : string) :
  nonneg (can_handle self message).
Proof.
  unfold can_handle. apply py_min_nonneg; [|reflexivity].
  apply total_score_nonneg. reflexivity.
Qed.

(** ** The registry: what [find_best_agent] returns *)

Lemma flt_irrefl (a : float) : nonneg a -> flt a a = false.
Proof.
  intros H. destruct (flt a a) eqn:E; [|reflexivity].
  rewrite (flt_asym a a H H E) in E. discriminate.
Qed.

Lemma flt_zero_false (a : float) : nonneg a -> flt a f0_0 = false.
Proof.
  destruct a as [s|s| |s m e]; simpl; intros H; subst;
    try contradiction; reflexivity.
Qed.

(** The state of the loop of [find_best_agent] after the responders [seen]:
    the best score bounds the scores seen, and the best responder, if any,
    is the first one seen with that score. *)
Lemma fold_better_first_max (message : string) (l seen : list BaseAgent)
  (best : option BaseAgent) (score : float) :
  nonneg score ->
  (forall x, In x seen -> flt score (can_handle x message) = false) ->
  match best with
  | None => score = f0_0
  | Some a =>
      score = can_handle a message /\ flt f0_0 score = true /\
      exists l1 l2, seen = (l1 ++ a :: l2)%list /\
        forall x, In x l1 -> flt (can_handle x message) score = true
  end ->
  let r := fold_left (better message) l (best, score) in
  nonneg (snd r) /\
  (forall x, In x (seen ++ l)%list ->
     flt (snd r) (can_handle x message) = false) /\
  match fst r with
  | None => snd r = f0_0
  | Some a =>
      snd r = can_handle a message /\ flt f0_0 (snd r) = true /\
      exists l1 l2, (seen ++ l)%list = (l1 ++ a :: l2)%list /\
        forall x, In x l1 -> flt (can_handle x message) (snd r) = true
  end.
Proof.
  revert seen best score. induction l as [|y l IH];
    intros seen best score Hn Hb Hbest; cbv zeta.
  - simpl. rewrite app_nil_r. repeat split; assumption.
  - cbv zeta in IH. simpl fold_left.
    assert (Hstep : better message (best, score) y =
                    if flt score (can_handle y message)
                    then (Some y, can_handle y message) else (best, score))
      by reflexivity.
    rewrite Hstep. clear Hstep.
    pose proof (can_handle_nonneg y message) as Hy.
    replace (seen ++ y :: l)%list with ((seen ++ [y]) ++ l)%list
      by (rewrite <- app_assoc; reflexivity).
    destruct (flt score (can_handle y message)) eqn:E.
    + apply IH; [exact Hy | |].
      * intros x Hx. apply in_app_or in Hx. destruct Hx as [Hx|[<-|[]]].
        -- apply flt_asym; [apply can_handle_nonneg | exact Hy |].
           apply (fle_flt_trans _ score);
             [apply can_handle_nonneg | exact Hn | exact Hy
             | apply Hb, Hx | exact E].
        -- apply flt_irrefl, Hy.
      * split; [reflexivity|]. split.
        -- apply (fle_flt_trans _ score);
             [reflexivity | exact Hn | exact Hy
             | apply flt_zero_false, Hn | exact E].
        -- exists seen, []. split; [reflexivity|].
           intros x Hx. apply (fle_flt_trans _ score);
             [apply can_handle_nonneg | exact Hn | exact Hy
             | apply Hb, Hx | exact E].
    + apply IH; [exact Hn | |].
      * intros x Hx. apply in_app_or in Hx. destruct Hx as [Hx|[<-|[]]].
        -- apply Hb, Hx.
        -- exact E.
      * destruct best as [a|]; [|exact Hbest].
        destruct Hbest as (Hs & Hpos & l1 & l2 & Hseen & Hl1).
        split; [exact Hs|]. split; [exact Hpos|].
        exists l1, (l2 ++ [y])%list. split; [|exact Hl1].
        rewrite Hseen, <- app_assoc. reflexivity.
Qed.

Lemma best_of_registry (self : AgentRegistry) (message : string) :
  let r := fold_left (better message) (Dict.values (agents self))
                     (None, f0_0) in
  nonneg (snd r) /\
  (forall x, In x (Dict.values (agents self)) ->
     flt (snd r) (can_handle x message) = false) /\
  match fst r with
  | None => snd r = f0_0
  | Some a =>
      snd r = can_handle a message /\ flt f0_0 (snd r) = true /\
      exists l1 l2, Dict.values (agents self) = (l1 ++ a :: l2)%list /\
        forall x, In x l1 -> flt (can_handle x message) (snd r) = true
  end.
Proof.
  apply (fold_better_first_max message (Dict.values (agents self)) []
           None f0_0); [reflexivity | intros x [] | reflexivity].
Qed.

(** Whenever [find_best_agent] returns a responder, either it is the
    default responder with the confidence 0.5, every registered responder
    scoring below 0.3; or it is the first registered responder of maximal
    score, returned with its own score, which is above 0: the responders
    registered before it score strictly less and no responder scores
    more. *)
Theorem find_best_agent_first_maximum (self : AgentRegistry)
  (message : string) (a : BaseAgent) (c : float) :
  find_best_agent self message = (Some a, c) ->
  (fallback_agent self = Some a /\ c = f0_5 /\
   forall x, In x (Dict.values (agents self)) ->
     flt (can_handle x message) f0_3 = true)
  \/
  (c = can_handle a message /\ flt f0_0 c = true /\
   exists l1 l2,
     Dict.values (agents self) = (l1 ++ a :: l2)%list /\
     (forall x, In x l1 -> flt (can_handle x message) c = true) /\
     (forall x, In x l2 -> flt c (can_handle x message) = false)).
Proof.
  intros H. unfold find_best_agent in H.
  destruct (best_of_registry self message) as (Hn & Hb & Hbest).
  cbv zeta in *.
  destruct (fold_left (better message) (Dict.values (agents self))
              (None, f0_0)) as [best score]. cbn [fst snd] in *.
  destruct (flt score f0_3 && is_some (fallback_agent self)) eqn:E.
  - left. apply andb_true_iff in E. destruct E as [E _].
    injection H as Hd Hc. split; [exact Hd|]. split; [symmetry; exact Hc|].
    intros x Hx. apply (fle_flt_trans _ score);
      [apply can_handle_nonneg | exact Hn | reflexivity
      | apply Hb, Hx | exact E].
  - right. destruct best as [b|].
    + injection H as Hba Hc. subst b c.
      destruct Hbest as (Hs & Hpos & l1 & l2 & Hl & Hl1).
      split; [exact Hs|]. split; [exact Hpos|].
      exists l1, l2. split; [exact Hl|]. split; [exact Hl1|].
      intros x Hx. apply Hb. rewrite Hl. apply in_or_app. right. right.
      exact Hx.
    + subst score. simpl in E.
      destruct (fallback_agent self); [discriminate E | discriminate H].
Qed.

(** [find_best_agent] returns no responder exactly when no default
    responder is set and no registered responder scores above 0 (an empty
    registry included); the confidence is then 0.0. *)
Theorem find_best_agent_none (self : AgentRegistry) (message : string) :
  (fst (find_best_agent self message) = None <->
   fallback_agent self = None /\
   forall x, In x (Dict.values (agents self)) ->
     flt f0_0 (can_handle x message) = false) /\
  (fst (find_best_agent self message) = None ->
   snd (find_best_agent self message) = f0_0).
Proof.
  unfold find_best_agent.
  destruct (best_of_registry self message) as (Hn & Hb & Hbest).
  cbv zeta in *.
  destruct (fold_left (better message) (Dict.values (agents self))
              (None, f0_0)) as [best score]. cbn [fst snd] in *.
  destruct (fallback_agent self) as [d|] eqn:Hd.
  - split.
    + split.
      * destruct (flt score f0_3 && is_some (Some d)); [discriminate|].
        destruct best; discriminate.
      * intros [H _]. discriminate H.
    + destruct (flt score f0_3 && is_some (Some d)); [discriminate|].
      destruct best; discriminate.
  - rewrite andb_false_r. cbn [fst snd]. destruct best as [b|].
    + split.
      * split; [discriminate|]. intros [_ H].
        destruct Hbest as (Hs & Hpos & l1 & l2 & Hl & _).
        assert (Hin : In b (Dict.values (agents self)))
          by (rewrite Hl; apply in_or_app; right; left; reflexivity).
        specialize (H b Hin). rewrite <- Hs, Hpos in H. discriminate H.
      * discriminate.
    + subst score. split; [|reflexivity].
      split; [|reflexivity]. intros _. split; [reflexivity | exact Hb].
Qed.

(** ** The registry: registration and lookup *)

Lemma dict_set_len {V} (k : string) (v : V) (d : Dict.dict V) :
  Dict.len (Dict.set k v d) =
  if is_some (Dict.get k d) then Dict.len d else S (Dict.len d).
Proof.
  unfold Dict.len. induction d as [|[k' v'] d IH]; simpl; [reflexivity|].
  destruct (String.eqb k k'); simpl; [reflexivity|].
  rewrite IH. destruct (is_some (Dict.get k d)); reflexivity.
Qed.

(** Registering a responder makes it the one found under its name, leaves
    the other names as they were, adds one entry unless the name was
    taken (the new responder then replaces the old one), and changes the
    default responder only when asked to. *)
Theorem register_agent_lookup (agent : BaseAgent) (is_fallback : bool)
  (self : AgentRegistry) :
  get_agent_by_name (registry.register_agent agent is_fallback self)
                    (name (config agent)) = Some agent /\
  (forall n, n <> name (config agent) ->
     get_agent_by_name (registry.register_agent agent is_fallback self) n
     = get_agent_by_name self n) /\
  Dict.len (agents (registry.register_agent agent is_fallback self))
  = (if is_some (get_agent_by_name self (name (config agent)))
     then Dict.len (agents self) else S (Dict.len (agents self))) /\
  fallback_agent (registry.register_agent agent is_fallback self)
  = (if is_fallback then Some agent else fallback_agent self).
Proof.
  unfold get_agent_by_name, registry.register_agent; simpl.
  split; [apply dict_get_set_same|]. split.
  - intros n Hn. apply dict_get_set_other. congruence.
  - split; [apply dict_set_len | reflexivity].
Qed.

(** Every entry of a registry built by registrations is filed under the
    name of its responder, and no name occurs twice. *)
Lemma registered_names (registrations : list (BaseAgent * bool)) :
  let self := fold_left (fun r x => registry.register_agent (fst x) (snd x) r)
                        registrations new_registry in
  NoDup (Dict.keys (agents self)) /\
  forall k a, In (k, a) (agents self) -> k = name (config a).
Proof.
  cbv zeta.
  assert (G : forall r,
    (NoDup (Dict.keys (agents r)) /\
     forall k a, In (k, a) (agents r) -> k = name (config a)) ->
    NoDup (Dict.keys (agents
      (fold_left (fun r x => registry.register_agent (fst x) (snd x) r)
                 registrations r))) /\
    forall k a,
      In (k, a) (agents
        (fold_left (fun r x => registry.register_agent (fst x) (snd x) r)
                   registrations r)) -> k = name (config a)).
  { induction registrations as [|[b f] rs IH]; intros r H; simpl; [exact H|].
    apply IH. destruct H as [Hnd Hk]. simpl. split.
    - apply dict_set_nodup, Hnd.
    - clear IH Hnd. induction (agents r) as [|[k' a'] d IHd]; simpl.
      + intros k a [E|[]]. injection E as <- <-. reflexivity.
      + intros k a. destruct (String.eqb_spec (name (config b)) k').
        * intros [E|Hin].
          -- injection E as <- <-. reflexivity.
          -- apply Hk. right. exact Hin.
        * intros [E|Hin].
          -- apply Hk. left. exact E.
          -- apply IHd; [|exact Hin].
             intros k0 a0 H0. apply Hk. right. exact H0. }
  apply G. split; [constructor | intros k a []].
Qed.

Lemma summary_fold_get (n : string) (d : Dict.dict BaseAgent)
  (summary : Dict.dict (list string)) :
  NoDup (Dict.keys d) ->
  (forall k a, In (k, a) d -> k = name (config a)) ->
  Dict.get n
    (fold_left
       (fun summary agent =>
          Dict.set (name (config agent))
                   (List.concat (map keywords (get_capabilities agent)))
                   summary)
       (Dict.values d) summary)
  = match Dict.get n d with
    | Some a => Some (List.concat (map keywords (get_capabilities a)))
    | None => Dict.get n summary
    end.
Proof.
  revert summary. induction d as [|[k a] d IH]; intros summary Hnd Hk; simpl.
  - reflexivity.
  - inversion Hnd as [|x l Hout Hnd']; subst.
    rewrite IH; [|exact Hnd' | intros k0 a0 H0; apply Hk; right; exact H0].
    rewrite <- (Hk k a (or_introl eq_refl)).
    destruct (String.eqb_spec n k) as [->|Hne].
    + rewrite (dict_get_absent k d Hout). apply dict_get_set_same.
    + destruct (Dict.get n d); [reflexivity|].
      apply dict_get_set_other. congruence.
Qed.

(** In a registry built by registrations, the summary maps the name of
    every registered responder, and no other name, to the keywords of all
    its capabilities, capability after capability, duplicates kept. *)
Theorem capabilities_summary_lookup
  (registrations : list (BaseAgent * bool)) (n : string) :
  Dict.get n
    (get_capabilities_summary
       (fold_left (fun r x => registry.register_agent (fst x) (snd x) r)
                  registrations new_registry))
  = option_map
      (fun a => List.concat (map keywords (capabilities (config a))))
      (get_agent_by_name
         (fold_left (fun r x => registry.register_agent (fst x) (snd x) r)
                    registrations new_registry) n).
Proof.
  destruct (registered_names registrations) as [Hnd Hk].
  unfold get_capabilities_summary, get_agent_by_name.
  rewrite (summary_fold_get n _ Dict.empty Hnd Hk).
  destruct (Dict.get n _); reflexivity.
Qed.

(** ** The invoker: whole invocations, continued *)

(** The five ways a turn of the loop goes, after the call of the turn left
    the environment [w1]. *)
Lemma retry_loop_cases (mr : Z) (d : float) (n attempt : nat)
  (self : FallbackLLM) (w : World) :
  let w1 := snd (snd (call_active (self, w))) in
  (exists response,
     fst (call_active (self, w)) = Return response /\
     retry_loop mr d (S n) attempt (self, w) = (Return response, (self, w1)))
  \/
  (exists e reason,
     fst (call_active (self, w)) = Raise e /\
     using_fallback self = false /\ fallback_llm self <> None /\
     w1 = record_call Primary w /\
     retry_loop mr d (S n) attempt (self, w)
     = (backend w Fallback (S (calls w)),
        (set_fallback true (Some reason) self, record_call Fallback w1)))
  \/
  (exists e,
     fst (call_active (self, w)) = Raise e /\
     (using_fallback self = true \/ fallback_llm self = None) /\
     (is_credit_error e = true \/ (mr <= Z.of_nat attempt)%Z) /\
     retry_loop mr d (S n) attempt (self, w) = (Raise e, (self, w1)))
  \/
  (exists e seconds,
     fst (call_active (self, w)) = Raise e /\
     is_credit_error e = false /\ (Z.of_nat attempt < mr)%Z /\
     (seconds = d \/ exponential_backoff d attempt = Return seconds) /\
     retry_loop mr d (S n) attempt (self, w)
     = retry_loop mr d n (S attempt)
         (self, record_event (Sleep seconds) w1))
  \/
  (exists e overflow,
     fst (call_active (self, w)) = Raise e /\
     is_credit_error e = false /\ (Z.of_nat attempt < mr)%Z /\
     exponential_backoff d attempt = Raise overflow /\
     retry_loop mr d (S n) attempt (self, w) = (Raise overflow, (self, w1))).
Proof.
  cbv zeta.
  destruct (fst (call_active (self, w))) as [response|e] eqn:Ho.
  - left. exists response. split; [reflexivity|].
    rewrite retry_loop_step.
    pose proof (call_active_self self w) as Hs.
    destruct (call_active (self, w)) as [o [self1 w1]]. simpl in *.
    subst. reflexivity.
  - right.
    destruct (is_credit_error e || (Z.of_nat attempt >=? mr)%Z) eqn:Hc.
    + assert (Hc' : is_credit_error e = true \/ (mr <= Z.of_nat attempt)%Z).
      { apply orb_true_iff in Hc. destruct Hc as [Hc|Hc]; [left; exact Hc|].
        right. rewrite Z.geb_leb in Hc. apply Z.leb_le, Hc. }
      destruct (using_fallback self) eqn:Hu.
      * right. left. exists e. repeat split; try tauto.
        apply loop_reraise; [exact Ho | exact Hc | left; exact Hu].
      * destruct (fallback_llm self) as [client|] eqn:Hf.
        -- left. exists e.
           exists (if is_credit_error e then credit_exhausted
                   else max_retries_exceeded).
           split; [reflexivity|].
           split; [reflexivity|]. split; [discriminate|].
           split; [rewrite (primary_attempt self w Hu); reflexivity|].
           rewrite (primary_attempt self w Hu). cbn [snd].
           apply (loop_switch mr d n attempt self w e);
             [exact Ho | exact Hc | exact Hu |].
           rewrite Hf. discriminate.
        -- right. left. exists e. repeat split; try tauto.
           apply loop_reraise; [exact Ho | exact Hc | right; exact Hf].
    + apply orb_false_iff in Hc. destruct Hc as [Hc Hge].
      assert (Hlt : (Z.of_nat attempt < mr)%Z)
        by (rewrite Z.geb_leb in Hge; apply Z.leb_gt; exact Hge).
      right. right.
      destruct (is_rate_limit e) eqn:Hr.
      * destruct (exponential_backoff d attempt) as [seconds|overflow] eqn:Hw.
        -- left. exists e, seconds.
           split; [reflexivity|]. split; [exact Hc|]. split; [exact Hlt|].
           split; [right; reflexivity|].
           apply (loop_backoff mr d n attempt self w e); assumption.
        -- right. exists e, overflow.
           split; [reflexivity|]. split; [exact Hc|]. split; [exact Hlt|].
           split; [reflexivity|].
           apply (loop_overflow mr d n attempt self w e); assumption.
      * left. exists e, d.
        split; [reflexivity|]. split; [exact Hc|]. split; [exact Hlt|].
        split; [left; reflexivity|].
        apply (loop_flat mr d n attempt self w e); assumption.
Qed.

Lemma retry_loop_budget (mr : Z) (d : float) (n attempt : nat)
  (self : FallbackLLM) (w : World) :
  (calls (snd (snd (retry_loop mr d n attempt (self, w))))
   <= calls w + n + 1)%nat /\
  (sleeps (snd (snd (retry_loop mr d n attempt (self, w))))
   <= sleeps w + Z.to_nat (mr - Z.of_nat attempt))%nat.
Proof.
  revert attempt w. induction n as [|n IH]; intros attempt w.
  - simpl. lia.
  - assert (Hw1 : (calls (snd (snd (call_active (self, w)))) <= calls w + 1)%nat
                  /\ sleeps (snd (snd (call_active (self, w)))) = sleeps w).
    { destruct (call_active_world self w) as [E|[role E]]; rewrite E.
      - lia.
      - rewrite record_call_sleeps. simpl. lia. }
    destruct Hw1 as [Hc Hs].
    destruct (retry_loop_cases mr d n attempt self w)
      as [(response & _ & E)|[(e & reason & _ & _ & _ & Ew & E)
         |[(e & _ & _ & _ & E)|[(e & seconds & _ & _ & Hlt & _ & E)
       |(e & overflow & _ & _ & _ & _ & E)]]]];
      rewrite E; clear E; cbn [fst snd].
    + lia.
    + rewrite record_call_sleeps, Ew, record_call_sleeps. simpl. lia.
    + lia.
    + destruct (IH (S attempt)
                  (record_event (Sleep seconds)
                     (snd (snd (call_active (self, w)))))) as [IHc IHs].
      rewrite record_sleep_sleeps in IHs. cbn [calls record_event] in IHc.
      split; [lia|]. rewrite Hs in IHs.
      replace (Z.to_nat (mr - Z.of_nat attempt))
        with (S (Z.to_nat (mr - Z.of_nat (S attempt)))) by lia.
      lia.
    + lia.
Qed.

(** One invocation makes at most [max_retries + 2] remote calls (the
    turns of the loop and one call to the secondary client) and sleeps at
    most [max_retries] times; with the fallback subsystem disabled it makes
    one call and never sleeps. *)
Theorem agenerate_budget (c : ConfigLoader) (self : FallbackLLM) (w : World) :
  (calls (snd (snd (agenerate c (self, w))))
   <= calls w
      + Z.to_nat (get_or (max_retries (fallback_settings self)) 2%Z + 1) + 1)%nat
  /\
  (sleeps (snd (snd (agenerate c (self, w))))
   <= sleeps w + Z.to_nat (get_or (max_retries (fallback_settings self)) 2%Z))%nat
  /\
  (is_fallback_enabled c = false ->
   calls (snd (snd (agenerate c (self, w)))) = S (calls w) /\
   sleeps (snd (snd (agenerate c (self, w)))) = sleeps w).
Proof.
  unfold agenerate. destruct (is_fallback_enabled c); cbn [negb].
  - cbv [bind get fst].
    destruct (retry_loop_budget
                (get_or (max_retries (fallback_settings self)) 2%Z)
                (get_or (retry_delay (fallback_settings self)) f1_0)
                (Z.to_nat (get_or (max_retries (fallback_settings self)) 2%Z + 1))
                0 self w) as [Hc Hs].
    split; [exact Hc|]. split; [|discriminate].
    rewrite Z.sub_0_r in Hs. exact Hs.
  - unfold call_primary, remote; cbn [fst snd].
    rewrite record_call_sleeps. cbn [calls record_call].
    split; [lia|]. split; [lia|]. intros _. split; reflexivity.
Qed.

(** With a negative [max_retries] the loop has no turn: the invocation
    makes no call and raises "All attempts failed for <name>". *)
Theorem agenerate_negative_retries (c : ConfigLoader) (self : FallbackLLM)
  (w : World) :
  is_fallback_enabled c = true ->
  (get_or (max_retries (fallback_settings self)) 2 < 0)%Z ->
  agenerate c (self, w) = (Raise (all_attempts_failed self), (self, w)).
Proof.
  intros He Hneg. unfold agenerate. rewrite He. cbv [negb bind get fst].
  replace (Z.to_nat (get_or (max_retries (fallback_settings self)) 2%Z + 1))
    with 0%nat by lia.
  reflexivity.
Qed.

Lemma retry_loop_backend (mr : Z) (d : float) (n attempt : nat)
  (self : FallbackLLM) (w : World) :
  backend (snd (snd (retry_loop mr d n attempt (self, w)))) = backend w.
Proof.
  revert attempt w. induction n as [|n IH]; intros attempt w; [reflexivity|].
  destruct (retry_loop_cases mr d n attempt self w)
    as [(response & _ & E)|[(e & reason & _ & _ & _ & Ew & E)
       |[(e & _ & _ & _ & E)|[(e & seconds & _ & _ & Hlt & _ & E)
       |(e & overflow & _ & _ & _ & _ & E)]]]];
    rewrite E; clear E; cbn [fst snd].
  - apply call_active_backend.
  - rewrite Ew. reflexivity.
  - apply call_active_backend.
  - rewrite IH. cbn [backend record_event]. apply call_active_backend.
  - apply call_active_backend.
Qed.

(** A loop that has as many turns left as the retry budget allows ends
    with the answer of its last remote call. *)
Lemma retry_loop_relays (mr : Z) (d : float) (n attempt : nat)
  (self : FallbackLLM) (w : World) :
  (Z.of_nat n + Z.of_nat attempt = mr + 1)%Z -> (1 <= n)%nat ->
  (mr <= 1024)%Z ->
  (using_fallback self = true -> fallback_llm self <> None) ->
  exists role evs k,
    trace (snd (snd (retry_loop mr d n attempt (self, w))))
    = (trace w ++ evs ++ [Call role])%list /\
    calls (snd (snd (retry_loop mr d n attempt (self, w)))) = S k /\
    fst (retry_loop mr d n attempt (self, w)) = backend w role k.
Proof.
  revert attempt w.
  induction n as [|n IH]; intros attempt w Hn H1 Hmr Hinv; [lia|].
  assert (Hcall : exists role,
            call_active (self, w)
            = (backend w role (calls w), (self, record_call role w))).
  { destruct (call_active_cases self w) as [(Hu & Hf & _)|(role & _ & _ & E)].
    - elim (Hinv Hu Hf).
    - exists role. exact E. }
  destruct Hcall as [role Hcall].
  destruct (retry_loop_cases mr d n attempt self w)
    as [(response & Ho & E)|[(e & reason & Ho & _ & _ & Ew & E)
       |[(e & Ho & _ & _ & E)|[(e & seconds & Ho & _ & Hlt & _ & E)
       |(e & overflow & _ & _ & Hlt & Hov & E)]]]];
    rewrite E; clear E; rewrite Hcall in *; cbn [fst snd] in *.
  - exists role, [], (calls w). rewrite Ho. repeat split.
  - exists Fallback, [Call Primary], (S (calls w)). rewrite Ew.
    cbn [trace calls record_call]. rewrite <- app_assoc. repeat split.
  - exists role, [], (calls w). rewrite Ho. repeat split.
  - destruct (IH (S attempt)
                (record_event (Sleep seconds) (record_call role w)))
      as (role' & evs & k & Ht & Hc & Hr);
      [lia | lia | exact Hmr | exact Hinv |].
    exists role', (Call role :: Sleep seconds :: evs), k.
    rewrite Ht, Hc, Hr. cbn [trace backend record_event record_call].
    rewrite <- !app_assoc. repeat split.
  - rewrite exponential_backoff_below in Hov by lia. discriminate Hov.
Qed.

(** With a retry budget between 0 and 1024 whose sleeps all have a finite
    time, and an invoker that has a secondary client whenever it is in the
    fallback state, an invocation always ends with a remote call and its
    result is the answer of that call, reply or error: the invoker itself
    never makes up a result. (From the attempt 1024 on, [2 ** attempt]
    does not convert to a float and the invocation can end with
    [OverflowError] instead.) *)
Theorem agenerate_relays_last_call (c : ConfigLoader) (self : FallbackLLM)
  (w : World) :
  (using_fallback self = true -> fallback_llm self <> None) ->
  (0 <= get_or (max_retries (fallback_settings self)) 2)%Z ->
  finite_sleeps (get_or (max_retries (fallback_settings self)) 2%Z)
                (get_or (retry_delay (fallback_settings self)) f1_0) ->
  exists role evs k,
    trace (snd (snd (agenerate c (self, w))))
    = (trace w ++ evs ++ [Call role])%list /\
    calls (snd (snd (agenerate c (self, w)))) = S k /\
    fst (agenerate c (self, w)) = backend w role k.
Proof.
  intros Hinv Hmr (Hmax & _ & _). unfold agenerate.
  destruct (is_fallback_enabled c); cbn [negb].
  - cbv [bind get fst].
    apply retry_loop_relays; [lia | lia | exact Hmax | exact Hinv].
  - exists Primary, [], (calls w). repeat split.
Qed.

(** The events of the loop: in the fallback state no call goes to the
    primary client; without a secondary client, in the primary state, no
    call goes to the secondary client. *)
Lemma retry_loop_events (mr : Z) (d : float) (n attempt : nat)
  (self : FallbackLLM) (w : World) :
  exists evs,
    trace (snd (snd (retry_loop mr d n attempt (self, w))))
    = (trace w ++ evs)%list /\
    (using_fallback self = true -> ~ In (Call Primary) evs) /\
    (using_fallback self = false -> fallback_llm self = None ->
     ~ In (Call Fallback) evs).
Proof.
  revert attempt w. induction n as [|n IH]; intros attempt w.
  - exists []. simpl. rewrite app_nil_r. repeat split; intros; tauto.
  - assert (Hw1 : exists evs1,
       trace (snd (snd (call_active (self, w)))) = (trace w ++ evs1)%list /\
       (using_fallback self = true -> ~ In (Call Primary) evs1) /\
       (using_fallback self = false -> ~ In (Call Fallback) evs1)).
    { destruct (call_active_cases self w)
        as [(Hu & Hf & E)|(role & Hrole & _ & E)]; rewrite E; cbn [snd].
      - exists []. rewrite app_nil_r. repeat split; intros; tauto.
      - exists [Call role]. split; [reflexivity|].
        split; intros Hu; rewrite Hu in Hrole; subst role;
          intros [H|[]]; discriminate H. }
    destruct Hw1 as (evs1 & Ht1 & Hp1 & Hf1).
    destruct (retry_loop_cases mr d n attempt self w)
      as [(response & _ & E)|[(e & reason & _ & Hu & Hf & Ew & E)
         |[(e & _ & _ & _ & E)|[(e & seconds & _ & _ & Hlt & _ & E)
       |(e & overflow & _ & _ & _ & _ & E)]]]];
      rewrite E; clear E; cbn [fst snd].
    + exists evs1. split; [exact Ht1|]. split; [exact Hp1|].
      intros H _. apply Hf1, H.
    + exists [Call Primary; Call Fallback]. rewrite Ew.
      cbn [trace record_call]. rewrite <- app_assoc.
      split; [reflexivity|]. split.
      * intros H. rewrite H in Hu. discriminate.
      * intros _ H. elim (Hf H).
    + exists evs1. split; [exact Ht1|]. split; [exact Hp1|].
      intros H _. apply Hf1, H.
    + destruct (IH (S attempt)
                  (record_event (Sleep seconds)
                     (snd (snd (call_active (self, w))))))
        as (evs & Ht & Hp & Hf).
      exists (evs1 ++ Sleep seconds :: evs)%list.
      rewrite Ht. cbn [trace record_event]. rewrite Ht1, <- !app_assoc.
      split; [reflexivity|]. split.
      * intros Hu Hin. apply in_app_or in Hin.
        destruct Hin as [Hin|[Hin|Hin]];
          [exact (Hp1 Hu Hin) | discriminate Hin | exact (Hp Hu Hin)].
      * intros Hu Hnone Hin. apply in_app_or in Hin.
        destruct Hin as [Hin|[Hin|Hin]];
          [exact (Hf1 Hu Hin) | discriminate Hin | exact (Hf Hu Hnone Hin)].
    + exists evs1. split; [exact Ht1|]. split; [exact Hp1|].
      intros H _. apply Hf1, H.
Qed.

(** Once in the fallback state, and while the fallback subsystem is
    enabled, an invocation never calls the primary client. *)
Theorem fallback_state_never_calls_primary (c : ConfigLoader)
  (self : FallbackLLM) (w : World) :
  is_fallback_enabled c = true ->
  using_fallback self = true ->
  exists evs,
    trace (snd (snd (agenerate c (self, w)))) = (trace w ++ evs)%list /\
    ~ In (Call Primary) evs.
Proof.
  intros He Hu. unfold agenerate. rewrite He. cbv [negb bind get fst].
  destruct (retry_loop_events
              (get_or (max_retries (fallback_settings self)) 2%Z)
              (get_or (retry_delay (fallback_settings self)) f1_0)
              (Z.to_nat (get_or (max_retries (fallback_settings self)) 2%Z + 1))
              0 self w) as (evs & Ht & Hp & _).
  exists evs. split; [exact Ht | exact (Hp Hu)].
Qed.

(** An invoker without a secondary client (one built while the fallback
    subsystem was disabled) never enters the fallback state: [agenerate]
    leaves it as it is, whatever the configuration at the time of the
    call, and never calls a secondary client; [force_fallback] and
    [reset_fallback] change nothing. *)
Theorem no_secondary_never_falls_back :
  (forall c name type,
     is_fallback_enabled c = false ->
     fallback_llm (init c name type) = None /\
     using_fallback (init c name type) = false) /\
  (forall c self w,
     fallback_llm self = None -> using_fallback self = false ->
     fst (snd (agenerate c (self, w))) = self /\
     exists evs,
       trace (snd (snd (agenerate c (self, w)))) = (trace w ++ evs)%list /\
       ~ In (Call Fallback) evs) /\
  (forall reason self,
     fallback_llm self = None -> using_fallback self = false ->
     force_fallback reason self = self /\ reset_fallback self = self).
Proof.
  split; [|split].
  - intros c name type He. unfold init. simpl. rewrite He. split; reflexivity.
  - intros c self w Hnone Hu. split.
    + destruct (agenerate_self c self w) as [E|(_ & Hf & _)];
        [exact E | elim (Hf Hnone)].
    + unfold agenerate. destruct (is_fallback_enabled c); cbn [negb].
      * cbv [bind get fst].
        destruct (retry_loop_events
                    (get_or (max_retries (fallback_settings self)) 2%Z)
                    (get_or (retry_delay (fallback_settings self)) f1_0)
                    (Z.to_nat
                       (get_or (max_retries (fallback_settings self)) 2%Z + 1))
                    0 self w) as (evs & Ht & _ & Hf).
        exists evs. split; [exact Ht | exact (Hf Hu Hnone)].
      * exists [Call Primary]. split; [reflexivity|].
        intros [H|[]]. discriminate H.
  - intros reason self Hnone Hu. unfold force_fallback, reset_fallback.
    rewrite Hnone, Hu. split; reflexivity.
Qed.

(** The loop when every call to the primary client fails without a credit
    keyword, from the primary state. *)
Lemma retry_loop_all_fail (mr : Z) (d : float) (n attempt : nat)
  (self : FallbackLLM) (w : World) :
  (Z.of_nat n + Z.of_nat attempt = mr + 1)%Z -> (1 <= n)%nat ->
  (mr <= 1024)%Z ->
  using_fallback self = false ->
  (forall k, (calls w <= k)%nat ->
     exists e, backend w Primary k = Raise e /\ is_credit_error e = false) ->
  sleeps (snd (snd (retry_loop mr d n attempt (self, w))))
  = (sleeps w + n - 1)%nat /\
  (fallback_llm self = None ->
   fst (retry_loop mr d n attempt (self, w))
   = backend w Primary (calls w + n - 1) /\
   fst (snd (retry_loop mr d n attempt (self, w))) = self /\
   calls (snd (snd (retry_loop mr d n attempt (self, w))))
   = (calls w + n)%nat) /\
  (fallback_llm self <> None ->
   fst (retry_loop mr d n attempt (self, w))
   = backend w Fallback (calls w + n) /\
   fst (snd (retry_loop mr d n attempt (self, w)))
   = set_fallback true (Some max_retries_exceeded) self /\
   calls (snd (snd (retry_loop mr d n attempt (self, w))))
   = (calls w + n + 1)%nat).
Proof.
  revert attempt w.
  induction n as [|n IH]; intros attempt w Hn H1 Hmr Hu Hfail; [lia|].
  destruct (Hfail (calls w) (le_n _)) as (e & He & Hc).
  pose proof (primary_attempt self w Hu) as Hcall.
  assert (Ho : fst (call_active (self, w)) = Raise e)
    by (rewrite Hcall; exact He).
  destruct (Z_lt_le_dec (Z.of_nat attempt) mr) as [Hlt|Hge].
  - assert (Hstep : exists seconds,
       retry_loop mr d (S n) attempt (self, w)
       = retry_loop mr d n (S attempt)
           (self, record_event (Sleep seconds) (record_call Primary w))).
    { destruct (is_rate_limit e) eqn:Hr.
      - eexists.
        rewrite (loop_backoff mr d n attempt self w e _ Ho Hc Hlt Hr
                   (exponential_backoff_below d attempt ltac:(lia))), Hcall.
        reflexivity.
      - eexists.
        rewrite (loop_flat mr d n attempt self w e Ho Hc Hlt Hr), Hcall.
        reflexivity. }
    destruct Hstep as [seconds Hstep]. rewrite Hstep.
    destruct (IH (S attempt)
                (record_event (Sleep seconds) (record_call Primary w)))
      as (Hs & Hnone & Hsome); [lia | lia | exact Hmr | exact Hu | |].
    + intros k Hk. apply Hfail. cbn [calls record_event record_call] in Hk.
      lia.
    + rewrite record_sleep_sleeps, record_call_sleeps in Hs.
      cbn [calls backend record_event record_call] in *.
      split; [lia|]. split.
      * intros Hf. destruct (Hnone Hf) as (Hr & Hst & Hcs).
        rewrite Hr, Hst, Hcs. repeat split; [f_equal; lia | lia].
      * intros Hf. destruct (Hsome Hf) as (Hr & Hst & Hcs).
        rewrite Hr, Hst, Hcs. repeat split; [f_equal; lia | lia].
  - assert (n = 0)%nat by lia. subst n.
    assert (Hcond : is_credit_error e || (Z.of_nat attempt >=? mr)%Z = true).
    { rewrite Hc, Z.geb_leb. apply Z.leb_le, Hge. }
    split; [|split].
    + destruct (fallback_llm self) as [client|] eqn:Hf.
      * rewrite (loop_switch mr d 0 attempt self w e Ho Hcond Hu)
          by (rewrite Hf; discriminate).
        cbn [snd]. rewrite !record_call_sleeps. lia.
      * rewrite (loop_reraise mr d 0 attempt self w e Ho Hcond
                   (or_intror Hf)), Hcall.
        cbn [snd]. rewrite record_call_sleeps. lia.
    + intros Hf.
      rewrite (loop_reraise mr d 0 attempt self w e Ho Hcond (or_intror Hf)),
        Hcall.
      cbn [fst snd calls record_call].
      replace (calls w + 1 - 1)%nat with (calls w) by lia. rewrite He.
      repeat split. lia.
    + intros Hf.
      rewrite (loop_switch mr d 0 attempt self w e Ho Hcond Hu Hf), Hc.
      cbn [fst snd calls record_call].
      repeat split; [f_equal; lia | lia].
Qed.

Lemma agenerate_enabled (c : ConfigLoader) (self : FallbackLLM) (w : World) :
  is_fallback_enabled c = true ->
  agenerate c (self, w)
  = retry_loop (get_or (max_retries (fallback_settings self)) 2%Z)
      (get_or (retry_delay (fallback_settings self)) f1_0)
      (Z.to_nat (get_or (max_retries (fallback_settings self)) 2%Z + 1)) 0
      (self, w).
Proof. intros H. unfold agenerate. rewrite H. reflexivity. Qed.

(** Exhausting the retries. With the fallback subsystem enabled, from
    the primary state, with a retry budget between 0 and 1024 whose sleeps
    all have a finite time: if every call to the primary client fails with
    an error without a credit keyword, the invoker calls the primary client
    [max_retries + 1] times and sleeps [max_retries] times. Without a
    secondary client it then raises the error of the last call and stays as
    it was, in the primary state; with one it goes to the fallback state,
    [using_fallback] true and [fallback_reason] "max_retries_exceeded",
    and returns the answer of one call to the secondary client. *)
Theorem agenerate_exhaustion (c : ConfigLoader) (self : FallbackLLM)
  (w : World) :
  is_fallback_enabled c = true ->
  (0 <= get_or (max_retries (fallback_settings self)) 2)%Z ->
  finite_sleeps (get_or (max_retries (fallback_settings self)) 2%Z)
                (get_or (retry_delay (fallback_settings self)) f1_0) ->
  using_fallback self = false ->
  (forall k, (calls w <= k)%nat ->
     exists e, backend w Primary k = Raise e /\ is_credit_error e = false) ->
  sleeps (snd (snd (agenerate c (self, w))))
  = (sleeps w
     + Z.to_nat (get_or (max_retries (fallback_settings self)) 2%Z))%nat /\
  (fallback_llm self = None ->
   fst (agenerate c (self, w))
   = backend w Primary
       (calls w + Z.to_nat (get_or (max_retries (fallback_settings self)) 2%Z))
   /\
   fst (snd (agenerate c (self, w))) = self /\
   calls (snd (snd (agenerate c (self, w))))
   = (calls w
      + Z.to_nat (get_or (max_retries (fallback_settings self)) 2%Z) + 1)%nat)
  /\
  (fallback_llm self <> None ->
   fst (agenerate c (self, w))
   = backend w Fallback
       (calls w
        + Z.to_nat (get_or (max_retries (fallback_settings self)) 2%Z) + 1)
   /\
   fst (snd (agenerate c (self, w)))
   = set_fallback true (Some max_retries_exceeded) self /\
   using_fallback (fst (snd (agenerate c (self, w)))) = true /\
   fallback_reason (fst (snd (agenerate c (self, w))))
   = Some "max_retries_exceeded" /\
   calls (snd (snd (agenerate c (self, w))))
   = (calls w
      + Z.to_nat (get_or (max_retries (fallback_settings self)) 2%Z) + 2)%nat).
Proof.
  intros He Hmr (Hmax & _ & _) Hu Hfail.
  rewrite (agenerate_enabled c self w He).
  set (mr := get_or (max_retries (fallback_settings self)) 2%Z) in *.
  destruct (retry_loop_all_fail mr
              (get_or (retry_delay (fallback_settings self)) f1_0)
              (Z.to_nat (mr + 1)) 0 self w) as (Hs & Hnone & Hsome);
    [lia | lia | exact Hmax | exact Hu | exact Hfail |].
  split; [rewrite Hs; lia|]. split.
  - intros Hf. destruct (Hnone Hf) as (Hr & Hst & Hcs).
    rewrite Hr, Hst, Hcs. repeat split; [f_equal; lia | lia].
  - intros Hf. destruct (Hsome Hf) as (Hr & Hst & Hcs).
    rewrite Hr, Hst, Hcs. repeat split; [f_equal; lia | lia].
Qed.

(** ** Forcing and resetting *)

Lemma set_fallback_undo (reason : string) (self : FallbackLLM) :
  using_fallback self = false -> fallback_reason self = None ->
  set_fallback false None (set_fallback true (Some reason) self) = self.
Proof.
  destruct self; simpl; intros -> ->. reflexivity.
Qed.

Lemma reset_fallback_idem (self : FallbackLLM) :
  reset_fallback (reset_fallback self) = reset_fallback self.
Proof.
  unfold reset_fallback. destruct (using_fallback self) eqn:E;
    [reflexivity | rewrite E; reflexivity].
Qed.

Lemma force_fallback_idem (reason : string) (self : FallbackLLM) :
  force_fallback reason (force_fallback reason self)
  = force_fallback reason self.
Proof.
  unfold force_fallback.
  destruct (is_some (fallback_llm self) && negb (using_fallback self)) eqn:E.
  - simpl. rewrite andb_false_r. reflexivity.
  - rewrite E. reflexivity.
Qed.

(** [force_fallback] switches an invoker that is in the primary state and
    has a secondary client, recording the reason given; it changes nothing
    in the fallback state, so the first reason is kept; and
    [reset_fallback] undoes it on an invoker that was in the primary state
    with no reason recorded. *)
Theorem force_then_reset :
  (forall reason self,
     fallback_llm self <> None -> using_fallback self = false ->
     using_fallback (force_fallback reason self) = true /\
     fallback_reason (force_fallback reason self) = Some reason) /\
  (forall reason self,
     using_fallback self = true -> force_fallback reason self = self) /\
  (forall first second self,
     force_fallback second (force_fallback first self)
     = force_fallback first self) /\
  (forall reason self,
     using_fallback self = false -> fallback_reason self = None ->
     reset_fallback (force_fallback reason self) = self).
Proof.
  split; [|split; [|split]].
  - intros reason self Hf Hu. unfold force_fallback. rewrite Hu.
    destruct (fallback_llm self); [|now elim Hf]. split; reflexivity.
  - intros reason self Hu. unfold force_fallback.
    rewrite Hu, andb_false_r. reflexivity.
  - intros first second self. unfold force_fallback.
    destruct (is_some (fallback_llm self) && negb (using_fallback self)) eqn:E.
    + simpl. rewrite andb_false_r. reflexivity.
    + rewrite E. reflexivity.
  - intros reason self Hu Hr. unfold force_fallback, reset_fallback.
    rewrite Hu, andb_true_r.
    destruct (is_some (fallback_llm self)).
    + simpl. apply set_fallback_undo; assumption.
    + rewrite Hu. reflexivity.
Qed.

(** ** The manager: bulk operations *)

Lemma fold_update_apply (f : FallbackLLM -> FallbackLLM) (l : list nat)
  (h : store) (a : nat) :
  (forall x, f (f x) = f x) ->
  fold_left (fun h a => update h a (f (h a))) l h a
  = if in_dec Nat.eq_dec a l then f (h a) else h a.
Proof.
  intros Hf. revert h. induction l as [|x l IH]; intros h.
  - reflexivity.
  - cbn [fold_left]. rewrite IH. unfold update.
    destruct (in_dec Nat.eq_dec a (x :: l)) as [Hi|Hn];
      destruct (in_dec Nat.eq_dec a l) as [Hi'|Hn'];
      destruct (Nat.eqb_spec a x) as [E|E]; subst;
      rewrite ?Hf; try reflexivity; exfalso; simpl in *; intuition congruence.
Qed.

Lemma filter_all_length {A} (p : A -> bool) (l : list A) :
  (forall a, In a l -> p a = true) -> List.length (filter p l) = List.length l.
Proof.
  induction l as [|a l IH]; intros H; simpl; [reflexivity|].
  rewrite (H a (or_introl eq_refl)). simpl. f_equal.
  apply IH. intros x Hx. apply H. right. exact Hx.
Qed.

Lemma filter_none_length {A} (p : A -> bool) (l : list A) :
  (forall a, In a l -> p a = false) -> List.length (filter p l) = 0%nat.
Proof.
  induction l as [|a l IH]; intros H; simpl; [reflexivity|].
  rewrite (H a (or_introl eq_refl)).
  apply IH. intros x Hx. apply H. right. exact Hx.
Qed.

Lemma status_fallback_count (c : ConfigLoader) (h : store)
  (self : FallbackManager) :
  agents_using_fallback (get_system_status c h self)
  = List.length (filter (fun a => using_fallback (h a))
                        (Dict.values (fallback_llm.agents self))) /\
  total_agents (get_system_status c h self)
  = List.length (Dict.values (fallback_llm.agents self)).
Proof.
  unfold get_system_status.
  destruct (fold_add_status_counts c h (Dict.items (fallback_llm.agents self))
              {| total_agents := Dict.len (fallback_llm.agents self);
                 agents_using_fallback := 0;
                 agents_status := Dict.empty |}) as [Ht Hu].
  rewrite Ht, Hu. split; [reflexivity|].
  simpl. unfold Dict.len, Dict.values. rewrite length_map. reflexivity.
Qed.

(** [reset_all_fallbacks] resets every registered invoker and no other
    one; afterwards the system status counts no invoker in the fallback
    state. *)
Theorem reset_all_fallbacks_clears (c : ConfigLoader) (h : store)
  (self : FallbackManager) :
  (forall a, In a (Dict.values (fallback_llm.agents self)) ->
     reset_all_fallbacks h self a = reset_fallback (h a) /\
     using_fallback (reset_all_fallbacks h self a) = false) /\
  (forall a, ~ In a (Dict.values (fallback_llm.agents self)) ->
     reset_all_fallbacks h self a = h a) /\
  agents_using_fallback
    (get_system_status c (reset_all_fallbacks h self) self) = 0%nat.
Proof.
  assert (Hin : forall a, In a (Dict.values (fallback_llm.agents self)) ->
            reset_all_fallbacks h self a = reset_fallback (h a)).
  { intros a Ha. unfold reset_all_fallbacks.
    rewrite (fold_update_apply reset_fallback _ h a reset_fallback_idem).
    destruct (in_dec Nat.eq_dec a _) as [_|Hn]; [reflexivity | elim (Hn Ha)]. }
  assert (Hclear : forall a, In a (Dict.values (fallback_llm.agents self)) ->
            using_fallback (reset_all_fallbacks h self a) = false).
  { intros a Ha. rewrite (Hin a Ha). unfold reset_fallback.
    destruct (using_fallback (h a)) eqn:E; [reflexivity | exact E]. }
  split; [|split].
  - intros a Ha. split; [apply Hin, Ha | apply Hclear, Ha].
  - intros a Ha. unfold reset_all_fallbacks.
    rewrite (fold_update_apply reset_fallback _ h a reset_fallback_idem).
    destruct (in_dec Nat.eq_dec a _) as [Hi|_]; [elim (Ha Hi) | reflexivity].
  - rewrite (proj1 (status_fallback_count c _ self)).
    apply filter_none_length. exact Hclear.
Qed.

(** [force_all_fallbacks] applies [force_fallback] to every registered
    invoker and to no other one; when each registered invoker has a
    secondary client, the system status then counts all of them in the
    fallback state. *)
Theorem force_all_fallbacks_switches (c : ConfigLoader) (reason : string)
  (h : store) (self : FallbackManager) :
  (forall a, In a (Dict.values (fallback_llm.agents self)) ->
     force_all_fallbacks reason h self a = force_fallback reason (h a)) /\
  (forall a, ~ In a (Dict.values (fallback_llm.agents self)) ->
     force_all_fallbacks reason h self a = h a) /\
  ((forall a, In a (Dict.values (fallback_llm.agents self)) ->
      fallback_llm (h a) <> None) ->
   agents_using_fallback
     (get_system_status c (force_all_fallbacks reason h self) self)
   = total_agents
       (get_system_status c (force_all_fallbacks reason h self) self)).
Proof.
  assert (Hin : forall a, In a (Dict.values (fallback_llm.agents self)) ->
            force_all_fallbacks reason h self a = force_fallback reason (h a)).
  { intros a Ha. unfold force_all_fallbacks.
    rewrite (fold_update_apply (force_fallback reason) _ h a
               (force_fallback_idem reason)).
    destruct (in_dec Nat.eq_dec a _) as [_|Hn]; [reflexivity | elim (Hn Ha)]. }
  split; [exact Hin|]. split.
  - intros a Ha. unfold force_all_fallbacks.
    rewrite (fold_update_apply (force_fallback reason) _ h a
               (force_fallback_idem reason)).
    destruct (in_dec Nat.eq_dec a _) as [Hi|_]; [elim (Ha Hi) | reflexivity].
  - intros Hsec.
    destruct (status_fallback_count c (force_all_fallbacks reason h self) self)
      as [Hu Ht].
    rewrite Hu, Ht. apply filter_all_length.
    intros a Ha. rewrite (Hin a Ha). unfold force_fallback.
    destruct (fallback_llm (h a)) eqn:Hf; [|elim (Hsec a Ha Hf)].
    destruct (using_fallback (h a)) eqn:E; [exact E | reflexivity].
Qed.

(** ** The conversation history *)

(** [add_to_history] appends the exchange and then drops messages from
    the front only. With a positive bound the history has at most that
    many messages; with the bound 0 nothing is ever dropped (the slice
    [history[-0:]] is the whole list); with a negative bound the oldest
    [-bound] messages are dropped each time. The rest of the responder is
    not touched. *)
Theorem add_to_history_bound (c : ConfigLoader) (human_msg ai_msg : string)
  (self : BaseAgent) :
  (exists dropped,
     (conversation_history self ++ [HumanMessage human_msg; AIMessage ai_msg])%list
     = (dropped
        ++ conversation_history (add_to_history c human_msg ai_msg self))%list)
  /\
  ((0 < max_conversation_history (get_system_config c))%Z ->
   List.length (conversation_history (add_to_history c human_msg ai_msg self))
   = Nat.min (List.length (conversation_history self) + 2)
             (Z.to_nat (max_conversation_history (get_system_config c))))
  /\
  (max_conversation_history (get_system_config c) = 0%Z ->
   conversation_history (add_to_history c human_msg ai_msg self)
   = (conversation_history self
      ++ [HumanMessage human_msg; AIMessage ai_msg])%list)
  /\
  ((max_conversation_history (get_system_config c) < 0)%Z ->
   conversation_history (add_to_history c human_msg ai_msg self)
   = skipn (Z.to_nat (- max_conversation_history (get_system_config c)))
       (conversation_history self
        ++ [HumanMessage human_msg; AIMessage ai_msg])%list)
  /\
  config (add_to_history c human_msg ai_msg self) = config self /\
  llm (add_to_history c human_msg ai_msg self) = llm self.
Proof.
  unfold add_to_history.
  set (h := (conversation_history self
             ++ [HumanMessage human_msg; AIMessage ai_msg])%list).
  set (m := max_conversation_history (get_system_config c)).
  assert (Hlen : List.length h = (List.length (conversation_history self) + 2)%nat)
    by (unfold h; rewrite length_app; reflexivity).
  destruct (Z.ltb_spec m (Z.of_nat (List.length h))) as [Hlt|Hge];
    cbn [conversation_history set_history config llm].
  - unfold slice_from. destruct (Z.ltb_spec (- m) 0) as [Hneg|Hpos].
    + split; [|split; [|split; [|split; [|split]]]]; try reflexivity;
        try lia.
      * eexists. symmetry. apply firstn_skipn.
      * intros _. rewrite length_skipn. lia.
    + split; [|split; [|split; [|split; [|split]]]]; try reflexivity;
        try lia.
      * eexists. symmetry. apply firstn_skipn.
      * intros ->. reflexivity.
  - split; [|split; [|split; [|split; [|split]]]]; try reflexivity; try lia.
    + exists []. reflexivity.
Qed.

(** ** The router: the routing decision *)

(** The router delegates exactly when the registry proposes a responder
    that is not named "orchestrator" with a confidence above the
    threshold. A delegation that succeeds returns the reply behind the
    routing marker, records the exchange in the history of the router and
    makes no call with the router's own invoker. In every other case the
    delegate is not consulted: the result is that of direct handling. *)
Theorem process_routing_decision (c : ConfigLoader) (reg : AgentRegistry)
  (delegate : BaseAgent -> string -> outcome string) (message : string)
  (self : BaseAgent) (w : World) :
  (forall best response,
     fst (find_best_agent reg message) = Some best ->
     name (config best) <> "orchestrator" ->
     flt (routing_threshold c) (snd (find_best_agent reg message)) = true ->
     delegate best message = Return response ->
     process c reg delegate message (self, w)
     = (Return (routed best response),
        (add_to_history c message (routed best response) self, w)))
  /\
  ((fst (find_best_agent reg message) = None \/
    (exists best, fst (find_best_agent reg message) = Some best /\
                  name (config best) = "orchestrator") \/
    flt (routing_threshold c) (snd (find_best_agent reg message)) = false) ->
   process c reg delegate message (self, w)
   = _handle_directly c message (self, w)).
Proof.
  split.
  - intros best response Hb Hname Hconf Hd. unfold process.
    rewrite Hb, Hconf.
    destruct (String.eqb_spec (name (config best)) "orchestrator")
      as [E|_]; [elim (Hname E)|].
    cbv [negb andb try_except bind lift_outcome modify ret fst snd].
    rewrite Hd. reflexivity.
  - intros H. unfold process.
    destruct (fst (find_best_agent reg message)) as [best|] eqn:Hb;
      [|reflexivity].
    destruct H as [H|[(best' & Hb' & Hname)|H]].
    + discriminate H.
    + injection Hb' as <-. rewrite Hname. reflexivity.
    + rewrite H, andb_false_r. reflexivity.
Qed.

Lemma routing_threshold_default (c : ConfigLoader) :
  (routing_confidence_threshold (get_agent_config c "main" "main") = None \/
   exists s,
     routing_confidence_threshold (get_agent_config c "main" "main")
     = Some (S754_zero s)) ->
  routing_threshold c = f0_4.
Proof.
  unfold routing_threshold. intros [->|[s ->]]; reflexivity.
Qed.

(** With the routing threshold left unset, or set to zero (which [or 0.4]
    replaces by 0.4), a message on which every registered responder
    scores below 0.3 is not handled by the router itself when a default
    responder is set: it is delegated to the default responder, whose
    fixed confidence 0.5 is above the threshold. *)
Theorem unmatched_message_goes_to_default (c : ConfigLoader)
  (reg : AgentRegistry) (delegate : BaseAgent -> string -> outcome string)
  (message : string) (self : BaseAgent) (w : World) (default : BaseAgent)
  (response : string) :
  (routing_confidence_threshold (get_agent_config c "main" "main") = None \/
   exists s,
     routing_confidence_threshold (get_agent_config c "main" "main")
     = Some (S754_zero s)) ->
  fallback_agent reg = Some default ->
  name (config default) <> "orchestrator" ->
  (forall a, In a (Dict.values (agents reg)) ->
     flt (can_handle a message) f0_3 = true) ->
  delegate default message = Return response ->
  process c reg delegate message (self, w)
  = (Return (routed default response),
     (add_to_history c message (routed default response) self, w)).
Proof.
  intros Ht Hd Hname Hlow Hresp.
  assert (Hfind : find_best_agent reg message = (Some default, f0_5)).
  { unfold find_best_agent.
    rewrite (fold_better_below message f0_3 _ (None, f0_0) eq_refl Hlow).
    rewrite Hd. reflexivity. }
  unfold process. rewrite Hfind. cbn [fst snd].
  rewrite (routing_threshold_default c Ht).
  destruct (String.eqb_spec (name (config default)) "orchestrator")
    as [E|_]; [elim (Hname E)|].
  change (flt f0_4 f0_5) with true.
  cbv [negb andb try_except bind lift_outcome modify ret fst snd].
  rewrite Hresp. reflexivity.
Qed.

(** ** Status snapshots *)

(** For an invoker that satisfies the invariant, the status names the
    model in use: in the fallback state its [fallback_model] is the
    current model, and in the primary state its [primary_model] is, and
    nobody is to be notified. The status copies the state and the reason
    as they are. *)
Theorem status_names_current_model (c : ConfigLoader) (self : FallbackLLM) :
  fallback_invariant self ->
  (using_fallback self = true ->
   status_fallback_model (get_status c self) = Some (get_current_model self)) /\
  (using_fallback self = false ->
   status_primary_model (get_status c self) = get_current_model self /\
   should_notify_fallback self = false) /\
  status_using_fallback (get_status c self) = using_fallback self /\
  status_fallback_reason (get_status c self) = fallback_reason self.
Proof.
  intros Hinv. unfold get_status, get_current_model, should_notify_fallback.
  cbn [status_fallback_model status_primary_model status_using_fallback
       status_fallback_reason].
  split; [|split; [|split; reflexivity]].
  - intros Hu. destruct (Hinv Hu) as [_ Hf]. rewrite Hu.
    destruct (fallback_llm self); [reflexivity | now elim Hf].
  - intros Hu. rewrite Hu. split; reflexivity.
Qed.

Lemma status_names_current_model_witness :
  status_fallback_model (get_status sample.cfg sample.forced)
  = Some (get_current_model sample.forced).
Proof.
  assert (Hinv : fallback_invariant sample.forced)
    by (intros _; split; discriminate).
  apply (proj1 (status_names_current_model sample.cfg sample.forced Hinv)).
  reflexivity.
Defined.

(** Registering an invoker with the manager makes its address the one
    found under the name and leaves the other names as they were; the
    system status counts one more invoker unless the name was taken. *)
Theorem manager_register_overwrites (c : ConfigLoader) (h : store)
  (agent_name : string) (a : nat) (self : FallbackManager) :
  Dict.get agent_name
    (fallback_llm.agents (fallback_llm.register_agent agent_name a self))
  = Some a /\
  (forall n, n <> agent_name ->
     Dict.get n
       (fallback_llm.agents (fallback_llm.register_agent agent_name a self))
     = Dict.get n (fallback_llm.agents self)) /\
  total_agents
    (get_system_status c h (fallback_llm.register_agent agent_name a self))
  = (if is_some (Dict.get agent_name (fallback_llm.agents self))
     then total_agents (get_system_status c h self)
     else S (total_agents (get_system_status c h self))).
Proof.
  split; [apply dict_get_set_same|]. split.
  - intros n Hn. apply dict_get_set_other. congruence.
  - rewrite !(proj2 (status_fallback_count c h _)).
    unfold Dict.values. rewrite !length_map.
    apply (dict_set_len agent_name a (fallback_llm.agents self)).
Qed.

Lemma manager_register_overwrites_witness :
  Dict.get "general"
    (fallback_llm.agents (fallback_llm.register_agent "coding" 5 sample.manager))
  = Some 1%nat /\
  total_agents
    (get_system_status sample.cfg sample.heap
       (fallback_llm.register_agent "coding" 5 sample.manager))
  = 2%nat.
Proof.
  destruct (manager_register_overwrites sample.cfg sample.heap "coding" 5
              sample.manager) as (_ & Hother & Hcount).
  split.
  - rewrite (Hother "general"); [reflexivity | discriminate].
  - exact Hcount.
Defined.

(** ** The attribution of a reply in [chat] *)

Import PyStr2.

Lemma contains_cons (old : string) (c : ascii) (t : string) :
  contains old (String c t) = prefix old (String c t) || contains old t.
Proof. reflexivity. Qed.

Lemma replace_absent (old new s : string) :
  contains old s = false -> replace_from old new 0 s = s.
Proof.
  induction s as [|c t IH]; intros H; [reflexivity|].
  rewrite contains_cons in H. apply orb_false_iff in H.
  destruct H as [Hp Hc]. cbn [replace_from]. rewrite Hp, (IH Hc).
  reflexivity.
Qed.

Lemma before_app (sep : ascii) (s rest : string) :
  contains (String sep "") s = false ->
  before sep (s ++ String sep rest) = s.
Proof.
  induction s as [|c t IH]; intros H.
  - simpl. rewrite Ascii.eqb_refl. reflexivity.
  - rewrite contains_cons in H. apply orb_false_iff in H.
    destruct H as [Hp Hc]. simpl in Hp. simpl.
    destruct (Ascii.eqb_spec c sep) as [->|Hne].
    + destruct (ascii_dec sep sep) as [_|n]; [|now elim n].
      destruct t; discriminate Hp.
    + rewrite (IH Hc). reflexivity.
Qed.

(** The attribution reads back the routing marker. For a reply built by
    the router from a delegation, [agent_used] is the name of the
    responder, provided the name contains neither "]" nor the marker
    "[Routed to "; a reply that does not start with the marker is
    attributed to "orchestrator". *)
Theorem agent_used_reads_marker :
  (forall agent response,
     contains "]" (name (config agent)) = false ->
     contains "[Routed to " (name (config agent)) = false ->
     main.agent_used (orchestrator.routed agent response)
     = name (config agent)) /\
  (forall reply,
     startswith "[Routed to " reply = false ->
     main.agent_used reply = "orchestrator").
Proof.
  split.
  - intros agent response Hb Hm. unfold main.agent_used, orchestrator.routed.
    set (n := name (config agent)) in *.
    change (startswith main.routed_marker ("[Routed to " ++ n ++ "]"
              ++ newline ++ newline ++ response))
      with (prefix "" (n ++ "]" ++ newline ++ newline ++ response)).
    replace (prefix "" (n ++ "]" ++ newline ++ newline ++ response))
      with true by (destruct (n ++ "]" ++ newline ++ newline ++ response);
                    reflexivity).
    change (before "]" ("[Routed to " ++ n ++ "]" ++ newline ++ newline
                        ++ response))
      with ("[Routed to "
            ++ before "]" (n ++ String "]" (newline ++ newline ++ response))).
    rewrite (before_app "]" n _ Hb).
    unfold replace, main.routed_marker.
    change (replace_from "[Routed to " "" 0 ("[Routed to " ++ n))
      with (if prefix "" n then replace_from "[Routed to " "" 0 n
            else String "[" (replace_from "[Routed to " "" 0
                               ("Routed to " ++ n))).
    replace (prefix "" n) with true by (destruct n; reflexivity).
    apply replace_absent, Hm.
  - intros reply H. unfold main.agent_used, main.routed_marker.
    rewrite H. reflexivity.
Qed.

Lemma agent_used_reads_marker_witness :
  main.agent_used (orchestrator.routed sample.coding "Use a guard.")
  = "coding".
Proof.
  apply (proj1 agent_used_reads_marker sample.coding "Use a guard.");
    reflexivity.
Defined.

(** A name with a closing bracket is cut at the bracket. *)
Example agent_used_cut :
  main.agent_used
    (orchestrator.routed (sample.responder "sql]expert" "personas" []) "ok")
  = "sql".
Proof. reflexivity. Qed.

(** ** The assistants *)

(** The [process] of an assistant never raises. When the invocation of
    its model raises an error, or the result has no generation, the reply
    is the apology of the assistant followed by the text of the error;
    otherwise it is the trimmed text of the first generation, and the
    exchange is added to the history. *)
Theorem assistant_process_never_raises (apology_prefix : string)
  (c : ConfigLoader) (message : string) (st : BaseAgent * World) :
  (exists text st',
     assistants.assistant_process apology_prefix c message st
     = (Return text, st')) /\
  (forall e st',
     llm_agenerate c st = (Raise e, st') ->
     assistants.assistant_process apology_prefix c message st
     = (Return (apology_prefix ++ exn_msg e), st')) /\
  (forall response st',
     llm_agenerate c st = (Return response, st') ->
     match generations response with
     | (text :: _) :: _ =>
         assistants.assistant_process apology_prefix c message st
         = (Return (strip text),
            (add_to_history c message (strip text) (fst st'), snd st'))
     | _ =>
         assistants.assistant_process apology_prefix c message st
         = (Return (apology_prefix ++ exn_msg index_error), st')
     end).
Proof.
  unfold assistants.assistant_process, try_except, bind, first_text.
  destruct (llm_agenerate c st) as [[response|e] st1] eqn:E.
  - destruct (generations response) as [|[|text l] ll] eqn:G;
      (split; [|split]);
      try (eexists; eexists; reflexivity);
      try (intros e st' HE; discriminate HE);
      intros response' st' HE; injection HE as <- <-; rewrite G;
      reflexivity.
  - split; [|split].
    + eexists. eexists. reflexivity.
    + intros e' st' HE. injection HE as <- <-. reflexivity.
    + intros response st' HE. discriminate HE.
Qed.

(** ** The top-level orchestrator *)

Lemma top_level_directly_replies (c : ConfigLoader) (message : string)
  (st : BaseAgent * World) :
  exists text st',
    top_level_orchestrator._handle_directly c message st = (Return text, st').
Proof.
  unfold top_level_orchestrator._handle_directly, try_except.
  match goal with |- context [match ?m st with _ => _ end] =>
    destruct (m st) as [[text|e] st'] end.
  - exists text, st'. reflexivity.
  - exists apology, st'. reflexivity.
Qed.

(** [_select_persona] never raises and always returns "main" or one of the
    configured personas: the answer of the model, trimmed and put in
    lower case, when it is a configured persona, and "main" when it is
    not, when the result has no generation or when the invocation
    fails. *)
Theorem select_persona_valid (c : ConfigLoader) (available : list string)
  (message : string) (st : BaseAgent * World) :
  (exists persona,
     top_level_orchestrator._select_persona c available message st
     = (Return persona, snd (llm_agenerate c st)) /\
     (persona = "main" \/ In persona available)) /\
  (forall response text l ll,
     fst (llm_agenerate c st) = Return response ->
     generations response = (text :: l) :: ll ->
     In (lower (strip text)) available ->
     fst (top_level_orchestrator._select_persona c available message st)
     = Return (lower (strip text))).
Proof.
  unfold top_level_orchestrator._select_persona, try_except, bind, first_text,
    ret, raise.
  destruct (llm_agenerate c st) as [[response|e] st1] eqn:E; cbn [fst snd].
  - split.
    + destruct (generations response) as [|[|text l] ll]; cbv beta iota zeta.
      * exists "main". split; [reflexivity | left; reflexivity].
      * exists "main". split; [reflexivity | left; reflexivity].
      * destruct (existsb (String.eqb (lower (strip text))) available) eqn:Hin.
        -- exists (lower (strip text)). split; [reflexivity|]. right.
           apply existsb_exists in Hin. destruct Hin as (x & Hx & Heq).
           apply String.eqb_eq in Heq. subst x. exact Hx.
        -- exists "main". split; [reflexivity | left; reflexivity].
    + intros response' text l ll Hr Hg Hin. injection Hr as <-. rewrite Hg.
      cbv beta iota zeta.
      replace (existsb (String.eqb (lower (strip text))) available) with true.
      * reflexivity.
      * symmetry. apply existsb_exists. exists (lower (strip text)).
        split; [exact Hin | apply String.eqb_refl].
  - split.
    + exists "main". split; [reflexivity | left; reflexivity].
    + intros response text l ll Hr. discriminate Hr.
Qed.

(** The [process] of the top-level orchestrator never raises. It routes
    to the selected persona only when a persona is registered under that
    name, and then returns the reply behind the marker of the persona;
    when no persona is registered under the selected name, or the persona
    raises an error, it handles the message itself. *)
Theorem top_level_process_never_raises (c : ConfigLoader)
  (available : list string) (personas : top_level_orchestrator.personas_dict)
  (message : string) (st : BaseAgent * World) :
  (exists text st',
     top_level_orchestrator.process c available personas message st
     = (Return text, st')) /\
  (forall selected st1,
     top_level_orchestrator._select_persona c available message st
     = (Return selected, st1) ->
     (forall persona response,
        selected <> "" -> Dict.get selected personas = Some persona ->
        persona message = Return response ->
        top_level_orchestrator.process c available personas message st
        = (Return (top_level_orchestrator.routed selected response),
           (add_to_history c message
              (top_level_orchestrator.routed selected response) (fst st1),
            snd st1))) /\
     (forall persona e,
        Dict.get selected personas = Some persona ->
        persona message = Raise e ->
        top_level_orchestrator.process c available personas message st
        = top_level_orchestrator._handle_directly c message st1) /\
     (Dict.get selected personas = None ->
      top_level_orchestrator.process c available personas message st
      = top_level_orchestrator._handle_directly c message st1)).
Proof.
  destruct (select_persona_valid c available message st)
    as [(selected & Hsel & _) _].
  assert (Hp :
    top_level_orchestrator.process c available personas message st
    = (if negb (String.eqb selected "")
          && is_some (Dict.get selected personas)
       then
         try_except
           (bind
              match Dict.get selected personas with
              | Some persona => lift_outcome (persona message)
              | None => raise (mk_exn "KeyError" selected)
              end
              (fun response =>
                 bind
                   (modify (fun st0 : BaseAgent * World =>
                      (add_to_history c message
                         (top_level_orchestrator.routed selected response)
                         (fst st0), snd st0)))
                   (fun _ =>
                      ret (top_level_orchestrator.routed selected response))))
           (fun _ => top_level_orchestrator._handle_directly c message)
       else top_level_orchestrator._handle_directly c message)
        (snd (llm_agenerate c st))).
  { unfold top_level_orchestrator.process, bind at 1. rewrite Hsel.
    reflexivity. }
  rewrite Hp. clear Hp. rewrite Hsel.
  split.
  - destruct (negb (String.eqb selected "")
              && is_some (Dict.get selected personas));
      [|apply top_level_directly_replies].
    unfold try_except, bind, lift_outcome, raise, modify, ret.
    destruct (Dict.get selected personas) as [persona|].
    + destruct (persona message) as [response|e].
      * eexists. eexists. reflexivity.
      * apply top_level_directly_replies.
    + apply top_level_directly_replies.
  - intros selected' st1 H. injection H as Hs Hst.
    subst selected' st1. split; [|split].
    + intros persona response Hne Hget Hresp. rewrite Hget.
      destruct (String.eqb_spec selected "") as [E|_]; [elim (Hne E)|].
      cbv [negb andb is_some try_except bind lift_outcome modify ret].
      rewrite Hresp. reflexivity.
    + intros persona e Hget Hresp. rewrite Hget.
      destruct (negb (String.eqb selected "")); [|reflexivity].
      cbv [andb is_some try_except bind lift_outcome].
      rewrite Hresp. reflexivity.
    + intros Hget. rewrite Hget, andb_false_r. reflexivity.
Qed.

(** ** Scores and the case of letters *)

Lemma lower_ascii_idem (c : ascii) : lower_ascii (lower_ascii c) = lower_ascii c.
Proof. destruct c as [[] [] [] [] [] [] [] []]; reflexivity. Qed.

Lemma lower_idem (s : string) : lower (lower s) = lower s.
Proof.
  induction s as [|c t IH]; simpl; [reflexivity|].
  rewrite lower_ascii_idem, IH. reflexivity.
Qed.

Lemma keyword_matches_lower (keywords1 keywords2 : list string) (ml : string) :
  map lower keywords1 = map lower keywords2 ->
  List.length (filter (fun keyword => contains (lower keyword) ml) keywords1)
  = List.length (filter (fun keyword => contains (lower keyword) ml) keywords2).
Proof.
  revert keywords2. induction keywords1 as [|k1 l1 IH];
    intros [|k2 l2] H; try discriminate H; [reflexivity|].
  simpl in H. injection H as Hk Hl. simpl. rewrite Hk.
  destruct (contains (lower k2) ml); simpl; rewrite (IH l2 Hl); reflexivity.
Qed.

(** The score does not depend on the case of the letters: two messages
    that are equal up to case get the same score, a message gets the score
    of its lower-case form, and a capability counts the same hits when its
    keywords are written in another case. *)
Theorem can_handle_ignores_case (self : BaseAgent) :
  (forall message message',
     lower message = lower message' ->
     can_handle self message = can_handle self message') /\
  (forall message, can_handle self (lower message) = can_handle self message) /\
  (forall capability capability' message,
     map lower (keywords capability) = map lower (keywords capability') ->
     keyword_matches capability (lower message)
     = keyword_matches capability' (lower message)).
Proof.
  split; [|split].
  - intros message message' H. unfold can_handle. rewrite H. reflexivity.
  - intros message. unfold can_handle. rewrite lower_idem. reflexivity.
  - intros capability capability' message H. unfold keyword_matches.
    apply keyword_matches_lower, H.
Qed.

Lemma can_handle_ignores_case_witness :
  can_handle sample.coding "Fix This BUG" = can_handle sample.coding "fix this bug".
Proof.
  apply (proj1 (can_handle_ignores_case sample.coding)). reflexivity.
Defined.

(** ** Runs of the sample system, continued *)

Lemma find_best_agent_first_maximum_witness :
  (fallback_agent sample.reg = Some sample.coding /\
   fadd f0_3 f0_3 = f0_5 /\
   forall x, In x (Dict.values (agents sample.reg)) ->
     flt (can_handle x "fix this bug in my function") f0_3 = true)
  \/
  (fadd f0_3 f0_3 = can_handle sample.coding "fix this bug in my function" /\
   flt f0_0 (fadd f0_3 f0_3) = true /\
   exists l1 l2,
     Dict.values (agents sample.reg) = (l1 ++ sample.coding :: l2)%list /\
     (forall x, In x l1 ->
        flt (can_handle x "fix this bug in my function") (fadd f0_3 f0_3)
        = true) /\
     (forall x, In x l2 ->
        flt (fadd f0_3 f0_3) (can_handle x "fix this bug in my function")
        = false)).
Proof.
  apply (find_best_agent_first_maximum sample.reg
           "fix this bug in my function" sample.coding (fadd f0_3 f0_3)).
  reflexivity.
Defined.

Lemma find_best_agent_none_witness :
  fst (find_best_agent new_registry "hello") = None /\
  snd (find_best_agent new_registry "hello") = f0_0.
Proof.
  destruct (find_best_agent_none new_registry "hello") as [Hiff Hzero].
  assert (H : fst (find_best_agent new_registry "hello") = None).
  { apply Hiff. split; [reflexivity | intros x []]. }
  split; [exact H | exact (Hzero H)].
Defined.

Lemma register_agent_lookup_witness :
  get_agent_by_name (registry.register_agent sample.general true sample.reg)
                    "coding"
  = Some sample.coding /\
  Dict.len (agents (registry.register_agent sample.general true sample.reg))
  = 2%nat.
Proof.
  destruct (register_agent_lookup sample.general true sample.reg)
    as (_ & Hother & Hlen & _).
  split.
  - rewrite (Hother "coding"); [reflexivity | discriminate].
  - exact Hlen.
Defined.

Lemma agenerate_budget_witness :
  calls (snd (snd (agenerate sample.cfg_disabled
                     (sample.invoker,
                      sample.world (Raise sample.timeout_error)
                                   (sample.reply "hello")))))
  = 1%nat.
Proof.
  destruct (agenerate_budget sample.cfg_disabled sample.invoker
              (sample.world (Raise sample.timeout_error)
                            (sample.reply "hello"))) as (_ & _ & H).
  exact (proj1 (H eq_refl)).
Defined.

Lemma agenerate_negative_retries_witness :
  agenerate sample.cfg
    (sample2.with_retries (-1) sample.invoker,
     sample.world (sample.reply "hello") (sample.reply "hello"))
  = (Raise (mk_exn "Exception" "All attempts failed for main"),
     (sample2.with_retries (-1) sample.invoker,
      sample.world (sample.reply "hello") (sample.reply "hello"))).
Proof.
  apply (agenerate_negative_retries sample.cfg
           (sample2.with_retries (-1) sample.invoker)
           (sample.world (sample.reply "hello") (sample.reply "hello")));
    reflexivity.
Defined.

Lemma agenerate_relays_last_call_witness :
  exists role evs k,
    trace (snd (snd (agenerate sample.cfg
                       (sample.invoker,
                        sample.world (Raise sample.timeout_error)
                                     (sample.reply "hello")))))
    = ([] ++ evs ++ [Call role])%list /\
    calls (snd (snd (agenerate sample.cfg
                       (sample.invoker,
                        sample.world (Raise sample.timeout_error)
                                     (sample.reply "hello")))))
    = S k /\
    fst (agenerate sample.cfg
           (sample.invoker,
            sample.world (Raise sample.timeout_error) (sample.reply "hello")))
    = backend (sample.world (Raise sample.timeout_error)
                            (sample.reply "hello")) role k.
Proof.
  apply (agenerate_relays_last_call sample.cfg sample.invoker
           (sample.world (Raise sample.timeout_error) (sample.reply "hello"))).
  - intros H. discriminate H.
  - simpl. lia.
  - split; [simpl; lia|]. split; [reflexivity|].
    intros [|[|attempt]] H; [reflexivity | reflexivity | simpl in H; lia].
Defined.

Lemma fallback_state_never_calls_primary_witness :
  exists evs,
    trace (snd (snd (agenerate sample.cfg
                       (sample.forced,
                        sample.world (sample.reply "hello")
                                     (Raise sample.timeout_error)))))
    = ([] ++ evs)%list /\
    ~ In (Call Primary) evs.
Proof.
  apply (fallback_state_never_calls_primary sample.cfg sample.forced
           (sample.world (sample.reply "hello") (Raise sample.timeout_error)));
    reflexivity.
Defined.

Lemma no_secondary_never_falls_back_witness :
  fst (snd (agenerate sample.cfg
              (sample2.lonely,
               sample.world (Raise sample.credit_error)
                            (sample.reply "hello"))))
  = sample2.lonely /\
  force_fallback "manual_override" sample2.lonely = sample2.lonely.
Proof.
  destruct no_secondary_never_falls_back as (_ & Hgen & Hforce).
  split.
  - apply (Hgen sample.cfg sample2.lonely); reflexivity.
  - apply (Hforce "manual_override" sample2.lonely); reflexivity.
Defined.

Lemma agenerate_exhaustion_witness :
  fst (agenerate sample.cfg
         (sample.invoker,
          sample.world (Raise sample.timeout_error) (sample.reply "hello")))
  = sample.reply "hello" /\
  using_fallback
    (fst (snd (agenerate sample.cfg
                 (sample.invoker,
                  sample.world (Raise sample.timeout_error)
                               (sample.reply "hello"))))) = true /\
  fallback_reason
    (fst (snd (agenerate sample.cfg
                 (sample.invoker,
                  sample.world (Raise sample.timeout_error)
                               (sample.reply "hello")))))
  = Some "max_retries_exceeded" /\
  calls (snd (snd (agenerate sample.cfg
                     (sample.invoker,
                      sample.world (Raise sample.timeout_error)
                                   (sample.reply "hello")))))
  = 4%nat /\
  sleeps (snd (snd (agenerate sample.cfg
                      (sample.invoker,
                       sample.world (Raise sample.timeout_error)
                                    (sample.reply "hello")))))
  = 2%nat.
Proof.
  destruct (agenerate_exhaustion sample.cfg sample.invoker
              (sample.world (Raise sample.timeout_error)
                            (sample.reply "hello")))
    as (Hsleeps & _ & Hsome).
  - reflexivity.
  - simpl. lia.
  - split; [simpl; lia|]. split; [reflexivity|].
    intros [|[|attempt]] H; [reflexivity | reflexivity | simpl in H; lia].
  - reflexivity.
  - intros k _. exists sample.timeout_error. split; reflexivity.
  - destruct Hsome as (Hr & _ & Hu & Hreason & Hcalls); [discriminate|].
    split; [exact Hr|]. split; [exact Hu|]. split; [exact Hreason|].
    split; [exact Hcalls | exact Hsleeps].
Defined.

Lemma force_then_reset_witness :
  fallback_reason (force_fallback "manual_override" sample.invoker)
  = Some "manual_override" /\
  force_fallback "again" sample.forced = sample.forced /\
  reset_fallback (force_fallback "manual_override" sample.invoker)
  = sample.invoker.
Proof.
  destruct force_then_reset as (Hforce & Hkeep & _ & Hundo).
  split; [|split].
  - apply (Hforce "manual_override" sample.invoker);
      [discriminate | reflexivity].
  - apply (Hkeep "again" sample.forced). reflexivity.
  - apply (Hundo "manual_override" sample.invoker); reflexivity.
Defined.

Lemma reset_all_fallbacks_clears_witness :
  using_fallback (sample.forced_heap 1%nat) = true /\
  using_fallback
    (reset_all_fallbacks sample.forced_heap sample.manager 1%nat) = false /\
  reset_all_fallbacks sample.forced_heap sample.manager 7%nat
  = sample.forced_heap 7%nat.
Proof.
  destruct (reset_all_fallbacks_clears sample.cfg sample.forced_heap
              sample.manager) as (Hin & Hout & _).
  split; [reflexivity|]. split.
  - apply (Hin 1%nat). simpl. tauto.
  - apply (Hout 7%nat). simpl. intros [H|[H|[]]]; discriminate H.
Defined.

Lemma force_all_fallbacks_switches_witness :
  agents_using_fallback
    (get_system_status sample.cfg
       (force_all_fallbacks "manual_override" sample.heap sample.manager)
       sample.manager)
  = total_agents
      (get_system_status sample.cfg
         (force_all_fallbacks "manual_override" sample.heap sample.manager)
         sample.manager).
Proof.
  destruct (force_all_fallbacks_switches sample.cfg "manual_override"
              sample.heap sample.manager) as (_ & _ & H).
  apply H. intros a _. unfold sample.heap.
  destruct (Nat.eqb a 0); discriminate.
Defined.

Lemma add_to_history_bound_witness :
  List.length
    (conversation_history
       (add_to_history (sample2.cfg_history 4) "e" "f" sample2.talkative))
  = 4%nat /\
  List.length
    (conversation_history
       (add_to_history (sample2.cfg_history 0) "e" "f" sample2.talkative))
  = 6%nat /\
  List.length
    (conversation_history
       (add_to_history (sample2.cfg_history (-5)) "e" "f" sample2.talkative))
  = 1%nat.
Proof.
  destruct (add_to_history_bound (sample2.cfg_history 4) "e" "f"
              sample2.talkative) as (_ & Hpos & _).
  destruct (add_to_history_bound (sample2.cfg_history 0) "e" "f"
              sample2.talkative) as (_ & _ & Hzero & _).
  destruct (add_to_history_bound (sample2.cfg_history (-5)) "e" "f"
              sample2.talkative) as (_ & _ & _ & Hneg & _).
  split; [|split].
  - rewrite Hpos; reflexivity.
  - rewrite Hzero; reflexivity.
  - rewrite Hneg; reflexivity.
Defined.

Lemma process_routing_decision_witness :
  process sample.cfg sample.reg (fun _ _ => Return "Use a guard.")
    "fix this bug in my function"
    (sample.router,
     sample.world (sample.reply "unused") (sample.reply "unused"))
  = (Return (orchestrator.routed sample.coding "Use a guard."),
     (add_to_history sample.cfg "fix this bug in my function"
        (orchestrator.routed sample.coding "Use a guard.") sample.router,
      sample.world (sample.reply "unused") (sample.reply "unused"))).
Proof.
  apply (proj1 (process_routing_decision sample.cfg sample.reg
                  (fun _ _ => Return "Use a guard.")
                  "fix this bug in my function" sample.router
                  (sample.world (sample.reply "unused")
                                (sample.reply "unused")))
           sample.coding "Use a guard.");
    [reflexivity | discriminate | reflexivity | reflexivity].
Defined.

Lemma unmatched_message_goes_to_default_witness :
  fst (process sample.cfg sample.reg (fun _ _ => Return "Good morning.")
         "good morning"
         (sample.router,
          sample.world (sample.reply "unused") (sample.reply "unused")))
  = Return (orchestrator.routed sample.general "Good morning.").
Proof.
  rewrite (unmatched_message_goes_to_default sample.cfg sample.reg
             (fun _ _ => Return "Good morning.") "good morning"
             sample.router
             (sample.world (sample.reply "unused") (sample.reply "unused"))
             sample.general "Good morning.").
  - reflexivity.
  - left. reflexivity.
  - reflexivity.
  - discriminate.
  - intros a Ha. simpl in Ha. destruct Ha as [<-|[<-|[]]]; reflexivity.
  - reflexivity.
Defined.

Lemma assistant_process_never_raises_witness :
  fst (assistants.coding_process sample.cfg "fix it"
         (sample.coding,
          sample.world (Raise sample.credit_error)
                       (Raise sample.timeout_error)))
  = Return (assistants.coding_apology ++ "Connection timed out").
Proof.
  destruct (assistant_process_never_raises assistants.coding_apology
              sample.cfg "fix it"
              (sample.coding,
               sample.world (Raise sample.credit_error)
                            (Raise sample.timeout_error)))
    as (_ & Herr & _).
  unfold assistants.coding_process.
  rewrite (Herr sample.timeout_error
             (snd (llm_agenerate sample.cfg
                     (sample.coding,
                      sample.world (Raise sample.credit_error)
                                   (Raise sample.timeout_error))))
             eq_refl).
  reflexivity.
Defined.

Lemma select_persona_valid_witness :
  fst (top_level_orchestrator._select_persona sample.cfg sample2.available
         "write a parser"
         (sample2.top_level,
          sample.world (sample.reply "  Developer ") (sample.reply "unused")))
  = Return "developer".
Proof.
  apply (proj2 (select_persona_valid sample.cfg sample2.available
                  "write a parser"
                  (sample2.top_level,
                   sample.world (sample.reply "  Developer ")
                                (sample.reply "unused")))
           {| generations := [["  Developer "]] |} "  Developer " [] []).
  - reflexivity.
  - reflexivity.
  - simpl. tauto.
Defined.

Lemma top_level_process_never_raises_witness :
  exists text st',
    top_level_orchestrator.process sample.cfg sample2.available
      sample2.personas "paint a picture"
      (sample2.top_level,
       sample.world (sample.reply "creative") (sample.reply "unused"))
    = (Return text, st').
Proof.
  apply (proj1 (top_level_process_never_raises sample.cfg sample2.available
                  sample2.personas "paint a picture"
                  (sample2.top_level,
                   sample.world (sample.reply "creative")
                                (sample.reply "unused")))).
Defined.

(** The model answers "creative", a configured persona that is not
    registered: the top-level orchestrator handles the message itself,
    with a second call to its model. *)
Example top_level_unregistered_persona :
  fst (top_level_orchestrator.process sample.cfg sample2.available
         sample2.personas "paint a picture"
         (sample2.top_level,
          sample.scripted [sample.reply "creative"; sample.reply " A tree. "]))
  = Return "A tree.".
Proof. reflexivity. Qed.

(** The model answers "Developer": the persona registered under
    "developer" replies. *)
Example top_level_routes :
  fst (top_level_orchestrator.process sample.cfg sample2.available
         sample2.personas "write a parser"
         (sample2.top_level,
          sample.scripted [sample.reply "Developer"]))
  = Return (top_level_orchestrator.routed "developer" "Use a loop.").
Proof. reflexivity. Qed.

(** ** The configuration loader *)

Import yaml_loader.

Lemma models_section_dict (d ms : list (string * yaml)) (section : string) :
  Dict.get "models" d = Some (YDict ms) ->
  models_section (YDict d) section
  = Return match Dict.get section ms with
           | Some v => v
           | None => empty
           end.
Proof. intros H. unfold models_section, get, and_then. rewrite H. reflexivity. Qed.

Lemma models_section_absent (d : list (string * yaml)) (section : string) :
  Dict.get "models" d = None ->
  models_section (YDict d) section = Return empty.
Proof. intros H. unfold models_section, get, and_then. rewrite H. reflexivity. Qed.

(** The model of an agent. In a document whose "models" section is a
    mapping, with mappings (if anything) under "personas" and "universal",
    [get_model_for_agent] never raises and returns the first model given
    among: the main model, for the agent named "main" or of type "main";
    the agent's own model, for a persona or a universal agent; the main
    model; and "openai/gpt-4". *)
Theorem get_model_for_agent_resolution (d ms : list (string * yaml))
  (agent_name agent_type : string) :
  Dict.get "models" d = Some (YDict ms) ->
  (forall v, Dict.get "personas" ms = Some v -> exists ps, v = YDict ps) ->
  (forall v, Dict.get "universal" ms = Some v -> exists us, v = YDict us) ->
  get_model_for_agent (YDict d) agent_name agent_type
  = Return
      (let main :=
         match Dict.get "main" ms with
         | Some v => model_of v
         | None => None
         end in
       let own :=
         if String.eqb agent_type "personas" || String.eqb agent_type "universal"
         then match Dict.get agent_type ms with
              | Some (YDict entries) =>
                  match Dict.get agent_name entries with
                  | Some v => model_of v
                  | None => None
                  end
              | _ => None
              end
         else None in
       match main, own with
       | Some m, Some o =>
           if String.eqb agent_name "main" || String.eqb agent_type "main"
           then m else o
       | Some m, None => m
       | None, Some o => o
       | None, None => default_model
       end).
Proof.
  intros Hm Hp Hu. unfold get_model_for_agent.
  rewrite !(models_section_dict d ms _ Hm). cbv zeta.
  destruct (String.eqb_spec agent_type "personas") as [->|Hnp].
  - cbn [orb String.eqb Ascii.eqb Bool.eqb].
    destruct (Dict.get "personas" ms) as [v|] eqn:Eps.
    + destruct (Hp v eq_refl) as [ps ->]. unfold and_then, get.
      destruct (Dict.get "main" ms) as [vm|];
        [destruct (model_of vm)|];
        (destruct (Dict.get agent_name ps) as [entry|];
           [destruct (model_of entry)|]);
        destruct (String.eqb agent_name "main"); reflexivity.
    + unfold and_then, get, empty. cbn [Dict.get].
      destruct (Dict.get "main" ms) as [vm|];
        [destruct (model_of vm)|];
        destruct (String.eqb agent_name "main"); reflexivity.
  - replace (String.eqb agent_type "personas") with false
      by (symmetry; apply String.eqb_neq, Hnp).
    destruct (String.eqb_spec agent_type "universal") as [->|Hnu].
    + cbn [orb String.eqb Ascii.eqb Bool.eqb].
      destruct (Dict.get "universal" ms) as [v|] eqn:Eus.
      * destruct (Hu v eq_refl) as [us ->]. unfold and_then, get.
        destruct (Dict.get "main" ms) as [vm|];
          [destruct (model_of vm)|];
          (destruct (Dict.get agent_name us) as [entry|];
             [destruct (model_of entry)|]);
          destruct (String.eqb agent_name "main"); reflexivity.
      * unfold and_then, get, empty. cbn [Dict.get].
        destruct (Dict.get "main" ms) as [vm|];
          [destruct (model_of vm)|];
          destruct (String.eqb agent_name "main"); reflexivity.
    + cbn [orb]. unfold and_then.
      destruct (Dict.get "main" ms) as [vm|];
        [destruct (model_of vm)|];
        destruct (String.eqb agent_name "main" || String.eqb agent_type "main");
        reflexivity.
Qed.

(** The four settings read from the fallback section, each with the
    default given where it is read. *)
Lemma fallback_default_table (key : string) (default : yaml) :
  In (key, default)
     [ ("enabled", YBool true); ("max_retries", YInt 2);
       ("retry_delay", YFloat f1_0); ("fallback_notification", YBool true) ] ->
  get default_fallback_config key default = Return default.
Proof.
  intros [E|[E|[E|[E|[]]]]]; injection E as <- <-; reflexivity.
Qed.

(** A fallback setting that the document does not give reads as the same
    default whether the whole fallback section is missing or only the key
    is: enabled, 2 retries, a delay of 1.0 and notification on. In
    particular the fallback subsystem is enabled unless the document says
    otherwise. *)
Theorem fallback_setting_defaults (d : list (string * yaml)) (key : string)
  (default : yaml) :
  In (key, default)
     [ ("enabled", YBool true); ("max_retries", YInt 2);
       ("retry_delay", YFloat f1_0); ("fallback_notification", YBool true) ] ->
  (Dict.get "agents" d = None \/
   (exists agents, Dict.get "agents" d = Some (YDict agents) /\
      (Dict.get "fallback" agents = None \/
       exists section, Dict.get "fallback" agents = Some (YDict section) /\
                       Dict.get key section = None))) ->
  and_then (get_fallback_config (YDict d))
           (fun fallback_config => get fallback_config key default)
  = Return default /\
  (key = "enabled" -> is_fallback_enabled (YDict d) = Return (YBool true)).
Proof.
  intros Hin H.
  assert (G : and_then (get_fallback_config (YDict d))
                (fun fallback_config => get fallback_config key default)
              = Return default).
  { unfold get_fallback_config, and_then, get at 1 2.
    destruct H as [-> | (agents & -> & [-> | (section & -> & Hk)])].
    - apply fallback_default_table, Hin.
    - apply fallback_default_table, Hin.
    - unfold get. rewrite Hk. reflexivity. }
  split; [exact G|].
  intros ->. unfold is_fallback_enabled.
  destruct Hin as [E|[E|[E|[E|[]]]]]; try discriminate E.
  injection E as <-. exact G.
Qed.

Lemma fallback_setting_defaults_witness :
  is_fallback_enabled sample3.document = Return (YBool true).
Proof.
  apply (proj2 (fallback_setting_defaults sample3.sections
                  "enabled" (YBool true) (or_introl eq_refl)
                  (or_intror
                     (ex_intro _ [("fallback", YDict sample3.fallback_section)]
                        (conj eq_refl
                           (or_intror
                              (ex_intro _ sample3.fallback_section
                                 (conj eq_refl eq_refl)))))))).
  reflexivity.
Defined.

Lemma mapped_fallback_names (mapping : yaml) (agent_name agent_type : string)
  (found : yaml) :
  mapped_fallback mapping agent_name agent_type (YStr "main_fallback")
  = Return found ->
  truthy found = true ->
  exists found',
    mapped_fallback mapping agent_name agent_type YNone = Return found' /\
    (if truthy found' then found' else YStr "main_fallback") = found.
Proof.
  unfold mapped_fallback.
  assert (G : forall v key,
            get v key (YStr "main_fallback") = Return found ->
            truthy found = true ->
            exists found',
              get v key YNone = Return found' /\
              (if truthy found' then found' else YStr "main_fallback") = found).
  { intros v key Hg Ht. destruct v; try discriminate Hg. simpl in *.
    destruct (Dict.get key d) as [x|].
    - injection Hg as ->. exists found. rewrite Ht. split; reflexivity.
    - injection Hg as <-. exists YNone. split; reflexivity. }
  destruct (String.eqb agent_type "main" || String.eqb agent_name "main");
    [apply G|].
  destruct (String.eqb agent_type "personas").
  - unfold and_then. destruct (get mapping "personas" empty) as [tm|e];
      [apply G | discriminate].
  - destruct (String.eqb agent_type "universal").
    + unfold and_then. destruct (get mapping "universal" empty) as [tm|e];
        [apply G | discriminate].
    + intros H Ht. injection H as <-. discriminate Ht.
Qed.

(** The two readings of the fallback model of an agent agree. When
    [get_fallback_agent_config] returns a configuration and the name it
    found for the fallback is not empty, [get_fallback_model_for_agent]
    returns the model of that configuration. *)
Theorem fallback_model_readings_agree (cfg : yaml)
  (agent_name agent_type : string) (fallback_config mapping found : yaml)
  (mc : yaml_loader.ModelConfig) :
  get_fallback_config cfg = Return fallback_config ->
  get fallback_config "mapping" empty = Return mapping ->
  mapped_fallback mapping agent_name agent_type (YStr "main_fallback")
  = Return found ->
  truthy found = true ->
  get_fallback_agent_config cfg agent_name agent_type = Return mc ->
  get_fallback_model_for_agent cfg agent_name agent_type
  = Return (yaml_loader.model_name mc).
Proof.
  intros Hfc Hmap Hfound Ht Hmc.
  destruct (mapped_fallback_names mapping agent_name agent_type found
              Hfound Ht) as (found' & Hfound' & Hname).
  unfold get_fallback_agent_config, get_fallback_model_for_agent in *.
  rewrite Hfc in *. cbn [and_then] in *. rewrite Hmap in *.
  cbn [and_then] in *. rewrite Hfound in Hmc. rewrite Hfound'.
  cbn [and_then] in *. rewrite Hname.
  destruct (models_section cfg "fallbacks") as [fallback_models|e];
    [|discriminate Hmc].
  cbn [and_then] in *.
  destruct (get_by fallback_models found empty) as [entry|e];
    [|discriminate Hmc].
  cbn [and_then] in *.
  destruct entry as [| | | | | |entry]; try discriminate Hmc.
  unfold get, and_then in Hmc. injection Hmc as <-. cbn [yaml_loader.model_name].
  unfold model_of. destruct (Dict.get "model" entry); reflexivity.
Qed.

(** An agent of a type other than "main", "personas" and "universal", not
    named "main", has no fallback name: the configuration built for its
    invoker by [get_fallback_agent_config] always carries the built-in
    free model, whatever fallback models the document configures. *)
Theorem other_types_get_builtin_fallback (cfg : yaml)
  (agent_name agent_type : string) (mc : yaml_loader.ModelConfig) :
  agent_name <> "main" -> agent_type <> "main" ->
  agent_type <> "personas" -> agent_type <> "universal" ->
  get_fallback_agent_config cfg agent_name agent_type = Return mc ->
  yaml_loader.model_name mc = default_fallback_model.
Proof.
  intros Hn Hm Hp Hu H. unfold get_fallback_agent_config, mapped_fallback in H.
  apply String.eqb_neq in Hn, Hm, Hp, Hu. rewrite Hn, Hm, Hp, Hu in H.
  cbn [orb] in H.
  destruct (get_fallback_config cfg) as [fc|e]; [|discriminate H].
  cbn [and_then] in H.
  destruct (get fc "mapping" empty) as [mapping|e]; [|discriminate H].
  cbn [and_then] in H.
  destruct (models_section cfg "fallbacks") as [fallback_models|e];
    [|discriminate H].
  cbn [and_then] in H.
  destruct fallback_models as [| | | | | |fm]; try discriminate H.
  cbn in H. injection H as <-. reflexivity.
Qed.

Lemma get_model_for_agent_resolution_witness :
  get_model_for_agent sample3.document "developer" "personas"
  = Return (YStr "openai/o3") /\
  get_model_for_agent sample3.document "main" "personas"
  = Return (YStr "openai/gpt-4o") /\
  get_model_for_agent sample3.document "writer" "personas"
  = Return (YStr "openai/gpt-4o").
Proof.
  assert (Hp : forall v, Dict.get "personas" sample3.model_sections = Some v ->
                 exists ps, v = YDict ps)
    by (intros v E; injection E as <-; eexists; reflexivity).
  assert (Hu : forall v, Dict.get "universal" sample3.model_sections = Some v ->
                 exists us, v = YDict us)
    by (intros v E; discriminate E).
  unfold sample3.document. split; [|split].
  - rewrite (get_model_for_agent_resolution sample3.sections
               sample3.model_sections "developer" "personas" eq_refl Hp Hu).
    reflexivity.
  - rewrite (get_model_for_agent_resolution sample3.sections
               sample3.model_sections "main" "personas" eq_refl Hp Hu).
    reflexivity.
  - rewrite (get_model_for_agent_resolution sample3.sections
               sample3.model_sections "writer" "personas" eq_refl Hp Hu).
    reflexivity.
Defined.

Lemma fallback_model_readings_agree_witness :
  get_fallback_model_for_agent sample3.document "developer" "personas"
  = Return (YStr "free/coder").
Proof.
  apply (fallback_model_readings_agree sample3.document "developer" "personas"
           (YDict sample3.fallback_section)
           (YDict [("main", YStr "main_fallback");
                   ("personas", YDict [("developer", YStr "dev_fallback")])])
           (YStr "dev_fallback")
           {| yaml_loader.model_name := YStr "free/coder";
              yaml_loader.temperature := YFloat f0_7;
              yaml_loader.max_tokens := YInt 1000 |});
    reflexivity.
Defined.

Lemma other_types_get_builtin_fallback_witness :
  get_fallback_agent_config sample3.document "summarizer" "helpers"
  = Return {| yaml_loader.model_name := default_fallback_model;
              yaml_loader.temperature := YFloat f0_7;
              yaml_loader.max_tokens := YInt 1000 |} /\
  yaml_loader.model_name
    {| yaml_loader.model_name := default_fallback_model;
       yaml_loader.temperature := YFloat f0_7;
       yaml_loader.max_tokens := YInt 1000 |}
  = default_fallback_model.
Proof.
  split; [reflexivity|].
  apply (other_types_get_builtin_fallback sample3.document "summarizer"
           "helpers"); try discriminate. reflexivity.
Defined.

(** For such an agent the other reading gives the configured main
    fallback. *)
Example other_types_other_reading :
  get_fallback_model_for_agent sample3.document "summarizer" "helpers"
  = Return (YStr "free/general").
Proof. reflexivity. Qed.

Example f0_7_literal : fdiv (of_int 7) (of_int 10) = f0_7.
Proof. vm_compute. reflexivity. Qed.
